(** * Shawarma_Admin: the menu store and the sales analytics pipeline

    A shallow embedding of [admin_neondb_helper.py] (the menu table and its
    CRUD helpers) and of the data path of [app.py] (dashboard filters, the
    cleaning steps of the forecasting page, the per-category daily series
    and the forecasting loop), followed by the properties of the
    specification that hold of them.

    Conventions.
    - Python [float] columns and arguments are read as exact rationals [Q]
      along the pipeline; comparisons are [Qle_bool].  The daily series,
      the one place where the pipeline adds floats, is also given over any
      arithmetic of its column (module [Grouped]), binary64 included.
    - Timestamps are seconds since the epoch ([Z]); a calendar date is the
      day number [t / 86400].
    - Text is [string]; the whitespace and case functions cover ASCII.
    - A Python exception is a value of [exn]; a call that can raise returns
      a [result]. *)

From Stdlib Require Import ZArith QArith Qround List String Ascii Bool Lia.
From Stdlib Require Import Permutation Sorted.
Import ListNotations.

Set Implicit Arguments.

(* ================================================================== *)
(** * Python values used by both files *)
(* ================================================================== *)

Module Py.

(** The two exception classes the sources raise or catch by name;
    [OtherError] stands for any other subclass of [Exception] (a parser or
    a model-fitting failure inside a library). *)
Inductive exn : Type :=
| ValueError (msg : string)
| PsycopgError (msg : string)
| OtherError (msg : string).

(** [str(e)], as used by the f-strings of the log lines. *)
Definition exn_str (e : exn) : string :=
  match e with
  | ValueError m => m
  | PsycopgError m => m
  | OtherError m => m
  end.

Inductive result (A : Type) : Type :=
| Ok (a : A)
| Err (e : exn).

Arguments Ok {A} a.
Arguments Err {A} e.

(** [not s] on a string: true exactly on the empty string. *)
Definition py_not (s : string) : bool :=
  match s with
  | EmptyString => true
  | String _ _ => false
  end.

(** [c.isspace()] on the ASCII range: TAB..CR, FS..US and the blank. *)
Definition isspace (c : ascii) : bool :=
  let n := nat_of_ascii c in
  ((9 <=? n)%nat && (n <=? 13)%nat) || ((28 <=? n)%nat && (n <=? 32)%nat).

Fixpoint lstrip (s : string) : string :=
  match s with
  | EmptyString => EmptyString
  | String c s' => if isspace c then lstrip s' else s
  end.

Fixpoint rstrip (s : string) : string :=
  match s with
  | EmptyString => EmptyString
  | String c s' =>
      match rstrip s' with
      | EmptyString => if isspace c then EmptyString else String c EmptyString
      | t => String c t
      end
  end.

(** [s.strip()] *)
Definition strip (s : string) : string := rstrip (lstrip s).

Definition isupper (c : ascii) : bool :=
  let n := nat_of_ascii c in (65 <=? n)%nat && (n <=? 90)%nat.

Definition islower (c : ascii) : bool :=
  let n := nat_of_ascii c in (97 <=? n)%nat && (n <=? 122)%nat.

Definition isalpha (c : ascii) : bool := isupper c || islower c.

Definition upper (c : ascii) : ascii :=
  if islower c then ascii_of_nat (nat_of_ascii c - 32) else c.

Definition lower (c : ascii) : ascii :=
  if isupper c then ascii_of_nat (nat_of_ascii c + 32) else c.

(** [s.title()]: a cased character is upper-cased when it follows an
    uncased one (or starts the string) and lower-cased otherwise.
    [prev_cased] is the flag CPython carries along the scan. *)
Fixpoint title_from (prev_cased : bool) (s : string) : string :=
  match s with
  | EmptyString => EmptyString
  | String c s' =>
      if isalpha c
      then String (if prev_cased then lower c else upper c) (title_from true s')
      else String c (title_from false s')
  end.

Definition title (s : string) : string := title_from false s.

(** [s.lower()] *)
Fixpoint str_lower (s : string) : string :=
  match s with
  | EmptyString => EmptyString
  | String c s' => String (lower c) (str_lower s')
  end.

Fixpoint prefix_of (p s : string) : bool :=
  match p, s with
  | EmptyString, _ => true
  | String a p', String b s' => Ascii.eqb a b && prefix_of p' s'
  | String _ _, EmptyString => false
  end.

(** Substring test, [p in s]. *)
Fixpoint contains (p s : string) : bool :=
  prefix_of p s ||
  match s with
  | EmptyString => false
  | String _ s' => contains p s'
  end.

(** [x in xs] for a list of strings, the test behind [Series.isin]. *)
Definition str_in (x : string) (xs : list string) : bool :=
  existsb (String.eqb x) xs.

(** [Series.unique()]: the distinct values in order of first appearance. *)
Fixpoint unique (xs : list string) : list string :=
  match xs with
  | [] => []
  | x :: xs' => x :: filter (fun y => negb (String.eqb x y)) (unique xs')
  end.

(** [a < b] on numbers. *)
Definition Qlt_bool (a b : Q) : bool := negb (Qle_bool b a).

End Py.

Import Py.

(* ================================================================== *)
(** * admin_neondb_helper.py *)
(* ================================================================== *)

Module NeonDb.

(** A row of [menu], in the column order of the SELECT statements:
    (id, item_name, category, item_price). *)
Record menu_row : Type := MenuRow {
  id : Z;
  item_name : string;
  category : string;
  item_price : Q
}.

(** Modelled from the spec: the [menu] table, whose schema and whose server
    are not under src/.  "id (integer, primary key, assigned by store)":
    the store keeps the rows and the next value of the id sequence.
    [database_url] is the process environment variable read by
    [get_connection]; [server_up] says whether [psycopg2.connect] succeeds. *)
Record world : Type := World {
  database_url : option string;
  server_up : bool;
  menu : list menu_row;
  menu_id_seq : Z
}.

Definition set_menu (w : world) (rows : list menu_row) (seq : Z) : world :=
  {| database_url := database_url w;
     server_up := server_up w;
     menu := rows;
     menu_id_seq := seq |}.

(** Store-passing computations that may raise.  The log lines of the
    helpers are not part of the state. *)
Definition db (A : Type) : Type := world -> world * result A.

Definition ret {A} (a : A) : db A := fun w => (w, Ok a).
Definition raise {A} (e : exn) : db A := fun w => (w, Err e).
Definition bind {A B} (m : db A) (k : A -> db B) : db B :=
  fun w =>
    match m w with
    | (w', Ok a) => k a w'
    | (w', Err e) => (w', Err e)
    end.

Notation "x <- m ;; k" := (bind m (fun x => k))
  (at level 61, m at next level, right associativity).
Notation "m ;;; k" := (bind m (fun _ => k))
  (at level 61, right associativity).

Definition msg_no_url : string :=
  "DATABASE_URL not found in environment variables".

(** [get_connection]: the URL must be set and non-empty, then the connect
    call must succeed.  Both failures are logged and re-raised. *)
Definition get_connection : db unit :=
  fun w =>
    match database_url w with
    | None => (w, Err (ValueError msg_no_url))
    | Some url =>
        if py_not url then (w, Err (ValueError msg_no_url))
        else if server_up w then (w, Ok tt)
        else (w, Err (PsycopgError "could not connect to server"))
    end.

(** ORDER BY id: a stable insertion sort on the id column. *)
Fixpoint insert_by_id (r : menu_row) (rows : list menu_row) : list menu_row :=
  match rows with
  | [] => [r]
  | r' :: rest =>
      if (id r <? id r')%Z then r :: rows else r' :: insert_by_id r rest
  end.

Fixpoint order_by_id (rows : list menu_row) : list menu_row :=
  match rows with
  | [] => []
  | r :: rest => insert_by_id r (order_by_id rest)
  end.

(** [fetch_menu] (and its twin [get_all_menu_items]):
    SELECT id, item_name, category, item_price FROM menu ORDER BY id *)
Definition fetch_menu : db (list menu_row) :=
  get_connection ;;;
  fun w => (w, Ok (order_by_id (menu w))).

Definition get_all_menu_items : db (list menu_row) := fetch_menu.

Definition msg_name_empty : string := "Item name cannot be empty".
Definition msg_category_empty : string := "Category cannot be empty".
Definition msg_price_negative : string := "Price cannot be negative".

(** INSERT INTO menu (item_name, category, item_price) VALUES (..)
    RETURNING id; the id is the next value of the sequence. *)
Definition insert_menu (name cat : string) (price : Q) : db Z :=
  fun w =>
    let item_id := menu_id_seq w in
    (set_menu w (menu w ++ [MenuRow item_id name cat price]) (item_id + 1),
     Ok item_id).

(** [add_menu_item]: the three validation tests come first, before any
    connection is opened; the row is inserted with the stripped name and
    category. *)
Definition add_menu_item (item_name category : string) (price : Q) : db unit :=
  if py_not item_name || py_not (strip item_name)
  then raise (ValueError msg_name_empty)
  else if py_not category || py_not (strip category)
  then raise (ValueError msg_category_empty)
  else if Qlt_bool price 0
  then raise (ValueError msg_price_negative)
  else
    get_connection ;;;
    _ <- insert_menu (strip item_name) (strip category) price ;;
    ret tt.

(** UPDATE menu SET item_name = .., category = .., item_price = ..
    WHERE id = ..: every row with that id is rewritten, the others are
    left as they are; zero matching rows is not an error. *)
Definition update_rows (item_id : Z) (name cat : string) (price : Q)
    (rows : list menu_row) : list menu_row :=
  map (fun r => if (id r =? item_id)%Z
                then MenuRow (id r) name cat price
                else r) rows.

(** [update_menu_item]: no test on the arguments; they go to the statement
    as given. *)
Definition update_menu_item (item_id : Z) (item_name category : string)
    (price : Q) : db unit :=
  get_connection ;;;
  fun w =>
    (set_menu w (update_rows item_id item_name category price (menu w))
       (menu_id_seq w),
     Ok tt).

(** [delete_menu_item]: DELETE FROM menu WHERE id = .. *)
Definition delete_menu_item (item_id : Z) : db unit :=
  get_connection ;;;
  fun w =>
    (set_menu w (filter (fun r => negb (id r =? item_id)%Z) (menu w))
       (menu_id_seq w),
     Ok tt).

(** A raised [ValueError] carrying one of the three messages of the
    validation block of [add_menu_item]. *)
Definition is_validation_error (r : result unit) : Prop :=
  r = Err (ValueError msg_name_empty) \/
  r = Err (ValueError msg_category_empty) \/
  r = Err (ValueError msg_price_negative).

End NeonDb.

(* ================================================================== *)
(** * app.py: the data path of the Dashboard and Sales Forecasting pages *)
(* ================================================================== *)

Module App.

(** A cell of a column that pandas still has to convert.  The outcome of
    the pandas parser on the stored value is part of the cell: [Missing]
    is None/NaN/NaT, [Parsed a] a value that converts to [a], and
    [Unparseable s] a value (the text [s]) that the parser rejects. *)
Inductive raw (A : Type) : Type :=
| Missing
| Parsed (a : A)
| Unparseable (s : string).

Arguments Missing {A}.
Arguments Parsed {A} a.
Arguments Unparseable {A} s.

Definition isna {A} (c : raw A) : bool :=
  match c with
  | Missing => true
  | _ => false
  end.

(** The frame returned by [fetch_order_data], one record per row, with the
    eleven columns of its SELECT. *)
Module Raw.
Record order : Type := Order {
  order_id : Z;
  item_id : Z;
  item_name : string;
  item_price : raw Q;
  quantity : raw Q;
  total_price : raw Q;
  time_at : raw Z;
  phone_number : string;
  type_ : string;
  category : string;
  id : Z
}.
End Raw.

(** The same row once [time_at] is a timestamp and the three numeric
    columns are numbers. *)
Record order : Type := Order {
  order_id : Z;
  item_id : Z;
  item_name : string;
  item_price : Q;
  quantity : Q;
  total_price : Q;
  time_at : Z;
  phone_number : string;
  type_ : string;
  category : string;
  id : Z
}.

(** [ts.date()]: the day number of a timestamp in seconds. *)
Definition date (t : Z) : Z := (t / 86400)%Z.

(** ** Dashboard filters (app.py lines 96-117) *)

(** [pd.to_datetime(col)] with the default [errors="raise"]: the first
    cell the parser rejects raises; a missing cell stays missing. *)
Fixpoint to_datetime (df : list Raw.order) : result (list Raw.order) :=
  match df with
  | [] => Ok []
  | r :: rest =>
      match Raw.time_at r with
      | Unparseable s => Err (OtherError ("Unknown datetime string format: " ++ s))
      | _ =>
          match to_datetime rest with
          | Ok rest' => Ok (r :: rest')
          | Err e => Err e
          end
      end
  end.

(** [(time_at.dt.date >= from_date) & (time_at.dt.date <= to_date)];
    a comparison with NaT is false. *)
Definition in_date_range (from_date to_date : Z) (r : Raw.order) : bool :=
  match Raw.time_at r with
  | Parsed t => (from_date <=? date t)%Z && (date t <=? to_date)%Z
  | _ => false
  end.

(** A non-empty Python list is truthy. *)
Definition truthy {A} (xs : list A) : bool :=
  match xs with
  | [] => false
  | _ :: _ => true
  end.

(** [if item_filter and len(item_filter) < len(item_options):
        df = df[df["item_name"].isin(item_filter)]] *)
Definition filter_items (item_filter item_options : list string)
    (df_filtered : list Raw.order) : list Raw.order :=
  if truthy item_filter && (List.length item_filter <? List.length item_options)%nat
  then filter (fun r => str_in (Raw.item_name r) item_filter) df_filtered
  else df_filtered.

(** [if category_filter and len(category_filter) < len(category_options):
        df = df[df["category"].isin(category_filter)]] *)
Definition filter_categories (category_filter category_options : list string)
    (df_filtered : list Raw.order) : list Raw.order :=
  if truthy category_filter
     && (List.length category_filter <? List.length category_options)%nat
  then filter (fun r => str_in (Raw.category r) category_filter) df_filtered
  else df_filtered.

Section Search.

(** [re.compile(pat, flags=re.IGNORECASE)] and [regex.search] of the
    compiled pattern: the regular-expression engine is not part of the
    repository.  On a pattern it rejects it raises; otherwise it gives
    the test "the pattern is found somewhere in this text, whatever the
    letter case". *)
Variable re_compile : string -> result (string -> bool).

(** [if search_term:
        df = df[item_name.str.contains(search_term, case=False, na=False)]];
    [str.contains] reads the term as a regular expression. *)
Definition filter_search (search_term : string)
    (df_filtered : list Raw.order) : result (list Raw.order) :=
  if py_not search_term then Ok df_filtered
  else
    match re_compile search_term with
    | Err e => Err e
    | Ok found => Ok (filter (fun r => found (Raw.item_name r)) df_filtered)
    end.

(** The filter block of the Dashboard page, in source order. *)
Definition dashboard_filter (from_date to_date : Z)
    (item_filter item_options category_filter category_options : list string)
    (search_term : string) (df_orders : list Raw.order)
  : result (list Raw.order) :=
  match to_datetime df_orders with
  | Err e => Err e
  | Ok df =>
      let df_filtered := filter (in_date_range from_date to_date) df in
      let df_filtered := filter_items item_filter item_options df_filtered in
      let df_filtered :=
        filter_categories category_filter category_options df_filtered in
      filter_search search_term df_filtered
  end.

End Search.

(** ** Data cleaning (app.py lines 316-322) *)

(** [df.dropna(subset=["time_at", "total_price"])] *)
Definition dropna_time_total (df : list Raw.order) : list Raw.order :=
  filter (fun r => negb (isna (Raw.time_at r))
                   && negb (isna (Raw.total_price r))) df.

(** [pd.to_numeric(cell, errors="coerce")]: a rejected value becomes NaN. *)
Definition to_numeric_coerce (c : raw Q) : raw Q :=
  match c with
  | Unparseable _ => Missing
  | _ => c
  end.

(** The three [to_numeric] assignments, row by row. *)
Definition to_numeric_cols (r : Raw.order) : Raw.order :=
  Raw.Order (Raw.order_id r) (Raw.item_id r) (Raw.item_name r)
    (to_numeric_coerce (Raw.item_price r))
    (to_numeric_coerce (Raw.quantity r))
    (to_numeric_coerce (Raw.total_price r))
    (Raw.time_at r) (Raw.phone_number r) (Raw.type_ r) (Raw.category r)
    (Raw.id r).

(** [df.dropna(subset=["total_price", "item_price", "quantity"])] *)
Definition dropna_numeric (df : list Raw.order) : list Raw.order :=
  filter (fun r => negb (isna (Raw.total_price r))
                   && negb (isna (Raw.item_price r))
                   && negb (isna (Raw.quantity r))) df.

(** The typed view of a row whose four converted columns hold values. *)
Definition typed (r : Raw.order) : option order :=
  match Raw.item_price r, Raw.quantity r, Raw.total_price r, Raw.time_at r with
  | Parsed p, Parsed q, Parsed t, Parsed ts =>
      Some (Order (Raw.order_id r) (Raw.item_id r) (Raw.item_name r) p q t ts
              (Raw.phone_number r) (Raw.type_ r) (Raw.category r) (Raw.id r))
  | _, _, _, _ => None
  end.

Fixpoint typed_rows (df : list Raw.order) : list order :=
  match df with
  | [] => []
  | r :: rest =>
      match typed r with
      | Some o => o :: typed_rows rest
      | None => typed_rows rest
      end
  end.

(** Equality of two rows on every column. *)
Definition order_eqb (a b : order) : bool :=
  (order_id a =? order_id b)%Z && (item_id a =? item_id b)%Z
  && String.eqb (item_name a) (item_name b)
  && Qeq_bool (item_price a) (item_price b)
  && Qeq_bool (quantity a) (quantity b)
  && Qeq_bool (total_price a) (total_price b)
  && (time_at a =? time_at b)%Z
  && String.eqb (phone_number a) (phone_number b)
  && String.eqb (type_ a) (type_ b)
  && String.eqb (category a) (category b)
  && (id a =? id b)%Z.

(** [df.drop_duplicates()]: the first of each run of equal rows is kept. *)
Fixpoint drop_duplicates (df : list order) : list order :=
  match df with
  | [] => []
  | r :: rest =>
      r :: filter (fun r' => negb (order_eqb r r')) (drop_duplicates rest)
  end.

(** Lines 316-321: the two [dropna], [to_datetime] and the three
    [to_numeric].  Only [to_datetime] can raise. *)
Definition coerce_frame (df_orders : list Raw.order)
  : result (list Raw.order) :=
  let df_orders := dropna_time_total df_orders in
  match to_datetime df_orders with
  | Err e => Err e
  | Ok df_orders =>
      let df_orders := map to_numeric_cols df_orders in
      Ok (dropna_numeric df_orders)
  end.

(** The "Data cleaning" block: the frame of lines 316-321, read as typed
    rows, then [drop_duplicates] (line 322). *)
Definition clean (df_orders : list Raw.order) : result (list order) :=
  match coerce_frame df_orders with
  | Err e => Err e
  | Ok df_orders => Ok (drop_duplicates (typed_rows df_orders))
  end.

(** ** Outlier removal (app.py lines 325-329) *)

Fixpoint insert_sorted (x : Q) (xs : list Q) : list Q :=
  match xs with
  | [] => [x]
  | y :: ys => if Qle_bool x y then x :: xs else y :: insert_sorted x ys
  end.

Definition sort_values (xs : list Q) : list Q := fold_right insert_sorted [] xs.

(** [Series.quantile(q)] with the default linear interpolation: on the
    sorted values [a] of length [n], the position is [q * (n - 1)], and the
    result lies between the two neighbours of that position.  [None] is
    the NaN returned on an empty column. *)
Definition quantile (xs : list Q) (q : Q) : option Q :=
  match sort_values xs with
  | [] => None
  | (a0 :: _) as a =>
      let pos := q * inject_Z (Z.of_nat (List.length a) - 1) in
      let lo := Qfloor pos in
      let frac := pos - inject_Z lo in
      let x_lo := nth (Z.to_nat lo) a a0 in
      let x_hi := nth (Z.to_nat lo + 1) a x_lo in
      Some (x_lo + (x_hi - x_lo) * frac)
  end.

(** [x >= bound] and [x <= bound]; a comparison with NaN is false. *)
Definition ge_bound (x : Q) (bound : option Q) : bool :=
  match bound with
  | Some b => Qle_bool b x
  | None => false
  end.

Definition le_bound (x : Q) (bound : option Q) : bool :=
  match bound with
  | Some b => Qle_bool x b
  | None => false
  end.

Definition q_low (df_orders : list order) : option Q :=
  quantile (map total_price df_orders) (1 # 100).

Definition q_high (df_orders : list order) : option Q :=
  quantile (map total_price df_orders) (99 # 100).

(** [df[(df.total_price >= q_low) & (df.total_price <= q_high)]] *)
Definition remove_outliers (df_orders : list order) : list order :=
  filter (fun r => ge_bound (total_price r) (q_low df_orders)
                   && le_bound (total_price r) (q_high df_orders)) df_orders.

(** ** Future dates and category clean-up (app.py lines 331-344) *)

(** [df[df["time_at"] <= today]] *)
Definition remove_future (today : Z) (df_orders : list order) : list order :=
  filter (fun r => (time_at r <=? today)%Z) df_orders.

Definition set_category (r : order) (c : string) : order :=
  Order (order_id r) (item_id r) (item_name r) (item_price r) (quantity r)
    (total_price r) (time_at r) (phone_number r) (type_ r) c (id r).

(** [df["category"].str.strip().str.title()] *)
Definition clean_category (df_orders : list order) : list order :=
  map (fun r => set_category r (title (strip (category r)))) df_orders.

(** ** The per-category daily series (app.py lines 348-356) *)

(** One step of the grouped sum: the value is added to the bucket of its
    date, and the buckets are kept in date order ([groupby] sorts its
    keys).  The addition is that of the rationals; [Grouped.bucket_add]
    is the same step over any arithmetic of the column. *)
Fixpoint group_add (d : Z) (v : Q) (acc : list (Z * Q)) : list (Z * Q) :=
  match acc with
  | [] => [(d, v)]
  | (d', s) :: rest =>
      if (d <? d')%Z then (d, v) :: acc
      else if (d =? d')%Z then (d', s + v) :: rest
      else (d', s) :: group_add d v rest
  end.

(** [df.groupby(df["time_at"].dt.date)["total_price"].sum().reset_index()],
    renamed to the columns (ds, y). *)
Definition groupby_date_sum (df : list order) : list (Z * Q) :=
  fold_left (fun acc r => group_add (date (time_at r)) (total_price r) acc)
    df [].

(** [df_orders[df_orders["category"] == category]] *)
Definition df_category (df_orders : list order) (c : string) : list order :=
  filter (fun r => String.eqb (category r) c) df_orders.

Definition df_grouped (df_orders : list order) (c : string) : list (Z * Q) :=
  groupby_date_sum (df_category df_orders c).

(** ** The Sales Forecasting page (app.py lines 305-418) *)

(** A row of the frame returned by [model.predict], restricted to the four
    columns the page reads. *)
Record forecast_row : Type := ForecastRow {
  ds : Z;
  yhat : Q;
  yhat_lower : Q;
  yhat_upper : Q
}.

(** The three traces and the title of the figure of one category. *)
Record figure : Type := Figure {
  fig_title : string;
  actual_sales : list (Z * Q);
  forecasted_sales : list (Z * Q);
  confidence_interval : list (Z * Q)
}.

(** What the page shows ([st.*]) and what it logs ([logger.*]). *)
Inductive event : Type :=
| st_warning (msg : string)
| st_error (msg : string)
| st_info (msg : string)
| st_markdown (msg : string)
| st_plotly_chart (fig : figure)
| logger_info (msg : string)
| logger_warning (msg : string)
| logger_error (msg : string).

(** A run of page code: the events emitted so far and how it ended. *)
Definition ui (A : Type) : Type := (list event * result A)%type.

Definition ui_ret {A} (a : A) : ui A := ([], Ok a).
Definition emit (e : event) : ui unit := ([e], Ok tt).
Definition lift {A} (r : result A) : ui A := ([], r).

Definition ui_bind {A B} (m : ui A) (k : A -> ui B) : ui B :=
  match m with
  | (out, Ok a) => let (out', r) := k a in (out ++ out', r)
  | (out, Err e) => (out, Err e)
  end.

(** [try: m  except Exception as e: h e] *)
Definition try_except (m : ui unit) (h : exn -> ui unit) : ui unit :=
  match m with
  | (out, Ok a) => (out, Ok a)
  | (out, Err e) => let (out', r) := h e in (out ++ out', r)
  end.

Notation "x <- m ;; k" := (ui_bind m (fun x => k))
  (at level 61, m at next level, right associativity).
Notation "m ;;; k" := (ui_bind m (fun _ => k))
  (at level 61, right associativity).

Definition make_figure (category : string) (df_grouped : list (Z * Q))
    (forecast : list forecast_row) : figure :=
  let forecast_dates := map ds forecast in
  Figure ("Sales Forecast with Confidence Interval - " ++ category)
    df_grouped
    (combine forecast_dates (map yhat forecast))
    (combine (forecast_dates ++ rev forecast_dates)
             (map yhat_upper forecast ++ rev (map yhat_lower forecast))).

Definition msg_failed : string := "Failed to generate sales forecast.".

Section SalesForecasting.

(** The Prophet calls of lines 364-367 taken together:
    [Prophet().fit(df_grouped)], [make_future_dataframe(periods=..)] and
    [predict(future)].  The library is not part of the repository; it may
    raise. *)
Variable prophet : list (Z * Q) -> Z -> result (list forecast_row).

(** The radio button value, 7 or 30. *)
Variable forecast_days : Z.

(** [pd.to_datetime("today")] *)
Variable today : Z.

(** The body of [for category in categories:].  Nothing inside the loop
    catches an exception: a raise in the Prophet calls leaves the loop. *)
Fixpoint forecast_loop (df_orders : list order) (categories : list string)
  : ui unit :=
  match categories with
  | [] => ui_ret tt
  | category :: rest =>
      emit (st_markdown ("### 🔹 Category: " ++ category)) ;;;
      let df_grouped := df_grouped df_orders category in
      if (List.length df_grouped <? 2)%nat then
        emit (st_info ("Not enough data to forecast for category: "
                       ++ category)) ;;;
        emit (logger_info ("Insufficient data for category: " ++ category)) ;;;
        forecast_loop df_orders rest
      else
        forecast <- lift (prophet df_grouped forecast_days) ;;
        emit (st_plotly_chart (make_figure category df_grouped forecast)) ;;;
        emit (logger_info ("Generated sales forecast for category: "
                           ++ category)) ;;;
        forecast_loop df_orders rest
  end.

(** The frame the loop runs on: cleaning, outliers, future dates,
    categories.  The test on the presence of the [category] column has no
    counterpart: the column is a field of the row. *)
Definition prepare (df_orders : list Raw.order) : result (list order) :=
  match clean df_orders with
  | Err e => Err e
  | Ok df => Ok (clean_category (remove_future today (remove_outliers df)))
  end.

(** The contents of the [try:] block of the page. *)
Definition forecasting_body (df_orders : list Raw.order) : ui unit :=
  df_orders <- lift (prepare df_orders) ;;
  let categories := unique (map category df_orders) in
  forecast_loop df_orders categories.

(** The single handler of the page, [except Exception as e:]. *)
Definition forecasting_handler (e : exn) : ui unit :=
  emit (st_error msg_failed) ;;;
  emit (logger_error ("Error in sales forecasting: " ++ exn_str e)).

(** The Sales Forecasting branch of the script from line 310 on, given
    the frame that [fetch_order_data()] returned at line 309.  That call
    is outside the [try]: when it raises, this code is not reached. *)
Definition sales_forecasting (df_orders : list Raw.order) : ui unit :=
  match df_orders with
  | [] =>
      emit (st_warning "No order data found.") ;;;
      emit (logger_warning "No order data available for forecasting")
  | _ :: _ => try_except (forecasting_body df_orders) forecasting_handler
  end.

End SalesForecasting.

End App.

(* ================================================================== *)
(** * Vocabulary of the statements *)
(* ================================================================== *)

Module Props.
Import App.
Local Open Scope string_scope.
Local Open Scope list_scope.

(** ** Menu helpers *)

(** The condition under which [add_menu_item] accepts its arguments. *)
Definition valid_input (name cat : string) (price : Q) : Prop :=
  strip name <> EmptyString /\ strip cat <> EmptyString /\ 0 <= price.

(** Row by row, what the UPDATE statement does to the table. *)
Definition rewritten (item_id : Z) (name cat : string) (price : Q)
    (r r' : NeonDb.menu_row) : Prop :=
  (NeonDb.id r = item_id -> r' = NeonDb.MenuRow item_id name cat price) /\
  (NeonDb.id r <> item_id -> r' = r).

(** ** Dashboard filters *)

(** What [st.multiselect] hands back: distinct members of its options. *)
Definition selection_of (selected options : list string) : Prop :=
  NoDup selected /\ incl selected options.

(** The two filter blocks are one scheme over the column they read. *)
Definition narrow (key : Raw.order -> string) (selected options : list string)
    (df : list Raw.order) : list Raw.order :=
  if truthy selected && (List.length selected <? List.length options)%nat
  then filter (fun r => str_in (key r) selected) df
  else df.

(** ** Cleaning *)

(** The parser rejects the [time_at] of the row. *)
Definition time_at_rejected (r : Raw.order) : Prop :=
  exists s, Raw.time_at r = Unparseable s.

(** The row survives the first [dropna], so [to_datetime] sees it. *)
Definition reaches_to_datetime (r : Raw.order) : Prop :=
  Raw.time_at r <> Missing /\ Raw.total_price r <> Missing.

(** The four columns pandas converts hold values its parsers accept. *)
Definition converts (r : Raw.order) : Prop :=
  exists p q t ts,
    Raw.item_price r = Parsed p /\ Raw.quantity r = Parsed q /\
    Raw.total_price r = Parsed t /\ Raw.time_at r = Parsed ts.

(** Equality on every column, numbers compared as numbers. *)
Definition same_row (a b : order) : Prop :=
  order_id a = order_id b /\ item_id a = item_id b /\
  item_name a = item_name b /\ item_price a == item_price b /\
  quantity a == quantity b /\ total_price a == total_price b /\
  time_at a = time_at b /\ phone_number a = phone_number b /\
  type_ a = type_ b /\ category a = category b /\ id a = id b.

(** ** Daily series *)

(** The sum of [total_price] over a list of rows. *)
Definition sum_total_price (rows : list order) : Q :=
  fold_right (fun r acc => total_price r + acc) 0 rows.

(** The cleaned rows of category [c] whose [time_at] falls on day [d]. *)
Definition rows_on (df : list order) (c : string) (d : Z) : list order :=
  filter (fun r => String.eqb (category r) c && (date (time_at r) =? d)%Z) df.

(** The total held by a list of buckets for day [d]. *)
Fixpoint bucket (d : Z) (acc : list (Z * Q)) : Q :=
  match acc with
  | [] => 0
  | (d', s) :: rest => (if (d =? d')%Z then s else 0) + bucket d rest
  end.

(** The [ds] column of a series. *)
Definition dates (series : list (Z * Q)) : list Z := map fst series.

(** ** Output of the forecasting page *)

(** The heading shown at the start of each turn of the loop. *)
Definition header (c : string) : event :=
  st_markdown ("### 🔹 Category: " ++ c).

(** What a turn emits on a series of fewer than two dates. *)
Definition skipped (c : string) : list event :=
  [header c;
   st_info ("Not enough data to forecast for category: " ++ c);
   logger_info ("Insufficient data for category: " ++ c)].

(** What a turn emits when the Prophet calls return. *)
Definition charted (c : string) (series : list (Z * Q))
    (forecast : list forecast_row) : list event :=
  [header c;
   st_plotly_chart (make_figure c series forecast);
   logger_info ("Generated sales forecast for category: " ++ c)].

(** What the handler of the page emits. *)
Definition failure_report (e : exn) : list event :=
  [st_error msg_failed;
   logger_error ("Error in sales forecasting: " ++ exn_str e)].

End Props.

(* ================================================================== *)
(** * Sample data *)
(* ================================================================== *)

Module Sample.
Import App.
Local Open Scope string_scope.
Local Open Scope list_scope.

(** A reachable store with two menu rows. *)
Definition shop : NeonDb.world :=
  NeonDb.World (Some "postgresql://neon/shawarma") true
    [NeonDb.MenuRow 1 "Shawarma" "Wraps" 20;
     NeonDb.MenuRow 2 "Fries" "Sides" 10] 3.

(** An order row whose cells all convert. *)
Definition sale (oid : Z) (name : string) (price : Q) (ts : Z) (cat : string)
  : Raw.order :=
  Raw.Order oid 1 name (Parsed price) (Parsed 1) (Parsed price) (Parsed ts)
    "0500000000" "dine-in" cat 1.

(** 2025-01-01 and 2025-01-02, midnight UTC; the run is on 2026-01-01. *)
Definition jan1 : Z := 1735689600.
Definition jan2 : Z := 1735776000.
Definition run_time : Z := 1767225600.

Definition two_sales : list Raw.order :=
  [sale 1 "Shawarma" 20 jan1 "Wraps";
   sale 2 "Fries" 10 jan2 "Sides"].

(** A row whose [time_at] is text that is no timestamp. *)
Definition bad_time : Raw.order :=
  Raw.Order 3 1 "Shawarma" (Parsed 20) (Parsed 1) (Parsed 20)
    (Unparseable "31/31/2025") "0500000000" "dine-in" "Wraps" 1.

(** A row whose [quantity] is text that is no number. *)
Definition bad_quantity : Raw.order :=
  Raw.Order 4 1 "Shawarma" (Parsed 20) (Unparseable "two") (Parsed 20)
    (Parsed jan1) "0500000000" "dine-in" "Wraps" 1.

(** Three categories: Wraps sells the same amount on both days, Sides
    sells 20 then 40, Drinks sells on one day only. *)
Definition week : list Raw.order :=
  [sale 1 "Shawarma" 20 jan1 " wraps";
   sale 2 "Shawarma" 20 jan2 "Wraps";
   sale 3 "Fries" 20 jan1 "Sides";
   sale 4 "Fries" 20 jan2 "Sides";
   sale 5 "Fries" 20 jan2 "Sides";
   sale 6 "Cola" 20 jan1 "Drinks"].

(** The same sales with Wraps last. *)
Definition week_wraps_last : list Raw.order :=
  [sale 3 "Fries" 20 jan1 "Sides";
   sale 4 "Fries" 20 jan2 "Sides";
   sale 5 "Fries" 20 jan2 "Sides";
   sale 6 "Cola" 20 jan1 "Drinks";
   sale 1 "Shawarma" 20 jan1 " wraps";
   sale 2 "Shawarma" 20 jan2 "Wraps"].

(** The frame the loop runs on, for a raw frame that cleans. *)
Definition prepared (df_orders : list Raw.order) : list order :=
  match prepare run_time df_orders with
  | Ok df => df
  | Err _ => []
  end.

Definition all_same (ys : list Q) : bool :=
  match ys with
  | [] => true
  | y :: rest => forallb (Qeq_bool y) rest
  end.

Fixpoint future (last : Z) (y : Q) (periods : nat) : list forecast_row :=
  match periods with
  | O => []
  | S k => ForecastRow (last + 1) y y y :: future (last + 1) y k
  end.

Definition msg_degenerate : string := "degenerate series: no variance".

(** A stand-in for the library, with the shape of its output: it raises
    on a series without variance, and otherwise repeats the history and
    carries the last value over the horizon. *)
Definition flat_prophet (series : list (Z * Q)) (periods : Z)
  : result (list forecast_row) :=
  if all_same (map snd series) then Err (OtherError msg_degenerate)
  else
    let history :=
      map (fun p => ForecastRow (fst p) (snd p) (snd p) (snd p)) series in
    match rev series with
    | [] => Ok history
    | (d, y) :: _ => Ok (history ++ future d y (Z.to_nat periods))
    end.

End Sample.

(* ================================================================== *)
(** * admin_neondb_helper.py: the remaining helpers *)
(* ================================================================== *)

Module OrderData.
Import NeonDb.

(** Modelled from the spec: a row of the [orders] table, whose schema is
    not under src/ ("order_id, item_id (references menu.id), item_name,
    item_price, quantity, total_price, time_at, phone_number, type").  The
    cells pandas converts later carry the outcome of its parsers, as in
    [App.raw]. *)
Record order_row : Type := OrderRow {
  order_id : Z;
  item_id : Z;
  item_name : string;
  item_price : App.raw Q;
  quantity : App.raw Q;
  total_price : App.raw Q;
  time_at : App.raw Z;
  phone_number : string;
  type_ : string
}.

(** One row of the SELECT list of [fetch_order_data]: the nine columns of
    the order, then [m.category] and [m.id]. *)
Definition join_row (o : order_row) (m : menu_row) : App.Raw.order :=
  App.Raw.Order (order_id o) (item_id o) (item_name o) (item_price o)
    (quantity o) (total_price o) (time_at o) (phone_number o) (type_ o)
    (NeonDb.category m) (NeonDb.id m).

(** FROM orders o JOIN menu m ON o.item_id = m.id *)
Definition join_orders (orders : list order_row) (rows : list menu_row)
  : list App.Raw.order :=
  flat_map
    (fun o => map (join_row o)
                  (filter (fun m => (item_id o =? NeonDb.id m)%Z) rows))
    orders.

(** [fetch_order_data]: the join is read over a fresh connection.  The
    code never writes to [orders], so the table is an argument. *)
Definition fetch_order_data (orders : list order_row)
  : db (list App.Raw.order) :=
  get_connection ;;;
  fun w => (w, Ok (join_orders orders (menu w))).

Section Categories.

(** The collation of the server, which orders text for ORDER BY: [leb a b]
    says that [a] sorts no later than [b]. *)
Variable leb : string -> string -> bool.

Fixpoint insert_category (c : string) (cs : list string) : list string :=
  match cs with
  | [] => [c]
  | c' :: rest =>
      if leb c c' then c :: cs else c' :: insert_category c rest
  end.

(** SELECT DISTINCT category FROM menu ORDER BY category *)
Definition distinct_categories (rows : list menu_row) : list string :=
  fold_right insert_category [] (unique (map NeonDb.category rows)).

(** [fetch_categories] *)
Definition fetch_categories : db (list string) :=
  get_connection ;;;
  fun w => (w, Ok (distinct_categories (menu w))).

End Categories.

(** The rows of the table have distinct ids, all below the next value of
    the id sequence. *)
Definition well_keyed (w : world) : Prop :=
  NoDup (map NeonDb.id (menu w)) /\
  Forall (fun r => (NeonDb.id r < menu_id_seq w)%Z) (menu w).

(** Sorted on the id column, as ORDER BY id asks. *)
Definition sorted_by_id (rows : list menu_row) : Prop :=
  StronglySorted (fun a b => (NeonDb.id a <= NeonDb.id b)%Z) rows.

End OrderData.

From Stdlib Require Import DecimalString.

(* ================================================================== *)
(** * app.py: the Manage Menu page (lines 233-302) *)
(* ================================================================== *)

Module ManageMenu.

(** What the page shows ([st.*]) and what app.py logs ([logger.*]). *)
Inductive event : Type :=
| st_title (msg : string)
| st_subheader (msg : string)
| st_dataframe (rows : list NeonDb.menu_row)
| st_success (msg : string)
| st_error (msg : string)
| logger_info (msg : string)
| logger_error (msg : string).

(** The state of the widgets on one run of the script.
    [category_choice] is the position picked in the select box. *)
Record widgets : Type := Widgets {
  selected_id : Z;
  delete_clicked : bool;
  new_name : string;
  new_category : string;
  new_price : Q;
  update_submitted : bool;
  item_name : string;
  category_choice : nat;
  price : Q;
  add_submitted : bool
}.

(** Page code: it reads and writes the store, emits events, may raise. *)
Definition page (A : Type) : Type :=
  NeonDb.world -> (NeonDb.world * list event) * result A.

Definition ret {A} (a : A) : page A := fun w => ((w, []), Ok a).

Definition emit (e : event) : page unit := fun w => ((w, [e]), Ok tt).

(** A call of a helper of admin_neondb_helper.py. *)
Definition call {A} (m : NeonDb.db A) : page A :=
  fun w => let (w', r) := m w in ((w', []), r).

Definition bind {A B} (m : page A) (k : A -> page B) : page B :=
  fun w =>
    match m w with
    | ((w', out), Ok a) =>
        match k a w' with
        | ((w'', out'), r) => ((w'', out ++ out'), r)
        end
    | ((w', out), Err e) => ((w', out), Err e)
    end.

(** [try: m  except Exception as e: h e] *)
Definition try_except (m : page unit) (h : exn -> page unit) : page unit :=
  fun w =>
    match m w with
    | ((w', out), Ok a) => ((w', out), Ok a)
    | ((w', out), Err e) =>
        match h e w' with
        | ((w'', out'), r) => ((w'', out ++ out'), r)
        end
    end.

Notation "x <- m ;; k" := (bind m (fun x => k))
  (at level 61, m at next level, right associativity).
Notation "m ;;; k" := (bind m (fun _ => k))
  (at level 61, right associativity).

(** [f"{n}"] on an int. *)
Definition str (n : Z) : string := NilZero.string_of_int (Z.to_int n).

(** [if st.button("Delete Item"): ...] *)
Definition delete_block (ui : widgets) : page unit :=
  if delete_clicked ui then
    try_except
      (call (NeonDb.delete_menu_item (selected_id ui)) ;;;
       emit (st_success "Item deleted successfully.") ;;;
       emit (logger_info ("Deleted menu item with ID: "
                          ++ str (selected_id ui))))
      (fun e =>
         emit (st_error "Failed to delete item.") ;;;
         emit (logger_error ("Error deleting item ID "
                             ++ str (selected_id ui) ++ ": " ++ exn_str e)))
  else ret tt.

(** [with st.form("edit_form"): ... if submitted: ...] *)
Definition edit_form (ui : widgets) : page unit :=
  if update_submitted ui then
    try_except
      (call (NeonDb.update_menu_item (selected_id ui) (new_name ui)
               (new_category ui) (new_price ui)) ;;;
       emit (st_success "Item updated successfully.") ;;;
       emit (logger_info ("Updated menu item ID: " ++ str (selected_id ui))))
      (fun e =>
         emit (st_error "Failed to update item.") ;;;
         emit (logger_error ("Error updating item ID "
                             ++ str (selected_id ui) ++ ": " ++ exn_str e)))
  else ret tt.

(** [with tab_view_edit:] - the listing is fetched and shown first, then
    the two actions run; one handler wraps the whole tab. *)
Definition tab_view_edit (ui : widgets) : page unit :=
  try_except
    (menu_data <- call NeonDb.fetch_menu ;;
     emit (st_dataframe menu_data) ;;;
     emit (st_subheader "✏️ Edit/Delete Item") ;;;
     delete_block ui ;;;
     edit_form ui)
    (fun e =>
       emit (st_error "Failed to load menu data.") ;;;
       emit (logger_error ("Error loading menu data: " ++ exn_str e))).

(** [st.selectbox("Select Category", categories)]: the option at the
    chosen position, None when there is none. *)
Definition selectbox (categories : list string) (choice : nat)
  : option string :=
  nth_error categories choice.

(** [add_menu_item(item_name, category, price)] with the value of the
    select box.  None is falsy like the empty string, and the test
    [not category] is all that [add_menu_item] does with it before it
    raises. *)
Definition add_selected (name : string) (category : option string)
    (price : Q) : NeonDb.db unit :=
  match category with
  | Some c => NeonDb.add_menu_item name c price
  | None => NeonDb.add_menu_item name EmptyString price
  end.

Section Collation.

(** The collation of the server, as for [OrderData.fetch_categories]. *)
Variable leb : string -> string -> bool.

(** [with tab_add:] - [fetch_categories] is called outside any handler;
    the page tests the name and the price before it calls
    [add_menu_item]. *)
Definition tab_add (ui : widgets) : page unit :=
  emit (st_subheader "Add New Menu Item") ;;;
  categories <- call (OrderData.fetch_categories leb) ;;
  let category := selectbox categories (category_choice ui) in
  if add_submitted ui then
    if py_not (strip (item_name ui)) then
      emit (st_error "Item name is required.")
    else if Qle_bool (price ui) 0 then
      emit (st_error "Price must be greater than 0.")
    else
      try_except
        (call (add_selected (item_name ui) category (price ui)) ;;;
         emit (st_success "New item added successfully.") ;;;
         emit (logger_info ("Added new menu item: " ++ item_name ui)))
        (fun e =>
           emit (st_error "Failed to add new item.") ;;;
           emit (logger_error ("Error adding new item " ++ item_name ui
                               ++ ": " ++ exn_str e)))
  else ret tt.

(** The Manage Menu branch of the script. *)
Definition manage_menu (ui : widgets) : page unit :=
  emit (st_title "🧾 Menu Management") ;;;
  tab_view_edit ui ;;;
  tab_add ui.

End Collation.

(** No button pressed, the forms as Streamlit first shows them. *)
Definition idle : widgets :=
  Widgets 1 false EmptyString EmptyString 0 false EmptyString 0 0 false.

End ManageMenu.

From Stdlib Require PrimFloat SpecFloat FloatOps.

(* ================================================================== *)
(** * groupby(date).sum() over any column arithmetic *)
(* ================================================================== *)

Module Grouped.

(** Calendar day [d], counted from the epoch, is the 86400 seconds that
    start at [86400 d]. *)
Definition falls_on (d t : Z) : Prop :=
  (86400 * d <= t < 86400 * (d + 1))%Z.

Definition on_day (d t : Z) : bool :=
  (86400 * d <=? t)%Z && (t <? 86400 * (d + 1))%Z.

Section Arithmetic.

(** The values of the column and the running state of its sum: [start]
    opens the sum of a group on its first value, [step] adds the next
    one.  Over the rationals the state is the sum itself; the grouped
    sum of pandas on binary64 carries a compensation term beside it. *)
Variables num acc : Type.
Variable start : num -> acc.
Variable step : acc -> num -> acc.

(** [App.group_add] with the arithmetic as a parameter. *)
Fixpoint bucket_add (d : Z) (v : num) (buckets : list (Z * acc))
  : list (Z * acc) :=
  match buckets with
  | [] => [(d, start v)]
  | (d', s) :: rest =>
      if (d <? d')%Z then (d, start v) :: buckets
      else if (d =? d')%Z then (d', step s v) :: rest
      else (d', s) :: bucket_add d v rest
  end.

(** [groupby(time_at.dt.date)[column].sum()] on the pairs
    (time_at, value) of a frame, in row order. *)
Definition grouped_with (rows : list (Z * num)) : list (Z * acc) :=
  fold_left (fun b p => bucket_add (App.date (fst p)) (snd p) b) rows [].

(** The sum of a non-empty run of values, taken in order. *)
Definition accumulate (vs : list num) : option acc :=
  match vs with
  | [] => None
  | v :: rest => Some (fold_left step rest (start v))
  end.

(** The state held for day [d], if any. *)
Fixpoint lookup (d : Z) (buckets : list (Z * acc)) : option acc :=
  match buckets with
  | [] => None
  | (d', s) :: rest => if (d =? d')%Z then Some s else lookup d rest
  end.

(** One more value on a state that may not be open yet. *)
Definition feed1 (o : option acc) (v : num) : acc :=
  match o with
  | Some s => step s v
  | None => start v
  end.

Definition feed (o : option acc) (vs : list num) : option acc :=
  fold_left (fun o v => Some (feed1 o v)) vs o.

End Arithmetic.

(** The values of the rows whose timestamp falls on day [d], in order. *)
Definition values_on {num : Type} (d : Z) (rows : list (Z * num))
  : list num :=
  map snd (filter (fun p => on_day d (fst p)) rows).

(** The rows of category [c] whose [time_at] falls on day [d]. *)
Definition rows_of_day (df : list App.order) (c : string) (d : Z)
  : list App.order :=
  filter (fun r => String.eqb (App.category r) c
                   && on_day d (App.time_at r)) df.

(** The two columns the grouped sum reads. *)
Definition column (df : list App.order) : list (Z * Q) :=
  map (fun r => (App.time_at r, App.total_price r)) df.

(** ** binary64 *)

(** One step of the compensated sum of pandas' [group_sum]. *)
Definition kahan_step (s : PrimFloat.float * PrimFloat.float)
    (v : PrimFloat.float) : PrimFloat.float * PrimFloat.float :=
  let (sumx, compensation) := s in
  let y := PrimFloat.sub v compensation in
  let t := PrimFloat.add sumx y in
  (t, PrimFloat.sub (PrimFloat.sub t sumx) y).

Definition kahan_start (v : PrimFloat.float)
  : PrimFloat.float * PrimFloat.float :=
  kahan_step (PrimFloat.zero, PrimFloat.zero) v.

(** The rational a finite binary64 value stands for. *)
Definition exact (x : PrimFloat.float) : option Q :=
  match FloatOps.Prim2SF x with
  | SpecFloat.S754_zero _ => Some 0
  | SpecFloat.S754_finite s m e =>
      Some ((if s then - (1) else 1) * inject_Z (Zpos m) * Qpower 2 e)
  | _ => None
  end.

Module Binary64.
Import PrimFloat.

(** The binary64 values written 0.1 and 0.2. *)
Definition tenth : float := 0x1.999999999999ap-4%float.
Definition fifth : float := 0x1.999999999999ap-3%float.

End Binary64.

End Grouped.

From Stdlib Require Import Lqa.

(* ================================================================== *)
(** * More sample data *)
(* ================================================================== *)

Module Sample2.
Import Sample.
Local Open Scope string_scope.
Local Open Scope list_scope.

(** The sample store with no DATABASE_URL in the environment. *)
Definition shop_no_url : NeonDb.world :=
  NeonDb.World None true (NeonDb.menu shop) (NeonDb.menu_id_seq shop).

(** The sample store with the server down. *)
Definition shop_offline : NeonDb.world :=
  NeonDb.World (NeonDb.database_url shop) false (NeonDb.menu shop)
    (NeonDb.menu_id_seq shop).

Definition offline_error : exn := PsycopgError "could not connect to server".

(** An order of one unit at the given price. *)
Definition placed (oid item : Z) (name : string) (price : Q) (ts : Z)
  : OrderData.order_row :=
  OrderData.OrderRow oid item name (App.Parsed price) (App.Parsed 1)
    (App.Parsed price) (App.Parsed ts) "0500000000" "dine-in".

(** Two orders of item 1, one of item 2, and one of an item that is no
    longer on the menu. *)
Definition ledger : list OrderData.order_row :=
  [placed 1 1 "Shawarma" 20 jan1;
   placed 2 2 "Fries" 10 jan1;
   placed 3 1 "Shawarma" 20 jan2;
   placed 4 7 "Hummus" 15 jan2].


(** A cleaned order row of one unit at the given price. *)
Definition sold (oid : Z) (name : string) (price : Q) (ts : Z) (cat : string)
  : App.order :=
  App.Order oid 1 name price 1 price ts "0500000000" "dine-in" cat 1.

(** The store before the first item is added. *)
Definition empty_shop : NeonDb.world :=
  NeonDb.World (NeonDb.database_url shop) true [] 1.

(** The Delete button pressed on an id that is on no row. *)
Definition delete_999 : ManageMenu.widgets :=
  ManageMenu.Widgets 999 true EmptyString EmptyString 0 false EmptyString
    0 0 false.

(** The Update button pressed on row 1 with the form left untouched. *)
Definition update_untouched : ManageMenu.widgets :=
  ManageMenu.Widgets 1 false EmptyString EmptyString 0 true EmptyString
    0 0 false.

(** The Add button pressed with a name, the first category, price 12. *)
Definition add_falafel : ManageMenu.widgets :=
  ManageMenu.Widgets 1 false EmptyString EmptyString 0 false " Falafel"
    0 12 true.

(** The Add button pressed with a name and the price left at 0. *)
Definition add_free : ManageMenu.widgets :=
  ManageMenu.Widgets 1 false EmptyString EmptyString 0 false "Falafel"
    0 0 true.

(** A stand-in for the regular-expression engine that knows words only:
    it rejects a pattern with a parenthesis and otherwise looks for the
    term as it is, whatever the letter case. *)
Definition words_only (pattern : string) : result (string -> bool) :=
  if contains "(" pattern || contains ")" pattern
  then Err (OtherError "missing ), unterminated subpattern")
  else Ok (fun s => contains (str_lower pattern) (str_lower s)).

(** Text ordered by length, then nothing else: enough of a collation to
    run [fetch_categories] on the sample store. *)
Definition by_length (a b : string) : bool :=
  (String.length a <=? String.length b)%nat.

End Sample2.

(* ================================================================== *)
(** * More vocabulary *)
(* ================================================================== *)

Module Props2.
Local Open Scope string_scope.
Local Open Scope list_scope.

(** The string is empty or begins with a character that is no blank. *)
Definition clean_start (s : string) : Prop :=
  match s with
  | EmptyString => True
  | String c _ => isspace c = false
  end.


(** [m.category] replaced in a fetched order row. *)
Definition with_category (c : string) (r : App.Raw.order) : App.Raw.order :=
  App.Raw.Order (App.Raw.order_id r) (App.Raw.item_id r) (App.Raw.item_name r)
    (App.Raw.item_price r) (App.Raw.quantity r) (App.Raw.total_price r)
    (App.Raw.time_at r) (App.Raw.phone_number r) (App.Raw.type_ r) c
    (App.Raw.id r).


(** The category column once cleaned. *)
Definition normal (c : string) : string := title (strip c).

(** ** Percentiles *)

(** Modelled on the documentation of [Series.quantile] (interpolation
    "linear"): with the [n] values in ascending order, the quantile [q]
    sits at the position [h = q (n - 1)]; for the values [lo] and [hi] at
    the positions [floor h] and [floor h + 1] ([hi] is [lo] when
    [floor h] is the last position) it is
    [lo + (hi - lo) * (h - floor h)], a point between the two. *)
Definition percentile_of (xs : list Q) (q p : Q) : Prop :=
  exists (a : list Q) (lo : Q),
    Permutation a xs /\ StronglySorted Qle a /\
    let h := q * inject_Z (Z.of_nat (List.length xs) - 1) in
    let k := Z.to_nat (Qfloor h) in
    nth_error a k = Some lo /\
    let hi := nth (k + 1) a lo in
    p == lo + (hi - lo) * (h - inject_Z (Qfloor h)) /\
    lo <= p /\ p <= hi.

(** ** Manage Menu page *)

(** The store after the Delete button of the page. *)
Definition after_delete (ui : ManageMenu.widgets) (w : NeonDb.world)
  : NeonDb.world :=
  if ManageMenu.delete_clicked ui
  then fst (NeonDb.delete_menu_item (ManageMenu.selected_id ui) w)
  else w.

(** The store after the Update button of the page. *)
Definition after_update (ui : ManageMenu.widgets) (w : NeonDb.world)
  : NeonDb.world :=
  if ManageMenu.update_submitted ui
  then fst (NeonDb.update_menu_item (ManageMenu.selected_id ui)
              (ManageMenu.new_name ui) (ManageMenu.new_category ui)
              (ManageMenu.new_price ui) w)
  else w.

(** What the page shows and logs for a delete that did not raise. *)
Definition delete_report (ui : ManageMenu.widgets) : list ManageMenu.event :=
  if ManageMenu.delete_clicked ui
  then [ManageMenu.st_success "Item deleted successfully.";
        ManageMenu.logger_info
          ("Deleted menu item with ID: "
           ++ ManageMenu.str (ManageMenu.selected_id ui))]
  else [].

(** What the page shows and logs for an update that did not raise. *)
Definition update_report (ui : ManageMenu.widgets) : list ManageMenu.event :=
  if ManageMenu.update_submitted ui
  then [ManageMenu.st_success "Item updated successfully.";
        ManageMenu.logger_info
          ("Updated menu item ID: "
           ++ ManageMenu.str (ManageMenu.selected_id ui))]
  else [].

End Props2.

Unset Implicit Arguments.

(* ================================================================== *)
(** * Properties of the menu helpers *)
(* ================================================================== *)

Module NeonDbSpec.
Import NeonDb Props Sample.
Local Open Scope string_scope.
Local Open Scope list_scope.

Lemma py_not_true (s : string) : py_not s = true <-> s = EmptyString.
Proof. destruct s; simpl; split; congruence. Qed.

Lemma strip_empty : strip EmptyString = EmptyString.
Proof. reflexivity. Qed.

(** The test [not s or not s.strip()] is the test "empty once stripped". *)
Lemma blank_test (s : string) :
  py_not s || py_not (strip s) = true <-> strip s = EmptyString.
Proof.
  rewrite orb_true_iff, !py_not_true. split.
  - intros [-> | H]; [reflexivity | exact H].
  - intros H. now right.
Qed.

Lemma Qlt_bool_iff (a b : Q) : Qlt_bool a b = true <-> a < b.
Proof.
  unfold Qlt_bool. rewrite negb_true_iff. split.
  - intros H. apply Qnot_le_lt. intros Hle.
    apply Qle_bool_iff in Hle. congruence.
  - intros H. destruct (Qle_bool b a) eqn:E; [|reflexivity].
    apply Qle_bool_iff in E. exfalso. exact (Qlt_not_le _ _ H E).
Qed.

Lemma insert_by_id_perm (r : menu_row) (rows : list menu_row) :
  Permutation (insert_by_id r rows) (r :: rows).
Proof.
  induction rows as [|r' rest IH]; simpl.
  - apply Permutation_refl.
  - destruct (id r <? id r')%Z.
    + apply Permutation_refl.
    + eapply perm_trans; [apply perm_skip, IH | apply perm_swap].
Qed.

Lemma order_by_id_perm (rows : list menu_row) :
  Permutation (order_by_id rows) rows.
Proof.
  induction rows as [|r rest IH]; simpl.
  - apply perm_nil.
  - eapply perm_trans; [apply insert_by_id_perm | apply perm_skip, IH].
Qed.

(** The three outcomes of the validation block. *)
Lemma add_menu_item_cases (name cat : string) (price : Q) (w : world) :
  (strip name = EmptyString /\
   add_menu_item name cat price w = (w, Err (ValueError msg_name_empty))) \/
  (strip name <> EmptyString /\ strip cat = EmptyString /\
   add_menu_item name cat price w = (w, Err (ValueError msg_category_empty))) \/
  (strip name <> EmptyString /\ strip cat <> EmptyString /\ price < 0 /\
   add_menu_item name cat price w = (w, Err (ValueError msg_price_negative))) \/
  (valid_input name cat price /\
   add_menu_item name cat price w =
     (get_connection ;;;
      _ <- insert_menu (strip name) (strip cat) price ;; ret tt) w).
Proof.
  unfold add_menu_item, valid_input.
  destruct (py_not name || py_not (strip name)) eqn:En.
  { left. apply blank_test in En. now split. }
  assert (Hn : strip name <> EmptyString).
  { intros H. apply blank_test in H. congruence. }
  destruct (py_not cat || py_not (strip cat)) eqn:Ec.
  { right; left. apply blank_test in Ec. now repeat split. }
  assert (Hc : strip cat <> EmptyString).
  { intros H. apply blank_test in H. congruence. }
  destruct (Qlt_bool price 0) eqn:Ep.
  { right; right; left. apply Qlt_bool_iff in Ep. now repeat split. }
  right; right; right. repeat split; auto.
  apply Qnot_lt_le. intros H. apply Qlt_bool_iff in H. congruence.
Qed.

Lemma get_connection_world (w w' : world) (r : result unit) :
  get_connection w = (w', r) -> w' = w.
Proof.
  unfold get_connection.
  destruct (database_url w) as [url|]; [destruct (py_not url); [|destruct (server_up w)]|];
    intros H; inversion H; reflexivity.
Qed.

Lemma get_connection_not_validation (w : world) :
  ~ is_validation_error (snd (get_connection w)).
Proof.
  unfold get_connection, is_validation_error.
  destruct (database_url w) as [url|];
    [destruct (py_not url); [|destruct (server_up w)]|]; simpl;
    intros [H | [H | H]]; discriminate H.
Qed.

(** C5. [add_menu_item name category price] raises one of the three
    validation errors exactly when the name or the category is empty once
    stripped or the price is negative; whenever it raises (validation or
    not) the store is left as it was; and on a valid input, with the store
    reachable, it returns normally, the table gains exactly one row that
    carries the next id, the stripped name, the stripped category and the
    price, and the listing that follows is the old listing plus that row. *)
Theorem add_menu_item_spec (name cat : string) (price : Q) (w : world) :
  (is_validation_error (snd (add_menu_item name cat price w)) <->
   (strip name = EmptyString \/ strip cat = EmptyString \/ price < 0)) /\
  (forall e, snd (add_menu_item name cat price w) = Err e ->
             fst (add_menu_item name cat price w) = w) /\
  (valid_input name cat price -> get_connection w = (w, Ok tt) ->
   let new_row := MenuRow (menu_id_seq w) (strip name) (strip cat) price in
   let w' := fst (add_menu_item name cat price w) in
   snd (add_menu_item name cat price w) = Ok tt /\
   menu w' = menu w ++ [new_row] /\
   exists old, fetch_menu w = (w, Ok old) /\
     exists new, fetch_menu w' = (w', Ok new) /\
       Permutation new (new_row :: old)).
Proof.
  destruct (add_menu_item_cases name cat price w)
    as [[Hn E] | [[Hn [Hc E]] | [[Hn [Hc [Hp E]]] | [[Hn [Hc Hp]] E]]]];
    rewrite E; clear E.
  - split; [|split].
    + simpl. split; [intros _; now left | intros _; now left].
    + reflexivity.
    + intros [H _]. contradiction.
  - split; [|split].
    + simpl. split; [intros _; right; now left | intros _; right; now left].
    + reflexivity.
    + intros [_ [H _]]. contradiction.
  - split; [|split].
    + simpl. split; [intros _; right; now right | intros _; right; now right].
    + reflexivity.
    + intros [_ [_ H]]. exfalso. exact (Qlt_not_le _ _ Hp H).
  - split; [|split].
    + split.
      * intros Hv. exfalso. revert Hv. unfold bind.
        destruct (get_connection w) as [w1 [[]|e]] eqn:Eg.
        -- simpl. intros [H | [H | H]]; discriminate H.
        -- simpl. pose proof (get_connection_not_validation w) as Hnv.
           rewrite Eg in Hnv. exact Hnv.
      * intros [H | [H | H]]; try contradiction.
        exfalso. exact (Qlt_not_le _ _ H Hp).
    + intros e. unfold bind.
      destruct (get_connection w) as [w1 [[]|e1]] eqn:Eg; simpl.
      * discriminate.
      * intros _. eapply get_connection_world; eassumption.
    + intros _ Hconn. unfold bind. rewrite Hconn. simpl.
      split; [reflexivity | split; [reflexivity|]].
      exists (order_by_id (menu w)). split.
      { unfold fetch_menu, bind. rewrite Hconn. reflexivity. }
      eexists. split.
      { unfold fetch_menu, bind.
        assert (Hc' : get_connection
                  (set_menu w (menu w ++ [MenuRow (menu_id_seq w) (strip name) (strip cat) price])
                     (menu_id_seq w + 1)) =
                (set_menu w (menu w ++ [MenuRow (menu_id_seq w) (strip name) (strip cat) price])
                     (menu_id_seq w + 1), Ok tt)).
        { revert Hconn. unfold get_connection, set_menu. simpl.
          destruct (database_url w) as [url|];
            [destruct (py_not url); [|destruct (server_up w)]|];
            intros H; inversion H; reflexivity. }
        rewrite Hc'. reflexivity. }
      simpl.
      eapply perm_trans; [apply order_by_id_perm|].
      eapply perm_trans; [apply Permutation_app_comm|]. simpl.
      apply perm_skip. apply Permutation_sym, order_by_id_perm.
Qed.

Lemma add_menu_item_spec_witness :
  snd (add_menu_item "  Falafel " "Wraps " 12 shop) = Ok tt /\
  menu (fst (add_menu_item "  Falafel " "Wraps " 12 shop)) =
    menu shop ++ [MenuRow 3 "Falafel" "Wraps" 12].
Proof.
  destruct (proj2 (proj2 (add_menu_item_spec "  Falafel " "Wraps " 12 shop)))
    as [H1 [H2 _]].
  - unfold valid_input. repeat split; try discriminate.
  - reflexivity.
  - split; [exact H1 | exact H2].
Defined.

(** ** update_menu_item *)

Lemma set_menu_same (w : world) : set_menu w (menu w) (menu_id_seq w) = w.
Proof. destruct w; reflexivity. Qed.

Lemma update_menu_item_run (item_id : Z) (name cat : string) (price : Q)
    (w : world) :
  get_connection w = (w, Ok tt) ->
  update_menu_item item_id name cat price w =
    (set_menu w (update_rows item_id name cat price (menu w)) (menu_id_seq w),
     Ok tt).
Proof. intros H. unfold update_menu_item, bind. rewrite H. reflexivity. Qed.

Lemma update_menu_item_result (item_id : Z) (name cat : string) (price : Q)
    (w : world) :
  snd (update_menu_item item_id name cat price w) = snd (get_connection w).
Proof.
  unfold update_menu_item, bind.
  destruct (get_connection w) as [w1 [[]|e]]; reflexivity.
Qed.

Lemma update_rows_rewritten (item_id : Z) (name cat : string) (price : Q)
    (rows : list menu_row) :
  Forall2 (rewritten item_id name cat price) rows
    (update_rows item_id name cat price rows).
Proof.
  induction rows as [|r rest IH]; simpl; constructor; [|exact IH].
  unfold rewritten. destruct (id r =? item_id)%Z eqn:E.
  - apply Z.eqb_eq in E. split; [intros _; now rewrite E | intros H; contradiction].
  - apply Z.eqb_neq in E. split; [intros H; contradiction | reflexivity].
Qed.

Lemma update_rows_absent (item_id : Z) (name cat : string) (price : Q)
    (rows : list menu_row) :
  (forall r, In r rows -> id r <> item_id) ->
  update_rows item_id name cat price rows = rows.
Proof.
  induction rows as [|r rest IH]; simpl; intros H; [reflexivity|].
  assert (E : (id r =? item_id)%Z = false)
    by (apply Z.eqb_neq, H; now left).
  rewrite E. f_equal. apply IH. intros r' Hr'. apply H. now right.
Qed.

(** C8, as the code has it.  With the store reachable, [update_menu_item]
    returns normally whether or not a row has the given id: when no row
    has it the store is left exactly as it was, and when some rows have it
    each of them gets the given name, category and price (its id stays)
    while every other row is untouched. *)
Theorem update_menu_item_spec (item_id : Z) (name cat : string) (price : Q)
    (w : world) :
  get_connection w = (w, Ok tt) ->
  let out := update_menu_item item_id name cat price w in
  snd out = Ok tt /\
  ((forall r, In r (menu w) -> id r <> item_id) -> fst out = w) /\
  Forall2 (rewritten item_id name cat price) (menu w) (menu (fst out)).
Proof.
  intros Hconn out. subst out. rewrite (update_menu_item_run _ _ _ _ _ Hconn).
  simpl. split; [reflexivity | split].
  - intros Habs. rewrite update_rows_absent by exact Habs.
    apply set_menu_same.
  - apply update_rows_rewritten.
Qed.

Lemma update_menu_item_spec_witness :
  snd (update_menu_item 2 "Cheese Fries" "Sides" 14 shop) = Ok tt /\
  Forall2 (rewritten 2 "Cheese Fries" "Sides" 14) (menu shop)
    (menu (fst (update_menu_item 2 "Cheese Fries" "Sides" 14 shop))).
Proof.
  destruct (update_menu_item_spec 2 "Cheese Fries" "Sides" 14 shop)
    as [H1 [_ H3]].
  - reflexivity.
  - split; [exact H1 | exact H3].
Defined.

(** C8, as the specification words it, fails: no row of [shop] has id 999,
    yet the update returns normally instead of raising. *)
Lemma update_missing_id_no_error :
  (forall r, In r (menu shop) -> id r <> 999%Z) /\
  update_menu_item 999 "Kebab" "Wraps" 25 shop = (shop, Ok tt) /\
  ~ (exists e, snd (update_menu_item 999 "Kebab" "Wraps" 25 shop) = Err e).
Proof.
  split; [|split].
  - intros r [<- | [<- | []]]; simpl; discriminate.
  - reflexivity.
  - intros [e H]. discriminate H.
Qed.

(** C10. [update_menu_item] tests nothing and strips nothing: its outcome
    is the outcome of opening the connection, so it never raises one of
    the validation errors of [add_menu_item], whatever the name, category
    and price; and with the store reachable the rows with the given id
    receive the three values exactly as passed. *)
Theorem update_menu_item_unvalidated (item_id : Z) (name cat : string)
    (price : Q) (w : world) :
  let out := update_menu_item item_id name cat price w in
  snd out = snd (get_connection w) /\
  ~ is_validation_error (snd out) /\
  (get_connection w = (w, Ok tt) ->
   snd out = Ok tt /\
   forall r, In r (menu w) -> id r = item_id ->
     In (MenuRow item_id name cat price) (menu (fst out))).
Proof.
  intros out. subst out. split; [apply update_menu_item_result | split].
  - rewrite update_menu_item_result. apply get_connection_not_validation.
  - intros Hconn. rewrite (update_menu_item_run _ _ _ _ _ Hconn). simpl.
    split; [reflexivity|]. intros r Hin Hid.
    unfold update_rows. apply in_map_iff. exists r. split; [|exact Hin].
    apply Z.eqb_eq in Hid. rewrite Hid. apply Z.eqb_eq in Hid.
    now rewrite Hid.
Qed.

(** A blank name, an empty category and a negative price: refused by
    [add_menu_item], written as they are by [update_menu_item]. *)
Lemma update_menu_item_unvalidated_witness :
  is_validation_error (snd (add_menu_item "  " EmptyString (-5) shop)) /\
  snd (update_menu_item 1 "  " EmptyString (-5) shop) = Ok tt /\
  In (MenuRow 1 "  " EmptyString (-5))
     (menu (fst (update_menu_item 1 "  " EmptyString (-5) shop))).
Proof.
  destruct (update_menu_item_unvalidated 1 "  " EmptyString (-5) shop)
    as [_ [_ H]].
  destruct H as [H1 H2]; [reflexivity|].
  split; [left; reflexivity | split; [exact H1|]].
  apply (H2 (MenuRow 1 "Shawarma" "Wraps" 20)); [left|]; reflexivity.
Defined.

End NeonDbSpec.

(* ================================================================== *)
(** * Properties of the dashboard filters *)
(* ================================================================== *)

Module FilterSpec.
Import App Props Sample.
Local Open Scope string_scope.
Local Open Scope list_scope.

Lemma str_in_iff (x : string) (xs : list string) :
  str_in x xs = true <-> In x xs.
Proof.
  unfold str_in. rewrite existsb_exists. split.
  - intros [y [Hy E]]. apply String.eqb_eq in E. now subst.
  - intros H. exists x. split; [exact H | apply String.eqb_refl].
Qed.

Lemma truthy_false {A} (xs : list A) : truthy xs = false <-> xs = [].
Proof. destruct xs; simpl; split; congruence. Qed.

(** A selection that misses an option is shorter than the option list. *)
Lemma strict_selection_shorter (selected options : list string) :
  selection_of selected options -> ~ incl options selected ->
  (List.length selected < List.length options)%nat.
Proof.
  intros [Hnd Hincl] Hstrict.
  pose proof (NoDup_incl_length Hnd Hincl) as Hle.
  destruct (Nat.eq_dec (List.length selected) (List.length options)) as [E|E];
    [|lia].
  exfalso. apply Hstrict.
  apply (NoDup_length_incl Hnd); [lia | exact Hincl].
Qed.

(** A selection that covers distinct options is at least as long. *)
Lemma full_selection_not_shorter (selected options : list string) :
  NoDup options -> incl options selected ->
  (List.length selected <? List.length options)%nat = false.
Proof.
  intros Hnd Hincl. apply Nat.ltb_ge. exact (NoDup_incl_length Hnd Hincl).
Qed.

Lemma filter_items_narrow (sel opts : list string) (df : list Raw.order) :
  filter_items sel opts df = narrow Raw.item_name sel opts df.
Proof. reflexivity. Qed.

Lemma filter_categories_narrow (sel opts : list string) (df : list Raw.order) :
  filter_categories sel opts df = narrow Raw.category sel opts df.
Proof. reflexivity. Qed.

Section Narrow.
Variable key : Raw.order -> string.
Variables selected options : list string.
Variable df : list Raw.order.

Lemma narrow_full :
  NoDup options -> incl options selected -> narrow key selected options df = df.
Proof.
  intros Hnd Hincl. unfold narrow.
  rewrite (full_selection_not_shorter _ _ Hnd Hincl), andb_false_r.
  reflexivity.
Qed.

Lemma narrow_empty : selected = [] -> narrow key selected options df = df.
Proof. intros ->. reflexivity. Qed.

Lemma narrow_strict :
  selection_of selected options -> selected <> [] -> ~ incl options selected ->
  incl (narrow key selected options df) df /\
  forall r, In r (narrow key selected options df) -> In (key r) selected.
Proof.
  intros Hsel Hne Hstrict. unfold narrow.
  assert (Ht : truthy selected = true).
  { destruct selected; [contradiction | reflexivity]. }
  assert (Hl : (List.length selected <? List.length options)%nat = true).
  { apply Nat.ltb_lt. now apply strict_selection_shorter. }
  rewrite Ht, Hl. simpl. split.
  - intros r Hr. apply filter_In in Hr. tauto.
  - intros r Hr. apply filter_In in Hr. apply str_in_iff. tauto.
Qed.

End Narrow.

(** C4, as the code has it.  For the item filter and for the category
    filter alike, with a selection made of distinct options: a selection
    that covers every option, and also an empty selection, leaves the rows
    as they are; a non-empty selection that misses an option keeps a subset
    of the rows, and the item name (resp. category) of every row kept is in
    the selection. *)
Theorem filters_narrow_only
    (item_filter item_options category_filter category_options : list string)
    (df : list Raw.order) :
  NoDup item_options -> NoDup category_options ->
  selection_of item_filter item_options ->
  selection_of category_filter category_options ->
  ((incl item_options item_filter \/ item_filter = []) ->
     filter_items item_filter item_options df = df) /\
  ((incl category_options category_filter \/ category_filter = []) ->
     filter_categories category_filter category_options df = df) /\
  (item_filter <> [] -> ~ incl item_options item_filter ->
     incl (filter_items item_filter item_options df) df /\
     forall r, In r (filter_items item_filter item_options df) ->
               In (Raw.item_name r) item_filter) /\
  (category_filter <> [] -> ~ incl category_options category_filter ->
     incl (filter_categories category_filter category_options df) df /\
     forall r, In r (filter_categories category_filter category_options df) ->
               In (Raw.category r) category_filter).
Proof.
  intros Hio Hco Hi Hc.
  rewrite !filter_items_narrow, !filter_categories_narrow.
  repeat split.
  - intros [H | H]; [now apply narrow_full | now apply narrow_empty].
  - intros [H | H]; [now apply narrow_full | now apply narrow_empty].
  - now apply narrow_strict.
  - now apply narrow_strict.
  - now apply narrow_strict.
  - now apply narrow_strict.
Qed.

Lemma filters_narrow_only_witness :
  filter_items ["Fries"; "Shawarma"] ["Shawarma"; "Fries"] two_sales
    = two_sales /\
  forall r, In r (filter_categories ["Sides"] ["Wraps"; "Sides"] two_sales) ->
            In (Raw.category r) ["Sides"].
Proof.
  destruct (filters_narrow_only ["Fries"; "Shawarma"] ["Shawarma"; "Fries"]
              ["Sides"] ["Wraps"; "Sides"] two_sales)
    as [H1 [_ [_ H4]]].
  - repeat constructor; simpl; intuition discriminate.
  - repeat constructor; simpl; intuition discriminate.
  - split; [repeat constructor; simpl; intuition discriminate|].
    intros x [<- | [<- | []]]; simpl; auto.
  - split; [repeat constructor; simpl; intuition discriminate|].
    intros x [<- | []]; simpl; auto.
  - split.
    + apply H1. left. intros x [<- | [<- | []]]; simpl; auto.
    + apply H4; [discriminate|].
      intros H. destruct (H "Wraps") as [E | []]; [simpl; auto | discriminate E].
Defined.

(** C4, as the specification words it, fails on the empty selection: it is
    a strict subset of the options, yet the guard [if category_filter and
    ...] skips the filter, and the row that survives has a category outside
    the selection. *)
Lemma empty_selection_keeps_rows :
  selection_of [] ["Wraps"; "Sides"] /\
  ~ incl ["Wraps"; "Sides"] [] /\
  filter_categories [] ["Wraps"; "Sides"] two_sales = two_sales /\
  exists r, In r (filter_categories [] ["Wraps"; "Sides"] two_sales) /\
            ~ In (Raw.category r) [].
Proof.
  split; [|split; [|split]].
  - split; [constructor | intros x []].
  - intros H. exact (H "Wraps" (or_introl eq_refl)).
  - reflexivity.
  - exists (sale 1 "Shawarma" 20 jan1 "Wraps"). split.
    + left. reflexivity.
    + intros [].
Qed.

End FilterSpec.

(* ================================================================== *)
(** * Properties of the outlier trim *)
(* ================================================================== *)

Module OutlierSpec.
Import App Props Sample.
Local Open Scope list_scope.

Lemma insert_sorted_length (x : Q) (xs : list Q) :
  List.length (insert_sorted x xs) = S (List.length xs).
Proof.
  induction xs as [|y ys IH]; simpl; [reflexivity|].
  destruct (Qle_bool x y); simpl; [reflexivity | now rewrite IH].
Qed.

Lemma sort_values_length (xs : list Q) :
  List.length (sort_values xs) = List.length xs.
Proof.
  induction xs as [|x xs IH]; simpl; [reflexivity|].
  unfold sort_values in *. simpl. now rewrite insert_sorted_length, IH.
Qed.

(** The quantile of a column is NaN only when the column is empty. *)
Lemma quantile_defined (xs : list Q) (q : Q) :
  xs <> [] -> exists v, quantile xs q = Some v.
Proof.
  intros Hne. unfold quantile.
  destruct (sort_values xs) as [|a0 a] eqn:E.
  - exfalso. apply Hne. apply length_zero_iff_nil.
    rewrite <- sort_values_length, E. reflexivity.
  - eexists. reflexivity.
Qed.

Lemma ge_bound_iff (x : Q) (b : option Q) :
  ge_bound x b = true <-> exists v, b = Some v /\ v <= x.
Proof.
  unfold ge_bound. destruct b as [v|].
  - rewrite Qle_bool_iff. split.
    + intros H. now exists v.
    + intros [v' [E H]]. inversion E. now subst.
  - split; [discriminate | intros [v [E _]]; discriminate E].
Qed.

Lemma le_bound_iff (x : Q) (b : option Q) :
  le_bound x b = true <-> exists v, b = Some v /\ x <= v.
Proof.
  unfold le_bound. destruct b as [v|].
  - rewrite Qle_bool_iff. split.
    + intros H. now exists v.
    + intros [v' [E H]]. inversion E. now subst.
  - split; [discriminate | intros [v [E _]]; discriminate E].
Qed.

(** The interpolation on five values: positions 0.04 and 3.96. *)
Example quantile_five :
  ge_bound (104 # 100) (quantile [3; 1; 5; 2; 4] (1 # 100)) = true /\
  le_bound (104 # 100) (quantile [3; 1; 5; 2; 4] (1 # 100)) = true /\
  ge_bound (496 # 100) (quantile [3; 1; 5; 2; 4] (99 # 100)) = true /\
  le_bound (496 # 100) (quantile [3; 1; 5; 2; 4] (99 # 100)) = true.
Proof. vm_compute. repeat split; reflexivity. Qed.

End OutlierSpec.

(* ================================================================== *)
(** * Properties of the per-category daily series *)
(* ================================================================== *)

Module SeriesSpec.
Import App Props Sample.
Local Open Scope list_scope.

Lemma group_add_dates (d : Z) (v : Q) (acc : list (Z * Q)) (x : Z) :
  In x (dates (group_add d v acc)) <-> x = d \/ In x (dates acc).
Proof.
  induction acc as [|[d' s] rest IH]; simpl.
  - intuition.
  - destruct (d <? d')%Z eqn:Elt; simpl; [intuition|].
    destruct (d =? d')%Z eqn:Eeq; simpl.
    + apply Z.eqb_eq in Eeq. subst. intuition.
    + unfold dates in IH. rewrite IH. intuition.
Qed.

Lemma group_add_sorted (d : Z) (v : Q) (acc : list (Z * Q)) :
  StronglySorted Z.lt (dates acc) ->
  StronglySorted Z.lt (dates (group_add d v acc)).
Proof.
  induction acc as [|[d' s] rest IH]; simpl; intros Hs.
  - repeat constructor.
  - apply StronglySorted_inv in Hs. destruct Hs as [Hrest Hall].
    destruct (d <? d')%Z eqn:Elt; simpl.
    + apply Z.ltb_lt in Elt. constructor.
      * constructor; assumption.
      * constructor; [exact Elt|].
        eapply Forall_impl; [|exact Hall]. intros a Ha. simpl in Ha. lia.
    + destruct (d =? d')%Z eqn:Eeq; simpl.
      * constructor; assumption.
      * apply Z.ltb_ge in Elt. apply Z.eqb_neq in Eeq.
        constructor; [now apply IH|].
        apply Forall_forall. intros x Hx.
        apply group_add_dates in Hx. destruct Hx as [-> | Hx]; [lia|].
        rewrite Forall_forall in Hall. now apply Hall.
Qed.

Lemma group_add_bucket (d : Z) (v : Q) (acc : list (Z * Q)) (x : Z) :
  bucket x (group_add d v acc) ==
  bucket x acc + (if (x =? d)%Z then v else 0).
Proof.
  induction acc as [|[d' s] rest IH]; simpl.
  - ring.
  - destruct (d <? d')%Z eqn:Elt; simpl; [ring|].
    destruct (d =? d')%Z eqn:Eeq; simpl.
    + apply Z.eqb_eq in Eeq. subst d'.
      destruct (x =? d)%Z; ring.
    + rewrite IH. ring.
Qed.

(** The invariant of the fold: the buckets stay in date order, hold the
    dates seen, and each holds what it held plus the rows added to it. *)
Lemma fold_group_add (df : list order) (acc : list (Z * Q)) :
  let out := fold_left (fun a r => group_add (date (time_at r)) (total_price r) a)
               df acc in
  (StronglySorted Z.lt (dates acc) -> StronglySorted Z.lt (dates out)) /\
  (forall x, In x (dates out) <->
             In x (dates acc) \/ exists r, In r df /\ date (time_at r) = x) /\
  (forall x, bucket x out ==
             bucket x acc
             + sum_total_price (filter (fun r => (date (time_at r) =? x)%Z) df)).
Proof.
  revert acc. induction df as [|r rest IH]; intros acc; simpl.
  - split; [auto | split].
    + intros x. split; [auto | intros [H | [r [[] _]]]; exact H].
    + intros x. ring.
  - destruct (IH (group_add (date (time_at r)) (total_price r) acc))
      as [Hs [Hd Hb]].
    split; [|split].
    + intros H. apply Hs. now apply group_add_sorted.
    + intros x. rewrite Hd, group_add_dates. split.
      * intros [[-> | H] | [r' [Hin E]]]; eauto.
      * intros [H | [r' [[<- | Hin] E]]]; eauto.
    + intros x. rewrite Hb, group_add_bucket.
      destruct (date (time_at r) =? x)%Z eqn:E.
      * apply Z.eqb_eq in E. rewrite <- E, Z.eqb_refl. simpl. ring.
      * rewrite Z.eqb_sym, E. simpl. ring.
Qed.

(** In a series with increasing dates the bucket of a date is its entry. *)
Lemma bucket_entry (series : list (Z * Q)) (d : Z) (y : Q) :
  StronglySorted Z.lt (dates series) -> In (d, y) series ->
  bucket d series == y.
Proof.
  induction series as [|[d' s] rest IH]; simpl; intros Hs Hin; [contradiction|].
  apply StronglySorted_inv in Hs. destruct Hs as [Hrest Hall].
  rewrite Forall_forall in Hall.
  assert (Hout : forall z, (forall x, In x (dates rest) -> z < x)%Z ->
                           bucket z rest == 0).
  { clear. induction rest as [|[d1 s1] rest IH]; simpl; intros z H; [ring|].
    assert (E : (z =? d1)%Z = false).
    { apply Z.eqb_neq. specialize (H d1 (or_introl eq_refl)). lia. }
    rewrite E, IH; [ring|]. intros x Hx. apply H. now right. }
  destruct Hin as [E | Hin].
  - inversion E; subst. rewrite Z.eqb_refl, Hout; [ring | exact Hall].
  - assert (Hlt : (d' < d)%Z).
    { apply Hall. apply (in_map fst) in Hin. exact Hin. }
    assert (E : (d =? d')%Z = false) by (apply Z.eqb_neq; lia).
    rewrite E, IH; [ring | exact Hrest | exact Hin].
Qed.

Lemma sorted_lt_NoDup (l : list Z) : StronglySorted Z.lt l -> NoDup l.
Proof.
  induction l as [|a l IH]; intros Hs; constructor;
    apply StronglySorted_inv in Hs; destruct Hs as [Hrest Hall].
  - intros Hin. rewrite Forall_forall in Hall. specialize (Hall a Hin). lia.
  - now apply IH.
Qed.

Lemma filter_filter {A} (f g : A -> bool) (l : list A) :
  filter g (filter f l) = filter (fun x => f x && g x) l.
Proof.
  induction l as [|a l IH]; simpl; [reflexivity|].
  destruct (f a); simpl; [destruct (g a); now rewrite IH | exact IH].
Qed.

(** The series of the three sample categories. *)
Example df_grouped_week :
  df_grouped (prepared week) "Wraps" = [(20089%Z, 20); (20090%Z, 20)] /\
  df_grouped (prepared week) "Drinks" = [(20089%Z, 20)] /\
  match df_grouped (prepared week) "Sides" with
  | [(d1, y1); (d2, y2)] =>
      d1 = 20089%Z /\ d2 = 20090%Z /\ y1 == 20 /\ y2 == 40
  | _ => False
  end.
Proof. vm_compute. repeat split; reflexivity. Qed.

End SeriesSpec.

(* ================================================================== *)
(** * Properties of the cleaning block *)
(* ================================================================== *)

Module CleanSpec.
Import App Props Sample.
Local Open Scope string_scope.
Local Open Scope list_scope.

Lemma order_eqb_same_row (a b : order) :
  order_eqb a b = true <-> same_row a b.
Proof.
  unfold order_eqb, same_row.
  rewrite !andb_true_iff, !Z.eqb_eq, !String.eqb_eq, !Qeq_bool_iff.
  tauto.
Qed.

Lemma same_row_refl (a : order) : same_row a a.
Proof. unfold same_row. repeat split; reflexivity. Qed.

Lemma same_row_trans (a b c : order) :
  same_row a b -> same_row b c -> same_row a c.
Proof.
  unfold same_row.
  intros [A1 [A2 [A3 [A4 [A5 [A6 [A7 [A8 [A9 [A10 A11]]]]]]]]]]
         [B1 [B2 [B3 [B4 [B5 [B6 [B7 [B8 [B9 [B10 B11]]]]]]]]]].
  repeat split; try congruence.
  - now rewrite A4.
  - now rewrite A5.
  - now rewrite A6.
Qed.

Lemma isna_false {A} (c : raw A) : negb (isna c) = true <-> c <> Missing.
Proof. destruct c; simpl; split; congruence. Qed.

Lemma dropna_time_total_In (df : list Raw.order) (r : Raw.order) :
  In r (dropna_time_total df) <-> In r df /\ reaches_to_datetime r.
Proof.
  unfold dropna_time_total, reaches_to_datetime.
  rewrite filter_In, andb_true_iff, !isna_false. tauto.
Qed.

(** [to_datetime] either returns the frame it was given, when no cell is
    rejected, or raises. *)
Lemma to_datetime_cases (df : list Raw.order) :
  (to_datetime df = Ok df /\ forall r, In r df -> ~ time_at_rejected r) \/
  ((exists e, to_datetime df = Err e) /\
   exists r, In r df /\ time_at_rejected r).
Proof.
  induction df as [|r rest IH]; simpl.
  - left. split; [reflexivity | intros r []].
  - destruct (Raw.time_at r) as [| t | s] eqn:E.
    + destruct IH as [[H1 H2] | [[e H1] [r' [H2 H3]]]].
      * left. rewrite H1. split; [reflexivity|].
        intros r' [<- | Hin]; [intros [s Hs]; congruence | now apply H2].
      * right. rewrite H1. split; [now exists e | exists r'; auto].
    + destruct IH as [[H1 H2] | [[e H1] [r' [H2 H3]]]].
      * left. rewrite H1. split; [reflexivity|].
        intros r' [<- | Hin]; [intros [s Hs]; congruence | now apply H2].
      * right. rewrite H1. split; [now exists e | exists r'; auto].
    + right. split; [eexists; reflexivity|].
      exists r. split; [now left | now exists s].
Qed.

Lemma typed_rows_In (df : list Raw.order) (o : order) :
  In o (typed_rows df) <-> exists r, In r df /\ typed r = Some o.
Proof.
  induction df as [|r rest IH]; simpl.
  - split; [intros [] | intros [r [[] _]]].
  - destruct (typed r) as [o'|] eqn:E; simpl; rewrite IH; split.
    + intros [<- | [r' [Hin Ht]]]; eauto.
    + intros [r' [[<- | Hin] Ht]]; [left; congruence | eauto].
    + intros [r' [Hin Ht]]; eauto.
    + intros [r' [[<- | Hin] Ht]]; [congruence | eauto].
Qed.

(** Coercion turns no rejected number into a value: a row is typed after
    the three [to_numeric] calls exactly when it was typed before. *)
Lemma typed_to_numeric_cols (r : Raw.order) :
  typed (to_numeric_cols r) = typed r.
Proof.
  unfold typed, to_numeric_cols. simpl.
  destruct (Raw.item_price r), (Raw.quantity r), (Raw.total_price r);
    reflexivity.
Qed.

Lemma typed_survives_dropna (r : Raw.order) (o : order) :
  typed r = Some o ->
  reaches_to_datetime r /\
  negb (isna (Raw.total_price (to_numeric_cols r)))
  && negb (isna (Raw.item_price (to_numeric_cols r)))
  && negb (isna (Raw.quantity (to_numeric_cols r))) = true.
Proof.
  unfold typed, reaches_to_datetime, to_numeric_cols. simpl.
  destruct (Raw.item_price r), (Raw.quantity r), (Raw.total_price r),
    (Raw.time_at r); try discriminate.
  intros _. repeat split; discriminate.
Qed.

Lemma drop_duplicates_incl (df : list order) (o : order) :
  In o (drop_duplicates df) -> In o df.
Proof.
  induction df as [|r rest IH]; simpl; [auto|].
  intros [<- | H]; [now left|]. apply filter_In in H. right. tauto.
Qed.

Lemma drop_duplicates_represents (df : list order) (o : order) :
  In o df -> exists o', In o' (drop_duplicates df) /\ same_row o' o.
Proof.
  induction df as [|r rest IH]; simpl; [intros []|].
  intros [<- | Hin].
  - exists r. split; [now left | apply same_row_refl].
  - destruct (IH Hin) as [o' [Hin' Hs]].
    destruct (order_eqb r o') eqn:E.
    + exists r. split; [now left|].
      apply order_eqb_same_row in E. eapply same_row_trans; eassumption.
    + exists o'. split; [|exact Hs]. right. apply filter_In.
      split; [exact Hin' | now rewrite E].
Qed.

Lemma coerce_frame_cases (df : list Raw.order) :
  (coerce_frame df = Ok (dropna_numeric (map to_numeric_cols (dropna_time_total df)))
   /\ forall r, In r df -> reaches_to_datetime r -> ~ time_at_rejected r) \/
  ((exists e, coerce_frame df = Err e) /\
   exists r, In r df /\ reaches_to_datetime r /\ time_at_rejected r).
Proof.
  unfold coerce_frame.
  destruct (to_datetime_cases (dropna_time_total df))
    as [[Hok Hnone] | [[e Herr] [r [Hin Hrej]]]].
  - left. rewrite Hok. split; [reflexivity|].
    intros r Hr Hreach. apply Hnone. now apply dropna_time_total_In.
  - right. rewrite Herr. split; [now exists e|].
    apply dropna_time_total_In in Hin. exists r. tauto.
Qed.

Lemma typed_converts (r : Raw.order) :
  converts r <-> exists o, typed r = Some o.
Proof.
  unfold converts, typed. split.
  - intros [p [q [t [ts [-> [-> [-> ->]]]]]]]. eexists. reflexivity.
  - destruct (Raw.item_price r) as [|p|], (Raw.quantity r) as [|q|],
      (Raw.total_price r) as [|t|], (Raw.time_at r) as [|ts|];
      intros [o H]; try discriminate H.
    now exists p, q, t, ts.
Qed.

(** The three [to_numeric] calls leave a row that converts as it is. *)
Lemma to_numeric_cols_converts (r : Raw.order) :
  converts r -> to_numeric_cols r = r.
Proof.
  intros [p [q [t [ts [Hp [Hq [Ht Hts]]]]]]].
  destruct r; simpl in *; subst. reflexivity.
Qed.

(** After coercion a number is a value or missing, never rejected text. *)
Lemma coerced_converts (r : Raw.order) :
  reaches_to_datetime r -> ~ time_at_rejected r ->
  negb (isna (Raw.total_price (to_numeric_cols r)))
  && negb (isna (Raw.item_price (to_numeric_cols r)))
  && negb (isna (Raw.quantity (to_numeric_cols r))) = true ->
  converts r.
Proof.
  intros [Htime _] Hrej. unfold converts, time_at_rejected in *.
  destruct r as [oid iid name price qty total ts phone ty cat mid].
  simpl in *.
  destruct price as [|p|], qty as [|q|], total as [|t|]; simpl;
    try discriminate.
  intros _. destruct ts as [|ts|s].
  - contradiction.
  - now exists p, q, t, ts.
  - exfalso. apply Hrej. now exists s.
Qed.

Lemma typed_rows_total (frame : list Raw.order) :
  (forall r, In r frame -> converts r) ->
  Forall2 (fun r o => typed r = Some o) frame (typed_rows frame).
Proof.
  induction frame as [|r rest IH]; simpl; intros H; [constructor|].
  destruct (proj1 (typed_converts r) (H r (or_introl eq_refl))) as [o Ho].
  rewrite Ho. constructor; [exact Ho|]. apply IH.
  intros r' Hr'. apply H. now right.
Qed.

(** C3, as the code has it.  When a row that has both a [time_at] and a
    [total_price] carries a [time_at] the timestamp parser rejects, the
    row is not dropped: [to_datetime] raises, no cleaned frame is
    produced, and the handler of the page reports the failure - the page
    shows the failure message and nothing else.  Otherwise the cleaning
    returns; the frame after line 321 is made of exactly the fetched
    rows whose [time_at], [total_price], [item_price] and [quantity] all
    convert, so a row with a missing or rejected number or a missing
    [time_at] is dropped; reading that frame as typed rows loses no row;
    and the cleaned frame is that frame without its duplicates. *)
Theorem clean_spec
    (prophet : list (Z * Q) -> Z -> result (list forecast_row))
    (forecast_days today : Z) (df : list Raw.order) :
  ((exists r, In r df /\ reaches_to_datetime r /\ time_at_rejected r) ->
   exists e, coerce_frame df = Err e /\ clean df = Err e /\
     sales_forecasting prophet forecast_days today df =
       (failure_report e, Ok tt)) /\
  ((forall r, In r df -> reaches_to_datetime r -> ~ time_at_rejected r) ->
   exists frame, coerce_frame df = Ok frame /\
     (forall r, In r frame <-> In r df /\ converts r) /\
     Forall2 (fun r o => typed r = Some o) frame (typed_rows frame) /\
     clean df = Ok (drop_duplicates (typed_rows frame))).
Proof.
  destruct (coerce_frame_cases df)
    as [[Hok Hnone] | [[e Herr] [r0 [Hin0 [Hreach0 Hrej0]]]]].
  - split.
    + intros [r [Hr [Hreach Hrej]]]. exfalso. exact (Hnone r Hr Hreach Hrej).
    + intros _. eexists. split; [exact Hok|].
      assert (Hrows : forall r,
        In r (dropna_numeric (map to_numeric_cols (dropna_time_total df)))
        <-> In r df /\ converts r).
      { intros r. unfold dropna_numeric. rewrite filter_In, in_map_iff. split.
        - intros [[r1 [E Hr1]] Hkeep]. subst r.
          apply dropna_time_total_In in Hr1. destruct Hr1 as [Hr1 Hreach].
          assert (Hc : converts r1)
            by (apply coerced_converts; auto).
          rewrite (to_numeric_cols_converts r1 Hc). now split.
        - intros [Hr Hc]. destruct (proj1 (typed_converts r) Hc) as [o Ho].
          destruct (typed_survives_dropna r o Ho) as [Hreach Hkeep].
          rewrite (to_numeric_cols_converts r Hc) in Hkeep.
          split; [|exact Hkeep]. exists r.
          split; [now apply to_numeric_cols_converts|].
          now apply dropna_time_total_In. }
      split; [exact Hrows | split].
      * apply typed_rows_total. intros r Hr. now apply Hrows.
      * unfold clean. now rewrite Hok.
  - split.
    + intros _. exists e. split; [exact Herr | split].
      * unfold clean. now rewrite Herr.
      * unfold sales_forecasting. destruct df as [|r df']; [destruct Hin0|].
        unfold forecasting_body, prepare, clean. rewrite Herr. reflexivity.
    + intros Hnone. exfalso. exact (Hnone r0 Hin0 Hreach0 Hrej0).
Qed.

Lemma clean_spec_witness :
  exists frame, coerce_frame (bad_quantity :: two_sales) = Ok frame /\
    ~ In bad_quantity frame /\
    clean (bad_quantity :: two_sales) = Ok (drop_duplicates (typed_rows frame)).
Proof.
  destruct (proj2 (clean_spec flat_prophet 7 run_time
                     (bad_quantity :: two_sales)))
    as [frame [H1 [H2 [_ H4]]]].
  - intros r [<- | [<- | [<- | []]]] _ [s H]; discriminate H.
  - exists frame. split; [exact H1 | split; [|exact H4]].
    intros Hin. apply H2 in Hin. destruct Hin as [_ [p [q [t [ts [_ [Hq _]]]]]]].
    discriminate Hq.
Defined.

(** C3, as the specification words it, fails on a [time_at] that does not
    parse: the row is not dropped, the cleaning raises, no cleaned frame
    exists, and the page shows the failure message and nothing else. *)
Lemma unparseable_time_at_fails_run :
  reaches_to_datetime bad_time /\ time_at_rejected bad_time /\
  clean (bad_time :: two_sales) =
    Err (OtherError "Unknown datetime string format: 31/31/2025") /\
  (forall out, clean (bad_time :: two_sales) <> Ok out) /\
  sales_forecasting flat_prophet 7 run_time (bad_time :: two_sales) =
    (failure_report
       (OtherError "Unknown datetime string format: 31/31/2025"), Ok tt).
Proof.
  split; [|split; [|split; [|split]]].
  - split; discriminate.
  - eexists. reflexivity.
  - reflexivity.
  - intros out H. discriminate H.
  - reflexivity.
Qed.

End CleanSpec.

(* ================================================================== *)
(** * Properties of the forecasting loop and of the page *)
(* ================================================================== *)

Module ForecastSpec.
Import App Props Sample.
Local Open Scope string_scope.
Local Open Scope list_scope.

Section Loop.
Variable prophet : list (Z * Q) -> Z -> result (list forecast_row).
Variable forecast_days : Z.
Variable df : list order.

Local Notation "'loop'" := (forecast_loop prophet forecast_days df).

(** One turn of the loop, by cases on the length test and on the outcome
    of the Prophet calls. *)
Lemma forecast_loop_cons (c : string) (rest : list string) :
  loop (c :: rest) =
  if (List.length (df_grouped df c) <? 2)%nat
  then (skipped c ++ fst (loop rest), snd (loop rest))
  else match prophet (df_grouped df c) forecast_days with
       | Err e => ([header c], Err e)
       | Ok fc => (charted c (df_grouped df c) fc ++ fst (loop rest),
                   snd (loop rest))
       end.
Proof.
  simpl. destruct (forecast_loop prophet forecast_days df rest) as [out r].
  destruct (List.length (df_grouped df c) <? 2)%nat.
  - reflexivity.
  - destruct (prophet (df_grouped df c) forecast_days) as [fc|e]; reflexivity.
Qed.

(** Categories that were all handled without a raise are followed by the
    rest of the loop. *)
Lemma forecast_loop_app (pre post : list string) (out : list event) :
  loop pre = (out, Ok tt) ->
  loop (pre ++ post) = (out ++ fst (loop post), snd (loop post)).
Proof.
  revert out. induction pre as [|c pre IH]; intros out.
  - simpl. intros E. inversion E. destruct (loop post); reflexivity.
  - rewrite <- app_comm_cons, !forecast_loop_cons.
    destruct (List.length (df_grouped df c) <? 2)%nat.
    + destruct (loop pre) as [out1 r1] eqn:E1. simpl.
      intros E. inversion E; subst. rewrite (IH out1 eq_refl). simpl.
      rewrite <- ?app_assoc. reflexivity.
    + destruct (prophet (df_grouped df c) forecast_days) as [fc|e].
      * destruct (loop pre) as [out1 r1] eqn:E1. simpl.
        intros E. inversion E; subst. rewrite (IH out1 eq_refl). simpl.
        rewrite <- ?app_assoc. reflexivity.
      * discriminate.
Qed.

(** A category with fewer than two dates is announced and passed over. *)
Lemma forecast_loop_skip (pre post : list string) (c : string)
    (out : list event) :
  loop pre = (out, Ok tt) ->
  (List.length (df_grouped df c) < 2)%nat ->
  loop (pre ++ c :: post) =
    (out ++ skipped c ++ fst (loop post), snd (loop post)).
Proof.
  intros Hpre Hshort. rewrite (forecast_loop_app pre (c :: post) out Hpre).
  rewrite forecast_loop_cons.
  apply Nat.ltb_lt in Hshort. rewrite Hshort. reflexivity.
Qed.

(** A raise in the Prophet calls ends the loop where it stands. *)
Lemma forecast_loop_raise (pre post : list string) (c : string)
    (out : list event) (e : exn) :
  loop pre = (out, Ok tt) ->
  (2 <= List.length (df_grouped df c))%nat ->
  prophet (df_grouped df c) forecast_days = Err e ->
  loop (pre ++ c :: post) = (out ++ [header c], Err e).
Proof.
  intros Hpre Hlong Hfail. rewrite (forecast_loop_app pre (c :: post) out Hpre).
  rewrite forecast_loop_cons.
  apply Nat.ltb_ge in Hlong. rewrite Hlong, Hfail. reflexivity.
Qed.

End Loop.

(** The loop calls the forecaster on series of two dates or more only:
    two forecasters that agree on those give the same run. *)
Lemma forecast_loop_ext
    (p1 p2 : list (Z * Q) -> Z -> result (list forecast_row))
    (forecast_days : Z) (df : list order) (categories : list string) :
  (forall series, (2 <= List.length series)%nat ->
                  p1 series forecast_days = p2 series forecast_days) ->
  forecast_loop p1 forecast_days df categories =
  forecast_loop p2 forecast_days df categories.
Proof.
  intros Hagree. induction categories as [|c rest IH].
  - reflexivity.
  - rewrite !forecast_loop_cons, IH.
    destruct (List.length (df_grouped df c) <? 2)%nat eqn:E; [reflexivity|].
    apply Nat.ltb_ge in E. now rewrite (Hagree _ E).
Qed.

(** The page never lets an exception out. *)
Lemma sales_forecasting_returns
    (prophet : list (Z * Q) -> Z -> result (list forecast_row))
    (forecast_days today : Z) (df_orders : list Raw.order) :
  snd (sales_forecasting prophet forecast_days today df_orders) = Ok tt.
Proof.
  unfold sales_forecasting. destruct df_orders as [|r rest]; [reflexivity|].
  unfold try_except.
  destruct (forecasting_body prophet forecast_days today (r :: rest))
    as [out [[]|e]]; reflexivity.
Qed.

Lemma forecasting_body_prepared
    (prophet : list (Z * Q) -> Z -> result (list forecast_row))
    (forecast_days today : Z) (df_orders : list Raw.order) (df : list order) :
  prepare today df_orders = Ok df ->
  forecasting_body prophet forecast_days today df_orders =
  forecast_loop prophet forecast_days df (unique (map category df)).
Proof.
  intros H. unfold forecasting_body. rewrite H. simpl.
  destruct (forecast_loop prophet forecast_days df (unique (map category df)));
    reflexivity.
Qed.

(** C7, as the code has it.  Whenever the loop reaches a category whose
    daily series has fewer than two dates - that is, when the Prophet
    calls raised on no category before it - the run shows the header of
    the category, the "not enough data" message naming it and the
    matching log line, no figure, and goes on with the categories after
    it.  And the forecaster is never called on a
    series of fewer than two points: replacing it by one that differs on
    such series only changes nothing of the page. *)
Theorem insufficient_data_skipped
    (prophet : list (Z * Q) -> Z -> result (list forecast_row))
    (forecast_days today : Z) :
  (forall (df : list order) (pre post : list string) (c : string)
          (out : list event),
     forecast_loop prophet forecast_days df pre = (out, Ok tt) ->
     (List.length (df_grouped df c) < 2)%nat ->
     forecast_loop prophet forecast_days df (pre ++ c :: post) =
       (out ++ skipped c
            ++ fst (forecast_loop prophet forecast_days df post),
        snd (forecast_loop prophet forecast_days df post))) /\
  (forall (other : list (Z * Q) -> Z -> result (list forecast_row))
          (df_orders : list Raw.order),
     (forall series, (2 <= List.length series)%nat ->
        other series forecast_days = prophet series forecast_days) ->
     sales_forecasting other forecast_days today df_orders =
     sales_forecasting prophet forecast_days today df_orders).
Proof.
  split.
  - intros df pre post c out. apply forecast_loop_skip.
  - intros other df_orders Hagree. unfold sales_forecasting.
    destruct df_orders as [|r rest]; [reflexivity|].
    f_equal. unfold forecasting_body.
    destruct (prepare today (r :: rest)) as [df|e]; [|reflexivity].
    simpl. now rewrite (forecast_loop_ext other prophet forecast_days df _ Hagree).
Qed.

(** C1, as the code has it.  When the Prophet calls raise on a category,
    the one handler of the page catches the exception: the output of the
    categories handled before it stays, the header of the failing
    category is the last thing the loop shows, the failure is reported
    once - a general message on the page that does not name the category,
    the exception text in the log - no category after it is processed,
    and the page ends normally. *)
Theorem forecast_failure_ends_loop
    (prophet : list (Z * Q) -> Z -> result (list forecast_row))
    (forecast_days today : Z) (df_orders : list Raw.order)
    (df : list order) (pre post : list string) (c : string)
    (out : list event) (e : exn) :
  df_orders <> [] ->
  prepare today df_orders = Ok df ->
  unique (map category df) = pre ++ c :: post ->
  forecast_loop prophet forecast_days df pre = (out, Ok tt) ->
  (2 <= List.length (df_grouped df c))%nat ->
  prophet (df_grouped df c) forecast_days = Err e ->
  sales_forecasting prophet forecast_days today df_orders =
    (out ++ [header c] ++ failure_report e, Ok tt).
Proof.
  intros Hne Hprep Hcats Hpre Hlong Hfail.
  unfold sales_forecasting. destruct df_orders as [|r rest]; [contradiction|].
  rewrite (forecasting_body_prepared _ _ _ _ _ Hprep), Hcats.
  rewrite (forecast_loop_raise _ _ _ pre post c out e Hpre Hlong Hfail).
  simpl. now rewrite <- app_assoc.
Qed.

Lemma insufficient_data_skipped_witness :
  forecast_loop flat_prophet 7 (prepared week_wraps_last)
    (["Sides"] ++ "Drinks" :: ["Wraps"]) =
  (fst (forecast_loop flat_prophet 7 (prepared week_wraps_last) ["Sides"])
     ++ skipped "Drinks"
     ++ fst (forecast_loop flat_prophet 7 (prepared week_wraps_last) ["Wraps"]),
   snd (forecast_loop flat_prophet 7 (prepared week_wraps_last) ["Wraps"])).
Proof.
  apply (proj1 (insufficient_data_skipped flat_prophet 7 run_time)).
  - vm_compute. reflexivity.
  - vm_compute. lia.
Defined.

Lemma forecast_failure_ends_loop_witness :
  sales_forecasting flat_prophet 7 run_time week_wraps_last =
  (fst (forecast_loop flat_prophet 7 (prepared week_wraps_last)
          ["Sides"; "Drinks"])
     ++ [header "Wraps"] ++ failure_report (OtherError msg_degenerate),
   Ok tt).
Proof.
  apply (forecast_failure_ends_loop flat_prophet 7 run_time week_wraps_last
           (prepared week_wraps_last) ["Sides"; "Drinks"] []).
  - discriminate.
  - vm_compute. reflexivity.
  - vm_compute. reflexivity.
  - vm_compute. reflexivity.
  - vm_compute. lia.
  - vm_compute. reflexivity.
Defined.

(** C1, as the specification words it, fails when Wraps comes first: the
    Prophet calls raise on Wraps, would return on Sides, and the page
    shows the Wraps header and the failure message only - no header, no
    figure and no message for Sides or Drinks. *)
Lemma fit_failure_hides_later_categories :
  unique (map category (prepared week)) = ["Wraps"; "Sides"; "Drinks"] /\
  flat_prophet (df_grouped (prepared week) "Wraps") 7 =
    Err (OtherError msg_degenerate) /\
  (exists fc, flat_prophet (df_grouped (prepared week) "Sides") 7 = Ok fc) /\
  sales_forecasting flat_prophet 7 run_time week =
    ([header "Wraps"] ++ failure_report (OtherError msg_degenerate), Ok tt) /\
  ~ In (header "Sides") (fst (sales_forecasting flat_prophet 7 run_time week)) /\
  ~ In (header "Drinks") (fst (sales_forecasting flat_prophet 7 run_time week)) /\
  forall fig,
    ~ In (st_plotly_chart fig)
         (fst (sales_forecasting flat_prophet 7 run_time week)).
Proof.
  assert (E : sales_forecasting flat_prophet 7 run_time week =
    ([header "Wraps"] ++ failure_report (OtherError msg_degenerate), Ok tt))
    by (vm_compute; reflexivity).
  split; [vm_compute; reflexivity|].
  split; [vm_compute; reflexivity|].
  split; [eexists; vm_compute; reflexivity|].
  split; [exact E|]. rewrite E. simpl.
  split; [|split].
  - intros [H | [H | [H | []]]]; discriminate H.
  - intros [H | [H | [H | []]]]; discriminate H.
  - intros fig [H | [H | [H | []]]]; discriminate H.
Qed.

(** C7, as the specification words it, fails when an earlier category
    raises: Drinks is a category of the frame with a single date, the
    Prophet calls raise on Wraps, which comes first, and the page shows
    no "not enough data" message - for Drinks or at all. *)
Lemma short_category_not_reported :
  In "Drinks" (unique (map category (prepared week))) /\
  (List.length (df_grouped (prepared week) "Drinks") < 2)%nat /\
  forall msg,
    ~ In (st_info msg)
         (fst (sales_forecasting flat_prophet 7 run_time week)).
Proof.
  split; [vm_compute; auto | split; [vm_compute; lia|]].
  assert (E : sales_forecasting flat_prophet 7 run_time week =
    ([header "Wraps"] ++ failure_report (OtherError msg_degenerate), Ok tt))
    by (vm_compute; reflexivity).
  rewrite E. simpl. intros msg [H | [H | [H | []]]]; discriminate H.
Qed.

End ForecastSpec.

(* ================================================================== *)
(** * Facts on the text and list functions *)
(* ================================================================== *)

Module TextFacts.
Import Props2.
Local Open Scope string_scope.
Local Open Scope list_scope.

Lemma lstrip_clean (s : string) : clean_start (lstrip s).
Proof.
  induction s as [|c s IH]; simpl; [exact I|].
  destruct (isspace c) eqn:E; [exact IH | exact E].
Qed.

Lemma lstrip_fixed (s : string) : clean_start s -> lstrip s = s.
Proof. destruct s as [|c s]; simpl; [reflexivity | now intros ->]. Qed.

Lemma rstrip_clean_start (s : string) :
  clean_start s -> clean_start (rstrip s).
Proof.
  destruct s as [|c s]; simpl; [auto|]. intros E.
  destruct (rstrip s); [rewrite E|]; exact E.
Qed.

Lemma rstrip_idem (s : string) : rstrip (rstrip s) = rstrip s.
Proof.
  induction s as [|c s IH]; simpl; [reflexivity|].
  destruct (rstrip s) as [|c' t] eqn:E.
  - destruct (isspace c) eqn:Ec; simpl; [reflexivity | now rewrite Ec].
  - change (rstrip (String c (String c' t))) with
      (match rstrip (String c' t) with
       | EmptyString => if isspace c then EmptyString else String c EmptyString
       | u => String c u
       end).
    now rewrite IH.
Qed.

(** Stripping a stripped string changes nothing. *)
Lemma strip_idem (s : string) : strip (strip s) = strip s.
Proof.
  unfold strip.
  rewrite (lstrip_fixed (rstrip (lstrip s))).
  - apply rstrip_idem.
  - apply rstrip_clean_start, lstrip_clean.
Qed.

Lemma blank_test_strip (s : string) :
  py_not s || py_not (strip s) = py_not (strip s).
Proof. destruct s; reflexivity. Qed.

Lemma unique_In (xs : list string) (x : string) :
  In x (unique xs) <-> In x xs.
Proof.
  induction xs as [|a xs IH]; simpl; [tauto|].
  rewrite filter_In, IH, negb_true_iff. split.
  - intros [H | [H _]]; auto.
  - intros [H | H]; [now left|].
    destruct (String.eqb a x) eqn:E.
    + apply String.eqb_eq in E. now left.
    + right. now split.
Qed.

Lemma NoDup_filter {A} (f : A -> bool) (l : list A) :
  NoDup l -> NoDup (filter f l).
Proof.
  induction 1 as [|a l Hnin Hnd IH]; simpl; [constructor|].
  destruct (f a); [constructor|]; auto.
  intros H. apply filter_In in H. tauto.
Qed.

Lemma unique_NoDup (xs : list string) : NoDup (unique xs).
Proof.
  induction xs as [|a xs IH]; simpl; constructor.
  - intros H. apply filter_In in H. destruct H as [_ H].
    now rewrite String.eqb_refl in H.
  - now apply NoDup_filter.
Qed.

(** ** Case and blanks, character by character *)

Ltac by_ascii c := destruct c as [[] [] [] [] [] [] [] []]; reflexivity.

Lemma isalpha_lower (c : ascii) : isalpha (lower c) = isalpha c.
Proof. by_ascii c. Qed.

Lemma isalpha_upper (c : ascii) : isalpha (upper c) = isalpha c.
Proof. by_ascii c. Qed.

Lemma lower_lower (c : ascii) : lower (lower c) = lower c.
Proof. by_ascii c. Qed.

Lemma upper_upper (c : ascii) : upper (upper c) = upper c.
Proof. by_ascii c. Qed.

Lemma upper_lower (c : ascii) : upper (lower c) = upper c.
Proof. by_ascii c. Qed.

Lemma isspace_lower (c : ascii) : isspace (lower c) = isspace c.
Proof. by_ascii c. Qed.

Lemma isspace_upper (c : ascii) : isspace (upper c) = isspace c.
Proof. by_ascii c. Qed.

Lemma isspace_not_alpha (c : ascii) : isspace c = true -> isalpha c = false.
Proof. destruct c as [[] [] [] [] [] [] [] []]; vm_compute; congruence. Qed.

Lemma lower_not_alpha (c : ascii) : isalpha c = false -> lower c = c.
Proof. destruct c as [[] [] [] [] [] [] [] []]; vm_compute; congruence. Qed.

(** The first character [title_from] writes is as blank as the one read. *)
Lemma isspace_titled (b : bool) (c : ascii) :
  isspace (if isalpha c then (if b then lower c else upper c) else c)
  = isspace c.
Proof.
  destruct (isalpha c); [|reflexivity].
  destruct b; [apply isspace_lower | apply isspace_upper].
Qed.

Lemma title_from_lower (b : bool) (s : string) :
  title_from b (str_lower s) = title_from b s.
Proof.
  revert b. induction s as [|c s IH]; intros b; simpl; [reflexivity|].
  rewrite isalpha_lower, lower_lower, upper_lower, !IH.
  destruct (isalpha c) eqn:E; [reflexivity|].
  now rewrite (lower_not_alpha c E).
Qed.

(** Strings equal up to letter case have the same title form. *)
Lemma title_case_blind (a b : string) :
  str_lower a = str_lower b -> title a = title b.
Proof.
  intros H. unfold title.
  rewrite <- (title_from_lower false a), <- (title_from_lower false b).
  now rewrite H.
Qed.

Lemma title_from_idem (b : bool) (s : string) :
  title_from b (title_from b s) = title_from b s.
Proof.
  revert b. induction s as [|c s IH]; intros b; simpl; [reflexivity|].
  destruct (isalpha c) eqn:E; simpl.
  - destruct b; rewrite ?isalpha_lower, ?isalpha_upper, E,
      ?lower_lower, ?upper_upper, IH; reflexivity.
  - now rewrite E, IH.
Qed.

Lemma title_from_empty (b : bool) (s : string) :
  title_from b s = EmptyString -> s = EmptyString.
Proof.
  destruct s as [|c s]; simpl; [reflexivity|].
  destruct (isalpha c); discriminate.
Qed.

Lemma lstrip_title (s : string) :
  lstrip (title_from false s) = title_from false (lstrip s).
Proof.
  induction s as [|c s IH]; simpl; [reflexivity|].
  destruct (isspace c) eqn:E.
  - rewrite (isspace_not_alpha c E). simpl. now rewrite E.
  - destruct (isalpha c) eqn:Ea; simpl.
    + now rewrite isspace_upper, E, Ea.
    + now rewrite E, Ea.
Qed.

Lemma rstrip_title (b : bool) (s : string) :
  rstrip (title_from b s) = title_from b (rstrip s).
Proof.
  revert b. induction s as [|c s IH]; intros b; [reflexivity|].
  change (title_from b (String c s)) with
    (if isalpha c
     then String (if b then lower c else upper c) (title_from true s)
     else String c (title_from false s)).
  change (rstrip (String c s)) with
    (match rstrip s with
     | EmptyString => if isspace c then EmptyString else String c EmptyString
     | t => String c t
     end).
  destruct (isalpha c) eqn:Ea.
  - change (rstrip (String (if b then lower c else upper c) (title_from true s)))
      with (match rstrip (title_from true s) with
            | EmptyString =>
                if isspace (if b then lower c else upper c)
                then EmptyString
                else String (if b then lower c else upper c) EmptyString
            | t => String (if b then lower c else upper c) t
            end).
    rewrite IH.
    assert (Es : isspace (if b then lower c else upper c) = isspace c)
      by (destruct b; [apply isspace_lower | apply isspace_upper]).
    rewrite Es.
    destruct (rstrip s) as [|c' t] eqn:Er.
    + simpl. destruct (isspace c); simpl; [reflexivity | now rewrite Ea].
    + destruct (title_from true (String c' t)) eqn:Et.
      * apply title_from_empty in Et. discriminate Et.
      * rewrite <- Et. simpl. now rewrite Ea.
  - change (rstrip (String c (title_from false s)))
      with (match rstrip (title_from false s) with
            | EmptyString =>
                if isspace c then EmptyString else String c EmptyString
            | t => String c t
            end).
    rewrite IH.
    destruct (rstrip s) as [|c' t] eqn:Er.
    + simpl. destruct (isspace c); simpl; [reflexivity | now rewrite Ea].
    + destruct (title_from false (String c' t)) eqn:Et.
      * apply title_from_empty in Et. discriminate Et.
      * rewrite <- Et. simpl. now rewrite Ea.
Qed.

(** Title-casing and stripping commute. *)
Lemma strip_title (s : string) : strip (title s) = title (strip s).
Proof.
  unfold strip, title. now rewrite lstrip_title, rstrip_title.
Qed.

End TextFacts.

(* ================================================================== *)
(** * Further properties of the menu helpers *)
(* ================================================================== *)

Module StoreFacts.
Import NeonDb Props Props2 Sample Sample2 OrderData.
Local Open Scope string_scope.
Local Open Scope list_scope.

(** Opening a connection reads the URL and the server, not the tables. *)
Lemma get_connection_set_menu (w : world) (rows : list menu_row) (seq : Z) :
  get_connection w = (w, Ok tt) ->
  get_connection (set_menu w rows seq) = (set_menu w rows seq, Ok tt).
Proof.
  unfold get_connection, set_menu. simpl.
  destruct (database_url w) as [url|];
    [destruct (py_not url); [|destruct (server_up w)]|];
    intros H; inversion H; reflexivity.
Qed.

Lemma get_connection_fails (w : world) (e : exn) :
  snd (get_connection w) = Err e -> get_connection w = (w, Err e).
Proof.
  intros H. destruct (get_connection w) as [w1 r] eqn:E. simpl in H. subst r.
  now rewrite (NeonDbSpec.get_connection_world w w1 (Err e) E).
Qed.

Lemma delete_menu_item_run (item_id : Z) (w : world) :
  get_connection w = (w, Ok tt) ->
  delete_menu_item item_id w =
    (set_menu w (filter (fun r => negb (id r =? item_id)%Z) (menu w))
       (menu_id_seq w), Ok tt).
Proof. intros H. unfold delete_menu_item, bind. rewrite H. reflexivity. Qed.

Lemma add_menu_item_run (name cat : string) (price : Q) (w : world) :
  valid_input name cat price -> get_connection w = (w, Ok tt) ->
  add_menu_item name cat price w =
    (set_menu w
       (menu w ++ [MenuRow (menu_id_seq w) (strip name) (strip cat) price])
       (menu_id_seq w + 1), Ok tt).
Proof.
  intros [Hn [Hc Hp]] Hconn.
  destruct (NeonDbSpec.add_menu_item_cases name cat price w)
    as [[H _] | [[_ [H _]] | [[_ [_ [H _]]] | [_ E]]]].
  - contradiction.
  - contradiction.
  - exfalso. exact (Qlt_not_le _ _ H Hp).
  - rewrite E. unfold bind. rewrite Hconn. reflexivity.
Qed.

Lemma filter_all {A} (f : A -> bool) (l : list A) :
  (forall x, In x l -> f x = true) -> filter f l = l.
Proof.
  induction l as [|a l IH]; simpl; intros H; [reflexivity|].
  rewrite (H a (or_introl eq_refl)). f_equal. apply IH.
  intros x Hx. apply H. now right.
Qed.

(** [delete_menu_item]: with the store reachable the call returns
    normally; afterwards the table holds exactly the rows that had another
    id, in their order, and when no row has the id the store is left as it
    was. *)
Theorem delete_menu_item_spec (item_id : Z) (w : world) :
  get_connection w = (w, Ok tt) ->
  let out := delete_menu_item item_id w in
  snd out = Ok tt /\
  (forall r, In r (menu (fst out)) <-> In r (menu w) /\ id r <> item_id) /\
  (forall r, In r (menu (fst out)) -> id r <> item_id) /\
  menu_id_seq (fst out) = menu_id_seq w /\
  ((forall r, In r (menu w) -> id r <> item_id) -> fst out = w).
Proof.
  intros Hconn out. subst out. rewrite (delete_menu_item_run _ _ Hconn).
  simpl.
  assert (Hin : forall r,
             In r (filter (fun r => negb (id r =? item_id)%Z) (menu w)) <->
             In r (menu w) /\ id r <> item_id).
  { intros r. rewrite filter_In, negb_true_iff, Z.eqb_neq. tauto. }
  split; [reflexivity | split; [exact Hin | split; [|split]]].
  - intros r Hr. apply Hin in Hr. tauto.
  - reflexivity.
  - intros Habs. rewrite filter_all.
    + apply NeonDbSpec.set_menu_same.
    + intros r Hr. apply negb_true_iff, Z.eqb_neq. now apply Habs.
Qed.

Lemma delete_menu_item_spec_witness :
  snd (delete_menu_item 999 shop) = Ok tt /\ fst (delete_menu_item 999 shop) = shop.
Proof.
  destruct (delete_menu_item_spec 999 shop) as [H1 [_ [_ [_ H5]]]].
  - reflexivity.
  - split; [exact H1|]. apply H5.
    intros r [<- | [<- | []]]; simpl; discriminate.
Defined.

Lemma insert_by_id_sorted (r : menu_row) (rows : list menu_row) :
  sorted_by_id rows -> sorted_by_id (insert_by_id r rows).
Proof.
  unfold sorted_by_id.
  induction rows as [|r' rest IH]; simpl; intros Hs.
  - repeat constructor.
  - apply StronglySorted_inv in Hs. destruct Hs as [Hrest Hall].
    destruct (id r <? id r')%Z eqn:E.
    + apply Z.ltb_lt in E. constructor; [constructor; assumption|].
      constructor; [lia|].
      eapply Forall_impl; [|exact Hall]. intros a Ha. simpl in Ha. lia.
    + apply Z.ltb_ge in E. constructor; [now apply IH|].
      apply Forall_forall. intros x Hx.
      apply (Permutation_in _ (NeonDbSpec.insert_by_id_perm r rest)) in Hx.
      destruct Hx as [<- | Hx]; [exact E|].
      rewrite Forall_forall in Hall. now apply Hall.
Qed.

Lemma order_by_id_sorted (rows : list menu_row) :
  sorted_by_id (order_by_id rows).
Proof.
  induction rows as [|r rest IH]; simpl.
  - constructor.
  - now apply insert_by_id_sorted.
Qed.

(** [fetch_menu]: with the store reachable the listing is the rows of the
    table, each once, in ascending id order, and the store is not
    changed. *)
Theorem fetch_menu_sorted (w : world) :
  get_connection w = (w, Ok tt) ->
  exists rows, fetch_menu w = (w, Ok rows) /\
    sorted_by_id rows /\ Permutation rows (menu w).
Proof.
  intros Hconn. exists (order_by_id (menu w)). split; [|split].
  - unfold fetch_menu, bind. rewrite Hconn. reflexivity.
  - apply order_by_id_sorted.
  - apply NeonDbSpec.order_by_id_perm.
Qed.

Lemma fetch_menu_sorted_witness :
  exists rows, fetch_menu shop = (shop, Ok rows) /\
    sorted_by_id rows /\ Permutation rows (menu shop).
Proof. apply (fetch_menu_sorted shop). reflexivity. Defined.

(** When the connection cannot be opened - no URL in the environment, or
    the server refusing - every helper raises the error of
    [get_connection] and leaves the store as it was; [add_menu_item] does
    so once its validation has passed.  A missing URL surfaces as the
    ValueError with the DATABASE_URL message. *)
Theorem no_connection_no_change (w : world) (e : exn) (item_id : Z)
    (name cat : string) (price : Q) (orders : list order_row) :
  snd (get_connection w) = Err e ->
  fetch_menu w = (w, Err e) /\
  fetch_order_data orders w = (w, Err e) /\
  update_menu_item item_id name cat price w = (w, Err e) /\
  delete_menu_item item_id w = (w, Err e) /\
  fst (add_menu_item name cat price w) = w /\
  (valid_input name cat price ->
     add_menu_item name cat price w = (w, Err e)) /\
  (database_url w = None -> e = ValueError msg_no_url).
Proof.
  intros Hfail. pose proof (get_connection_fails w e Hfail) as Hg.
  repeat split.
  - unfold fetch_menu, bind. now rewrite Hg.
  - unfold fetch_order_data, bind. now rewrite Hg.
  - unfold update_menu_item, bind. now rewrite Hg.
  - unfold delete_menu_item, bind. now rewrite Hg.
  - destruct (NeonDbSpec.add_menu_item_cases name cat price w)
      as [[_ H] | [[_ [_ H]] | [[_ [_ [_ H]]] | [_ H]]]];
      rewrite H; try reflexivity.
    unfold bind. now rewrite Hg.
  - intros Hv.
    destruct (NeonDbSpec.add_menu_item_cases name cat price w)
      as [[H _] | [[_ [H _]] | [[_ [_ [H _]]] | [_ H]]]].
    + destruct Hv as [Hn _]. contradiction.
    + destruct Hv as [_ [Hc _]]. contradiction.
    + destruct Hv as [_ [_ Hp]]. exfalso. exact (Qlt_not_le _ _ H Hp).
    + rewrite H. unfold bind. now rewrite Hg.
  - intros Hurl. unfold get_connection in Hfail. rewrite Hurl in Hfail.
    simpl in Hfail. congruence.
Qed.

Lemma no_connection_no_change_witness :
  update_menu_item 1 "Kebab" "Wraps" 25 shop_no_url
    = (shop_no_url, Err (ValueError msg_no_url)) /\
  delete_menu_item 1 shop_offline = (shop_offline, Err offline_error).
Proof.
  destruct (no_connection_no_change shop_no_url (ValueError msg_no_url) 1
              "Kebab" "Wraps" 25 []) as [_ [_ [H _]]]; [reflexivity|].
  destruct (no_connection_no_change shop_offline offline_error 1
              "Kebab" "Wraps" 25 []) as [_ [_ [_ [H' _]]]]; [reflexivity|].
  split; [exact H | exact H'].
Defined.

Lemma update_rows_ids (item_id : Z) (name cat : string) (price : Q)
    (rows : list menu_row) :
  map id (update_rows item_id name cat price rows) = map id rows.
Proof.
  unfold update_rows. rewrite map_map. apply map_ext.
  intros r. destruct (id r =? item_id)%Z; reflexivity.
Qed.

Lemma NoDup_snoc {A} (l : list A) (a : A) :
  NoDup l -> ~ In a l -> NoDup (l ++ [a]).
Proof.
  intros Hnd Hnin.
  apply (Permutation_NoDup (Permutation_cons_append l a)).
  now constructor.
Qed.

Lemma filter_ids_NoDup (f : menu_row -> bool) (rows : list menu_row) :
  NoDup (map id rows) -> NoDup (map id (filter f rows)).
Proof.
  induction rows as [|r rest IH]; simpl; intros H; [constructor|].
  inversion H as [|x l Hnin Hnd]; subst.
  destruct (f r); simpl; [constructor|]; auto.
  intros Hin. apply Hnin. apply in_map_iff in Hin.
  destruct Hin as [r' [E Hr']]. apply filter_In in Hr'.
  apply in_map_iff. exists r'. tauto.
Qed.

(** The key invariant of the table - distinct ids, all below the next
    value of the sequence - is kept by [add_menu_item], [update_menu_item]
    and [delete_menu_item], whatever their arguments and whether or not
    they raise. *)
Theorem well_keyed_preserved (w : world) (item_id : Z) (name cat : string)
    (price : Q) :
  well_keyed w ->
  well_keyed (fst (add_menu_item name cat price w)) /\
  well_keyed (fst (update_menu_item item_id name cat price w)) /\
  well_keyed (fst (delete_menu_item item_id w)).
Proof.
  intros [Hnd Hlt]. split; [|split].
  - destruct (NeonDbSpec.add_menu_item_cases name cat price w)
      as [[_ H] | [[_ [_ H]] | [[_ [_ [_ H]]] | [_ H]]]];
      rewrite H; try (split; assumption).
    unfold bind. destruct (get_connection w) as [w1 [[]|e]] eqn:Eg;
      pose proof (NeonDbSpec.get_connection_world w w1 _ Eg); subst w1;
      simpl; [|split; assumption].
    unfold well_keyed. simpl. split.
    + rewrite map_app. simpl. apply NoDup_snoc; [exact Hnd|].
      intros Hin. rewrite Forall_forall in Hlt. apply in_map_iff in Hin.
      destruct Hin as [r [E Hr]]. specialize (Hlt r Hr). lia.
    + apply Forall_app. split.
      * eapply Forall_impl; [|exact Hlt]. intros r Hr. simpl in Hr. lia.
      * constructor; [simpl; lia | constructor].
  - unfold update_menu_item, bind.
    destruct (get_connection w) as [w1 [[]|e]] eqn:Eg;
      pose proof (NeonDbSpec.get_connection_world w w1 _ Eg); subst w1;
      simpl; [|split; assumption].
    unfold well_keyed. simpl. rewrite update_rows_ids. split; [exact Hnd|].
    unfold update_rows. apply Forall_map.
    eapply Forall_impl; [|exact Hlt]. intros r Hr. simpl in Hr.
    destruct (id r =? item_id)%Z eqn:E; simpl; [|exact Hr].
    exact Hr.
  - unfold delete_menu_item, bind.
    destruct (get_connection w) as [w1 [[]|e]] eqn:Eg;
      pose proof (NeonDbSpec.get_connection_world w w1 _ Eg); subst w1;
      simpl; [|split; assumption].
    unfold well_keyed. simpl. split.
    + now apply filter_ids_NoDup.
    + rewrite Forall_forall in *. intros r Hr. apply filter_In in Hr.
      apply Hlt. tauto.
Qed.

Lemma shop_well_keyed : well_keyed shop.
Proof.
  split.
  - simpl. repeat constructor; simpl; intuition discriminate.
  - repeat constructor.
Qed.

Lemma well_keyed_preserved_witness :
  well_keyed (fst (add_menu_item "Falafel" "Wraps" 12 shop)) /\
  well_keyed (fst (delete_menu_item 1 shop)).
Proof.
  destruct (well_keyed_preserved shop 1 "Falafel" "Wraps" 12 shop_well_keyed)
    as [H1 [_ H3]].
  split; [exact H1 | exact H3].
Defined.

(** Adding an item and then deleting the id it was given restores the
    rows of the table; only the id sequence has moved on, so the id is
    not handed out again. *)
Theorem add_then_delete (name cat : string) (price : Q) (w : world) :
  well_keyed w -> valid_input name cat price ->
  get_connection w = (w, Ok tt) ->
  delete_menu_item (menu_id_seq w) (fst (add_menu_item name cat price w)) =
    (set_menu w (menu w) (menu_id_seq w + 1), Ok tt).
Proof.
  intros [_ Hlt] Hv Hconn. rewrite (add_menu_item_run _ _ _ _ Hv Hconn).
  simpl. rewrite delete_menu_item_run by now apply get_connection_set_menu.
  simpl. unfold set_menu. simpl. f_equal. f_equal.
  rewrite filter_app. simpl. rewrite Z.eqb_refl. simpl.
  rewrite app_nil_r. apply filter_all.
  intros r Hr. rewrite Forall_forall in Hlt. specialize (Hlt r Hr).
  apply negb_true_iff, Z.eqb_neq. lia.
Qed.

Lemma add_then_delete_witness :
  delete_menu_item 3 (fst (add_menu_item " Falafel" "Wraps" 12 shop)) =
    (set_menu shop (menu shop) 4, Ok tt).
Proof.
  apply (add_then_delete " Falafel" "Wraps" 12 shop shop_well_keyed).
  - unfold valid_input. repeat split; discriminate.
  - reflexivity.
Defined.

Lemma update_rows_twice (item_id : Z) (n1 c1 n2 c2 : string) (p1 p2 : Q)
    (rows : list menu_row) :
  update_rows item_id n2 c2 p2 (update_rows item_id n1 c1 p1 rows) =
  update_rows item_id n2 c2 p2 rows.
Proof.
  unfold update_rows. rewrite map_map. apply map_ext. intros r.
  destruct (id r =? item_id)%Z eqn:E; simpl; rewrite E; reflexivity.
Qed.

Lemma update_rows_comm (i1 i2 : Z) (n1 c1 n2 c2 : string) (p1 p2 : Q)
    (rows : list menu_row) :
  i1 <> i2 ->
  update_rows i2 n2 c2 p2 (update_rows i1 n1 c1 p1 rows) =
  update_rows i1 n1 c1 p1 (update_rows i2 n2 c2 p2 rows).
Proof.
  intros Hne. unfold update_rows. rewrite !map_map. apply map_ext. intros r.
  destruct (id r =? i1)%Z eqn:E1, (id r =? i2)%Z eqn:E2; simpl;
    rewrite ?E1, ?E2; try reflexivity.
  apply Z.eqb_eq in E1, E2. congruence.
Qed.

(** Updates compose as assignments do: a second update of the same id
    overwrites the first, updates of two different ids can be done in
    either order, and no update changes the id column. *)
Theorem update_menu_item_compose (i1 i2 : Z) (n1 c1 n2 c2 : string)
    (p1 p2 : Q) (w : world) :
  get_connection w = (w, Ok tt) ->
  update_menu_item i1 n2 c2 p2 (fst (update_menu_item i1 n1 c1 p1 w)) =
    update_menu_item i1 n2 c2 p2 w /\
  (i1 <> i2 ->
   update_menu_item i2 n2 c2 p2 (fst (update_menu_item i1 n1 c1 p1 w)) =
   update_menu_item i1 n1 c1 p1 (fst (update_menu_item i2 n2 c2 p2 w))) /\
  map id (menu (fst (update_menu_item i1 n1 c1 p1 w))) = map id (menu w).
Proof.
  intros Hconn.
  assert (Hrun : forall i n c p rows,
    update_menu_item i n c p (set_menu w rows (menu_id_seq w)) =
    (set_menu w (update_rows i n c p rows) (menu_id_seq w), Ok tt)).
  { intros i n c p rows.
    rewrite NeonDbSpec.update_menu_item_run
      by now apply get_connection_set_menu.
    reflexivity. }
  rewrite !(NeonDbSpec.update_menu_item_run _ _ _ _ _ Hconn). simpl.
  rewrite !Hrun. split; [|split].
  - now rewrite update_rows_twice.
  - intros Hne. now rewrite (update_rows_comm i1 i2) by exact Hne.
  - apply update_rows_ids.
Qed.

Lemma update_menu_item_compose_witness :
  update_menu_item 1 "Kebab" "Wraps" 25
    (fst (update_menu_item 1 "Doner" "Grill" 30 shop)) =
  update_menu_item 1 "Kebab" "Wraps" 25 shop.
Proof.
  apply (proj1 (update_menu_item_compose 1 2 "Doner" "Grill" "Kebab" "Wraps"
                  30 25 shop eq_refl)).
Defined.

(** [add_menu_item] does not see the blanks around the name and the
    category: called on the stripped strings it does the same, outcome
    and store alike. *)
Theorem add_menu_item_trims (name cat : string) (price : Q) (w : world) :
  add_menu_item name cat price w =
  add_menu_item (strip name) (strip cat) price w.
Proof.
  unfold add_menu_item.
  rewrite !TextFacts.blank_test_strip, !TextFacts.strip_idem.
  reflexivity.
Qed.



(** ** fetch_order_data *)

Lemma join_orders_In (orders : list order_row) (rows : list menu_row)
    (row : App.Raw.order) :
  In row (join_orders orders rows) <->
  exists o m, In o orders /\ In m rows /\ item_id o = id m /\
              row = join_row o m.
Proof.
  unfold join_orders. rewrite in_flat_map. split.
  - intros [o [Ho Hrow]]. apply in_map_iff in Hrow.
    destruct Hrow as [m [E Hm]]. apply filter_In in Hm.
    destruct Hm as [Hm Hid]. apply Z.eqb_eq in Hid.
    exists o, m. auto.
  - intros [o [m [Ho [Hm [Hid E]]]]]. exists o. split; [exact Ho|].
    apply in_map_iff. exists m. split; [now symmetry|].
    apply filter_In. split; [exact Hm | now apply Z.eqb_eq].
Qed.

Lemma matches_at_most_one (k : Z) (rows : list menu_row) :
  NoDup (map id rows) ->
  (List.length (filter (fun m => (k =? id m)%Z) rows) <= 1)%nat.
Proof.
  induction rows as [|m rest IH]; simpl; intros Hnd; [lia|].
  inversion Hnd as [|x l Hnin Hnd']; subst.
  destruct (k =? id m)%Z eqn:E; simpl; [|now apply IH].
  apply Z.eqb_eq in E.
  assert (Hnone : filter (fun m0 => (k =? id m0)%Z) rest = []).
  { destruct (filter (fun m0 => (k =? id m0)%Z) rest) as [|m' t] eqn:Ef;
      [reflexivity|]. exfalso.
    assert (Hin : In m' (filter (fun m0 => (k =? id m0)%Z) rest))
      by (rewrite Ef; now left).
    apply filter_In in Hin. destruct Hin as [Hin Hk].
    apply Z.eqb_eq in Hk. apply Hnin. rewrite <- E, Hk. now apply in_map. }
  rewrite Hnone. simpl. lia.
Qed.

(** [fetch_order_data]: with the store reachable the frame holds one row
    for each pair of an order and a menu row whose id is the order's
    item_id, carrying the nine columns of the order and the category and
    id of the menu row; an order whose item is not on the menu gives no
    row, and with distinct menu ids the frame has at most one row per
    order.  The store is not changed. *)
Theorem fetch_order_data_spec (orders : list order_row) (w : world) :
  get_connection w = (w, Ok tt) ->
  exists df, fetch_order_data orders w = (w, Ok df) /\
    (forall row, In row df <->
       exists o m, In o orders /\ In m (menu w) /\ item_id o = id m /\
                   row = join_row o m) /\
    (forall row, In row df ->
       exists m, In m (menu w) /\ id m = App.Raw.item_id row /\
                 category m = App.Raw.category row) /\
    (NoDup (map id (menu w)) ->
       (List.length df <= List.length orders)%nat).
Proof.
  intros Hconn. exists (join_orders orders (menu w)).
  split; [|split; [|split]].
  - unfold fetch_order_data, bind. rewrite Hconn. reflexivity.
  - apply join_orders_In.
  - intros row Hrow. apply join_orders_In in Hrow.
    destruct Hrow as [o [m [_ [Hm [Hid ->]]]]]. exists m. simpl. auto.
  - intros Hnd. unfold join_orders. clear Hconn.
    induction orders as [|o rest IH]; simpl; [lia|].
    rewrite length_app, length_map.
    pose proof (matches_at_most_one (item_id o) (menu w) Hnd). lia.
Qed.

Lemma fetch_order_data_spec_witness :
  exists df, fetch_order_data ledger shop = (shop, Ok df) /\
             (List.length df <= List.length ledger)%nat.
Proof.
  destruct (fetch_order_data_spec ledger shop eq_refl) as [df [H1 [_ [_ H4]]]].
  exists df. split; [exact H1|]. apply H4.
  exact (proj1 shop_well_keyed).
Defined.

Lemma filter_map_same {A B} (f : B -> bool) (g : A -> B) (b : bool)
    (l : list A) :
  (forall a, f (g a) = b) ->
  filter f (map g l) = if b then map g l else [].
Proof.
  intros H. induction l as [|a l IH]; simpl; [now destruct b|].
  rewrite H, IH. now destruct b.
Qed.

Lemma filter_other_and_same (k : Z) (rows : list menu_row) :
  filter (fun x => negb (id x =? k)%Z && (k =? id x)%Z) rows = [].
Proof.
  induction rows as [|m rows IH]; simpl; [reflexivity|].
  rewrite (Z.eqb_sym k (id m)).
  destruct (id m =? k)%Z; simpl; exact IH.
Qed.

Lemma join_orders_delete (item : Z) (orders : list order_row)
    (rows : list menu_row) :
  join_orders orders (filter (fun r => negb (id r =? item)%Z) rows) =
  filter (fun row => negb (App.Raw.item_id row =? item)%Z)
         (join_orders orders rows).
Proof.
  unfold join_orders. induction orders as [|o rest IH]; simpl; [reflexivity|].
  rewrite filter_app, IH. f_equal.
  rewrite (filter_map_same _ (join_row o) (negb (item_id o =? item)%Z))
    by reflexivity.
  rewrite SeriesSpec.filter_filter.
  destruct (item_id o =? item)%Z eqn:E; simpl.
  - apply Z.eqb_eq in E. subst item. now rewrite filter_other_and_same.
  - f_equal. apply filter_ext. intros m.
    destruct (item_id o =? id m)%Z eqn:Em; [|now rewrite andb_false_r].
    apply Z.eqb_eq in Em. rewrite <- Em, E. reflexivity.
Qed.

(** Deleting a menu item takes its orders out of the order frame: what
    [fetch_order_data] returns after [delete_menu_item] is what it
    returned before without the rows of that item, so no row of the item
    reaches the dashboard or the forecast. *)
Theorem delete_hides_orders (item : Z) (orders : list order_row)
    (w : world) :
  get_connection w = (w, Ok tt) ->
  exists df,
    fetch_order_data orders w = (w, Ok df) /\
    snd (fetch_order_data orders (fst (delete_menu_item item w))) =
      Ok (filter (fun row => negb (App.Raw.item_id row =? item)%Z) df) /\
    forall row,
      In row (filter (fun row => negb (App.Raw.item_id row =? item)%Z) df) ->
      App.Raw.item_id row <> item.
Proof.
  intros Hconn. exists (join_orders orders (menu w)). split; [|split].
  - unfold fetch_order_data, bind. rewrite Hconn. reflexivity.
  - rewrite (delete_menu_item_run _ _ Hconn). simpl.
    unfold fetch_order_data, bind.
    rewrite get_connection_set_menu by exact Hconn. simpl.
    now rewrite join_orders_delete.
  - intros row Hrow. apply filter_In in Hrow. destruct Hrow as [_ H].
    now apply negb_true_iff, Z.eqb_neq in H.
Qed.

Lemma delete_hides_orders_witness :
  exists df,
    fetch_order_data ledger shop = (shop, Ok df) /\
    snd (fetch_order_data ledger (fst (delete_menu_item 1 shop))) =
      Ok (filter (fun row => negb (App.Raw.item_id row =? 1)%Z) df).
Proof.
  destruct (delete_hides_orders 1 ledger shop eq_refl) as [df [H1 [H2 _]]].
  exists df. split; [exact H1 | exact H2].
Defined.

Lemma filter_update_rows (k item : Z) (name cat : string) (price : Q)
    (rows : list menu_row) :
  filter (fun m => (k =? id m)%Z) (update_rows item name cat price rows) =
  update_rows item name cat price (filter (fun m => (k =? id m)%Z) rows).
Proof.
  unfold update_rows. induction rows as [|m rows IH]; simpl; [reflexivity|].
  assert (E : id (if (id m =? item)%Z then MenuRow (id m) name cat price else m)
              = id m) by (destruct (id m =? item)%Z; reflexivity).
  rewrite E. destruct (k =? id m)%Z; simpl; now rewrite IH.
Qed.

Lemma join_rows_update (item : Z) (name cat : string) (price : Q)
    (o : order_row) (l : list menu_row) :
  (forall m, In m l -> item_id o = id m) ->
  map (join_row o) (update_rows item name cat price l) =
  map (fun row => if (App.Raw.item_id row =? item)%Z
                  then with_category cat row else row)
      (map (join_row o) l).
Proof.
  unfold update_rows. induction l as [|m l IH]; simpl; intros H;
    [reflexivity|].
  rewrite IH by (intros m' Hm'; apply H; now right). f_equal.
  rewrite (H m (or_introl eq_refl)).
  destruct (id m =? item)%Z; reflexivity.
Qed.

Lemma join_orders_update (item : Z) (name cat : string) (price : Q)
    (orders : list order_row) (rows : list menu_row) :
  join_orders orders (update_rows item name cat price rows) =
  map (fun row => if (App.Raw.item_id row =? item)%Z
                  then with_category cat row else row)
      (join_orders orders rows).
Proof.
  unfold join_orders. induction orders as [|o rest IH]; simpl; [reflexivity|].
  rewrite map_app, IH. f_equal. rewrite filter_update_rows.
  apply join_rows_update. intros m Hm. apply filter_In in Hm.
  now apply Z.eqb_eq.
Qed.

(** Updating a menu item moves its past orders to the new category and
    changes nothing else of the order frame: after [update_menu_item] the
    rows of that item carry the category given (as given, not stripped),
    while their name and prices stay those recorded with the order. *)
Theorem update_recategorises_orders (item : Z) (name cat : string)
    (price : Q) (orders : list order_row) (w : world) :
  get_connection w = (w, Ok tt) ->
  exists df,
    fetch_order_data orders w = (w, Ok df) /\
    snd (fetch_order_data orders
           (fst (update_menu_item item name cat price w))) =
      Ok (map (fun row => if (App.Raw.item_id row =? item)%Z
                          then with_category cat row else row) df).
Proof.
  intros Hconn. exists (join_orders orders (menu w)). split.
  - unfold fetch_order_data, bind. rewrite Hconn. reflexivity.
  - rewrite (NeonDbSpec.update_menu_item_run _ _ _ _ _ Hconn). simpl.
    unfold fetch_order_data, bind.
    rewrite get_connection_set_menu by exact Hconn. simpl.
    now rewrite join_orders_update.
Qed.

Lemma update_recategorises_orders_witness :
  exists df,
    fetch_order_data ledger shop = (shop, Ok df) /\
    snd (fetch_order_data ledger
           (fst (update_menu_item 1 "Doner" " grill" 30 shop))) =
      Ok (map (fun row => if (App.Raw.item_id row =? 1)%Z
                          then with_category " grill" row else row) df).
Proof. apply (update_recategorises_orders 1 "Doner" " grill" 30 ledger shop eq_refl). Defined.

(** ** fetch_categories *)

Lemma insert_category_perm (leb : string -> string -> bool) (c : string)
    (cs : list string) :
  Permutation (insert_category leb c cs) (c :: cs).
Proof.
  induction cs as [|c' rest IH]; simpl; [apply Permutation_refl|].
  destruct (leb c c'); [apply Permutation_refl|].
  eapply perm_trans; [apply perm_skip, IH | apply perm_swap].
Qed.

Lemma sort_categories_perm (leb : string -> string -> bool)
    (cs : list string) :
  Permutation (fold_right (insert_category leb) [] cs) cs.
Proof.
  induction cs as [|c rest IH]; simpl; [apply perm_nil|].
  eapply perm_trans; [apply insert_category_perm | apply perm_skip, IH].
Qed.

Lemma insert_category_sorted (leb : string -> string -> bool) (c : string)
    (cs : list string) :
  (forall a b, leb a b = false -> leb b a = true) ->
  (forall a b d, leb a b = true -> leb b d = true -> leb a d = true) ->
  StronglySorted (fun a b => leb a b = true) cs ->
  StronglySorted (fun a b => leb a b = true) (insert_category leb c cs).
Proof.
  intros Htotal Htrans. induction cs as [|c' rest IH]; simpl; intros Hs.
  - repeat constructor.
  - apply StronglySorted_inv in Hs. destruct Hs as [Hrest Hall].
    destruct (leb c c') eqn:E.
    + constructor; [constructor; assumption|].
      constructor; [exact E|].
      eapply Forall_impl; [|exact Hall]. intros a Ha. simpl in Ha.
      eapply Htrans; eassumption.
    + constructor; [now apply IH|].
      apply Forall_forall. intros x Hx.
      apply (Permutation_in _ (insert_category_perm leb c rest)) in Hx.
      destruct Hx as [<- | Hx]; [now apply Htotal|].
      rewrite Forall_forall in Hall. now apply Hall.
Qed.

Lemma distinct_categories_In (leb : string -> string -> bool)
    (rows : list menu_row) (c : string) :
  In c (distinct_categories leb rows) <->
  exists r, In r rows /\ category r = c.
Proof.
  unfold distinct_categories.
  pose proof (sort_categories_perm leb (unique (map category rows))) as Hperm.
  split.
  - intros H. apply (Permutation_in _ Hperm) in H.
    apply TextFacts.unique_In, in_map_iff in H.
    destruct H as [r [E Hr]]. now exists r.
  - intros [r [Hr E]]. apply (Permutation_in _ (Permutation_sym Hperm)).
    apply TextFacts.unique_In, in_map_iff. now exists r.
Qed.

(** [fetch_categories]: with the store reachable the list holds each
    category of the menu exactly once, whatever the collation; under a
    collation that is total and transitive it is in that order.  The
    store is not changed. *)
Theorem fetch_categories_spec (leb : string -> string -> bool) (w : world) :
  get_connection w = (w, Ok tt) ->
  exists cs, fetch_categories leb w = (w, Ok cs) /\
    NoDup cs /\
    (forall c, In c cs <-> exists r, In r (menu w) /\ category r = c) /\
    ((forall a b, leb a b = false -> leb b a = true) ->
     (forall a b d, leb a b = true -> leb b d = true -> leb a d = true) ->
     StronglySorted (fun a b => leb a b = true) cs).
Proof.
  intros Hconn. exists (distinct_categories leb (menu w)).
  split; [|split; [|split]].
  - unfold fetch_categories, bind. rewrite Hconn. reflexivity.
  - unfold distinct_categories.
    apply (Permutation_NoDup
             (Permutation_sym
                (sort_categories_perm leb (unique (map category (menu w)))))).
    apply TextFacts.unique_NoDup.
  - apply distinct_categories_In.
  - intros Htotal Htrans. unfold distinct_categories.
    induction (unique (map category (menu w))) as [|c cs IH]; simpl.
    + constructor.
    + apply insert_category_sorted; auto.
Qed.

Lemma fetch_categories_spec_witness :
  exists cs, fetch_categories by_length shop = (shop, Ok cs) /\ NoDup cs.
Proof.
  destruct (fetch_categories_spec by_length shop eq_refl) as [cs [H1 [H2 _]]].
  exists cs. split; [exact H1 | exact H2].
Defined.

End StoreFacts.

(* ================================================================== *)
(** * Further properties of the forecasting pipeline *)
(* ================================================================== *)

Module PipelineFacts.
Import App Props Props2 Sample Sample2.
Local Open Scope string_scope.
Local Open Scope list_scope.

(** ** drop_duplicates *)

Lemma ForallOrdPairs_filter {A} (R : A -> A -> Prop) (f : A -> bool)
    (l : list A) :
  ForallOrdPairs R l -> ForallOrdPairs R (filter f l).
Proof.
  induction 1 as [|a l Ha Hl IH]; simpl; [constructor|].
  destruct (f a); [|exact IH]. constructor; [|exact IH].
  rewrite Forall_forall in *. intros x Hx. apply filter_In in Hx.
  apply Ha. tauto.
Qed.

Lemma drop_duplicates_distinct (df : list order) :
  ForallOrdPairs (fun a b => ~ same_row a b) (drop_duplicates df).
Proof.
  induction df as [|r rest IH]; simpl; constructor.
  - apply Forall_forall. intros x Hx. apply filter_In in Hx.
    destruct Hx as [_ Hx]. apply negb_true_iff in Hx.
    intros Hs. apply CleanSpec.order_eqb_same_row in Hs. congruence.
  - now apply ForallOrdPairs_filter.
Qed.

Lemma drop_duplicates_fixed (df : list order) :
  ForallOrdPairs (fun a b => ~ same_row a b) df -> drop_duplicates df = df.
Proof.
  induction 1 as [|r l Hr Hl IH]; simpl; [reflexivity|].
  rewrite IH. f_equal. apply StoreFacts.filter_all.
  intros x Hx. rewrite Forall_forall in Hr. specialize (Hr x Hx).
  apply negb_true_iff. destruct (order_eqb r x) eqn:E; [|reflexivity].
  apply CleanSpec.order_eqb_same_row in E. contradiction.
Qed.

(** [drop_duplicates]: no two rows of the result are equal on every
    column; the result is made of rows of the frame; every row of the
    frame has its equal in the result; and dropping duplicates a second
    time changes nothing. *)
Theorem drop_duplicates_spec (df : list order) :
  ForallOrdPairs (fun a b => ~ same_row a b) (drop_duplicates df) /\
  (forall o, In o (drop_duplicates df) -> In o df) /\
  (forall o, In o df -> exists o', In o' (drop_duplicates df) /\ same_row o' o) /\
  drop_duplicates (drop_duplicates df) = drop_duplicates df.
Proof.
  split; [apply drop_duplicates_distinct | split; [|split]].
  - apply CleanSpec.drop_duplicates_incl.
  - apply CleanSpec.drop_duplicates_represents.
  - apply drop_duplicates_fixed, drop_duplicates_distinct.
Qed.

(** ** quantile and the outlier trim *)

Lemma insert_sorted_perm (x : Q) (xs : list Q) :
  Permutation (insert_sorted x xs) (x :: xs).
Proof.
  induction xs as [|y ys IH]; simpl; [apply Permutation_refl|].
  destruct (Qle_bool x y); [apply Permutation_refl|].
  eapply perm_trans; [apply perm_skip, IH | apply perm_swap].
Qed.

Lemma sort_values_perm (xs : list Q) : Permutation (sort_values xs) xs.
Proof.
  unfold sort_values. induction xs as [|x xs IH]; simpl; [apply perm_nil|].
  eapply perm_trans; [apply insert_sorted_perm | apply perm_skip, IH].
Qed.

Lemma insert_sorted_sorted (x : Q) (xs : list Q) :
  StronglySorted Qle xs -> StronglySorted Qle (insert_sorted x xs).
Proof.
  induction xs as [|y ys IH]; simpl; intros Hs.
  - repeat constructor.
  - apply StronglySorted_inv in Hs. destruct Hs as [Hrest Hall].
    destruct (Qle_bool x y) eqn:E.
    + apply Qle_bool_iff in E. constructor; [constructor; assumption|].
      constructor; [exact E|].
      eapply Forall_impl; [|exact Hall]. intros a Ha. simpl in Ha.
      eapply Qle_trans; eassumption.
    + assert (Hyx : y <= x).
      { apply Qlt_le_weak, Qnot_le_lt. intros H.
        apply Qle_bool_iff in H. congruence. }
      constructor; [now apply IH|].
      apply Forall_forall. intros a Ha.
      apply (Permutation_in _ (insert_sorted_perm x ys)) in Ha.
      destruct Ha as [<- | Ha]; [exact Hyx|].
      rewrite Forall_forall in Hall. now apply Hall.
Qed.

Lemma sort_values_sorted (xs : list Q) : StronglySorted Qle (sort_values xs).
Proof.
  unfold sort_values. induction xs as [|x xs IH]; simpl.
  - constructor.
  - now apply insert_sorted_sorted.
Qed.

Lemma nth_all {A} (P : A -> Prop) (l : list A) (n : nat) (d : A) :
  P d -> (forall x, In x l -> P x) -> P (nth n l d).
Proof.
  intros Hd Hl. destruct (nth_in_or_default n l d) as [H | ->]; auto.
Qed.

(** On a column whose values all equal [v] every quantile is [v]. *)
Lemma quantile_constant (xs : list Q) (q v : Q) :
  xs <> [] -> (forall x, In x xs -> x == v) ->
  exists p, quantile xs q = Some p /\ p == v.
Proof.
  intros Hne Hall. unfold quantile.
  assert (Hs : forall x, In x (sort_values xs) -> x == v).
  { intros x Hx. apply Hall. exact (Permutation_in _ (sort_values_perm xs) Hx). }
  destruct (sort_values xs) as [|a0 a] eqn:E.
  - exfalso. apply Hne. apply length_zero_iff_nil.
    rewrite <- OutlierSpec.sort_values_length, E. reflexivity.
  - eexists. split; [reflexivity|].
    set (pos := q * inject_Z (Z.of_nat (List.length (a0 :: a)) - 1)).
    assert (H0 : a0 == v) by (apply Hs; now left).
    assert (Hlo : nth (Z.to_nat (Qfloor pos)) (a0 :: a) a0 == v)
      by (apply (nth_all (fun x => x == v)); assumption).
    assert (Hhi : nth (Z.to_nat (Qfloor pos) + 1) (a0 :: a)
                    (nth (Z.to_nat (Qfloor pos)) (a0 :: a) a0) == v)
      by (apply (nth_all (fun x => x == v)); assumption).
    rewrite Hhi, Hlo. ring.
Qed.

(** A frame whose rows all have the same [total_price] - a single row in
    particular - goes through the outlier trim unchanged. *)
Theorem remove_outliers_constant (df : list order) (v : Q) :
  (forall r, In r df -> total_price r == v) -> remove_outliers df = df.
Proof.
  intros Hall. destruct df as [|r0 rest]; [reflexivity|].
  set (df := r0 :: rest) in *.
  assert (Hm : map total_price df <> []) by discriminate.
  assert (Hv : forall x, In x (map total_price df) -> x == v).
  { intros x Hx. apply in_map_iff in Hx. destruct Hx as [r [<- Hr]]. auto. }
  destruct (quantile_constant (map total_price df) (1 # 100) v Hm Hv)
    as [p1 [E1 H1]].
  destruct (quantile_constant (map total_price df) (99 # 100) v Hm Hv)
    as [p99 [E99 H99]].
  unfold remove_outliers. apply StoreFacts.filter_all. intros r Hr.
  unfold q_low, q_high. rewrite E1, E99. simpl.
  apply andb_true_iff. split; apply Qle_bool_iff.
  - rewrite H1, (Hall r Hr). apply Qle_refl.
  - rewrite H99, (Hall r Hr). apply Qle_refl.
Qed.

Lemma remove_outliers_constant_witness :
  remove_outliers (prepared week) = prepared week.
Proof.
  apply (remove_outliers_constant (prepared week) 20).
  intros r [<- | [<- | [<- | [<- | [<- | [<- | []]]]]]]; reflexivity.
Defined.

(** Up to a hundred values, the position of the 1st percentile lies
    strictly between the two smallest. *)
Lemma low_position (n : nat) :
  (2 <= n <= 100)%nat ->
  let pos := (1 # 100) * inject_Z (Z.of_nat n - 1) in
  Qfloor pos = 0%Z /\ 0 < pos - inject_Z (Qfloor pos).
Proof.
  intros Hn pos.
  assert (Hpos : 0 < pos).
  { unfold pos, Qlt, Qmult, inject_Z. cbn [Qnum Qden]. lia. }
  assert (Hlt : pos < 1).
  { unfold pos, Qlt, Qmult, inject_Z. cbn [Qnum Qden]. lia. }
  assert (Hfloor : Qfloor pos = 0%Z).
  { pose proof (Qfloor_le pos) as Hle. pose proof (Qlt_floor pos) as Hup.
    assert (H1 : (Qfloor pos < 1)%Z).
    { rewrite Zlt_Qlt. eapply Qle_lt_trans; [exact Hle | exact Hlt]. }
    assert (H2 : (0 < Qfloor pos + 1)%Z).
    { rewrite Zlt_Qlt. eapply Qlt_trans; [exact Hpos | exact Hup]. }
    lia. }
  split; [exact Hfloor|]. rewrite Hfloor.
  unfold Qminus. setoid_replace (pos + - inject_Z 0) with pos by ring.
  exact Hpos.
Qed.

(** In a frame of 2 to 100 rows the 1st percentile lies strictly above a
    price that is strictly the smallest. *)
Lemma q_low_above_minimum (l1 l2 : list order) (r : order) :
  (2 <= List.length (l1 ++ r :: l2) <= 100)%nat ->
  (forall r', In r' (l1 ++ l2) -> total_price r < total_price r') ->
  exists p1, q_low (l1 ++ r :: l2) = Some p1 /\ total_price r < p1.
Proof.
  intros Hlen Hmin. unfold q_low, quantile.
  set (xs := map total_price (l1 ++ r :: l2)).
  set (x := total_price r).
  assert (Hperm : Permutation (sort_values xs)
                    (x :: map total_price (l1 ++ l2))).
  { eapply perm_trans; [apply sort_values_perm|]. unfold xs.
    rewrite !map_app. simpl. apply Permutation_sym, Permutation_middle. }
  assert (Hothers : forall y, In y (map total_price (l1 ++ l2)) -> x < y).
  { intros y Hy. apply in_map_iff in Hy. destruct Hy as [r' [<- Hr']]. auto. }
  assert (Hn : List.length (sort_values xs) = List.length (l1 ++ r :: l2)).
  { rewrite OutlierSpec.sort_values_length. unfold xs. apply length_map. }
  pose proof (sort_values_sorted xs) as Hsorted.
  destruct (sort_values xs) as [|a0 [|a1 a]] eqn:E;
    [simpl in Hn; lia | simpl in Hn; lia |].
  apply StronglySorted_inv in Hsorted. destruct Hsorted as [_ Hall].
  rewrite Forall_forall in Hall.
  assert (Ha0 : a0 = x).
  { assert (Hin : In a0 (x :: map total_price (l1 ++ l2)))
      by (apply (Permutation_in _ Hperm); now left).
    destruct Hin as [H | H]; [now symmetry|]. exfalso.
    assert (Hx : In x (a0 :: a1 :: a))
      by (apply (Permutation_in _ (Permutation_sym Hperm)); now left).
    destruct Hx as [Hx | Hx].
    - specialize (Hothers a0 H). rewrite Hx in Hothers.
      exact (Qlt_irrefl _ Hothers).
    - specialize (Hall x Hx). specialize (Hothers a0 H).
      exact (Qlt_not_le _ _ Hothers Hall). }
  subst a0.
  assert (Ha1 : x < a1).
  { apply Hothers. apply Permutation_cons_inv in Hperm.
    apply (Permutation_in _ Hperm). now left. }
  eexists. split; [reflexivity|].
  rewrite Hn.
  destruct (low_position (List.length (l1 ++ r :: l2)) Hlen) as [Hfloor Hfrac].
  rewrite Hfloor in *. simpl nth.
  set (frac := (1 # 100) * inject_Z (Z.of_nat (List.length (l1 ++ r :: l2)) - 1)
               - inject_Z 0) in *.
  assert (Hgap : 0 < (a1 - x) * frac).
  { apply Qmult_lt_0_compat; [|exact Hfrac].
    unfold Qminus. rewrite <- (Qplus_opp_r x).
    apply Qplus_lt_l. exact Ha1. }
  setoid_replace x with (x + 0) at 1 by ring.
  apply Qplus_lt_r. exact Hgap.
Qed.

(** The outlier trim always removes a strict minimum: in a cleaned frame
    of 2 to 100 rows, a row whose [total_price] is strictly below that of
    every other row is not kept. *)
Theorem remove_outliers_drops_minimum (l1 l2 : list order) (r : order) :
  (2 <= List.length (l1 ++ r :: l2) <= 100)%nat ->
  (forall r', In r' (l1 ++ l2) -> total_price r < total_price r') ->
  ~ In r (remove_outliers (l1 ++ r :: l2)).
Proof.
  intros Hlen Hmin Hin.
  destruct (q_low_above_minimum l1 l2 r Hlen Hmin) as [p1 [E Hlt]].
  unfold remove_outliers in Hin. apply filter_In in Hin.
  destruct Hin as [_ Hb]. apply andb_true_iff in Hb. destruct Hb as [Hb _].
  rewrite E in Hb. simpl in Hb. apply Qle_bool_iff in Hb.
  exact (Qlt_not_le _ _ Hlt Hb).
Qed.

Lemma remove_outliers_drops_minimum_witness :
  ~ In (sold 2 "Fries" 10 jan2 "Sides")
       (remove_outliers ([sold 1 "Shawarma" 20 jan1 "Wraps"]
                           ++ sold 2 "Fries" 10 jan2 "Sides" :: [])).
Proof.
  apply (remove_outliers_drops_minimum [sold 1 "Shawarma" 20 jan1 "Wraps"] []
           (sold 2 "Fries" 10 jan2 "Sides")).
  - simpl. lia.
  - intros r' [<- | []]. reflexivity.
Defined.

(** The two percentiles of a column of two different values lie strictly
    between them. *)
Lemma pair_bounds (a b : Q) :
  a < b ->
  (exists lo hi, quantile [a; b] (1 # 100) = Some lo /\
                 quantile [a; b] (99 # 100) = Some hi /\ a < lo /\ hi < b) /\
  (exists lo hi, quantile [b; a] (1 # 100) = Some lo /\
                 quantile [b; a] (99 # 100) = Some hi /\ a < lo /\ hi < b).
Proof.
  intros Hlt.
  assert (Hab : Qle_bool a b = true) by (apply Qle_bool_iff; lra).
  assert (Hba : Qle_bool b a = false).
  { destruct (Qle_bool b a) eqn:E; [|reflexivity].
    apply Qle_bool_iff in E. lra. }
  assert (H1 : (1 # 100) * inject_Z (Z.of_nat 2 - 1) - inject_Z 0 == 1 # 100)
    by reflexivity.
  assert (H99 : (99 # 100) * inject_Z (Z.of_nat 2 - 1) - inject_Z 0 == 99 # 100)
    by reflexivity.
  split.
  - unfold quantile, sort_values. simpl fold_right. rewrite Hab.
    eexists. eexists. split; [reflexivity|]. split; [reflexivity|].
    simpl List.length.
    change (Qfloor ((1 # 100) * inject_Z (Z.of_nat 2 - 1))) with 0%Z.
    change (Qfloor ((99 # 100) * inject_Z (Z.of_nat 2 - 1))) with 0%Z.
    simpl nth. rewrite H1, H99. split; lra.
  - unfold quantile, sort_values. simpl fold_right. rewrite Hba.
    eexists. eexists. split; [reflexivity|]. split; [reflexivity|].
    simpl List.length.
    change (Qfloor ((1 # 100) * inject_Z (Z.of_nat 2 - 1))) with 0%Z.
    change (Qfloor ((99 # 100) * inject_Z (Z.of_nat 2 - 1))) with 0%Z.
    simpl nth. rewrite H1, H99. split; lra.
Qed.

Lemma remove_outliers_pair (r1 r2 : order) :
  ~ total_price r1 == total_price r2 -> remove_outliers [r1; r2] = [].
Proof.
  intros Hne. unfold remove_outliers, q_low, q_high. simpl map.
  destruct (Q_dec (total_price r1) (total_price r2)) as [[Hlt | Hgt] | Heq];
    [| |contradiction].
  - destruct (proj1 (pair_bounds _ _ Hlt)) as [lo [hi [E1 [E2 [Hlo Hhi]]]]].
    rewrite E1, E2. simpl.
    assert (A : Qle_bool lo (total_price r1) = false).
    { destruct (Qle_bool lo (total_price r1)) eqn:E; [|reflexivity].
      apply Qle_bool_iff in E. lra. }
    assert (B : Qle_bool (total_price r2) hi = false).
    { destruct (Qle_bool (total_price r2) hi) eqn:E; [|reflexivity].
      apply Qle_bool_iff in E. lra. }
    rewrite A, B, andb_false_r. reflexivity.
  - destruct (proj2 (pair_bounds _ _ Hgt)) as [lo [hi [E1 [E2 [Hlo Hhi]]]]].
    rewrite E1, E2. simpl.
    assert (A : Qle_bool (total_price r1) hi = false).
    { destruct (Qle_bool (total_price r1) hi) eqn:E; [|reflexivity].
      apply Qle_bool_iff in E. lra. }
    assert (B : Qle_bool lo (total_price r2) = false).
    { destruct (Qle_bool lo (total_price r2)) eqn:E; [|reflexivity].
      apply Qle_bool_iff in E. lra. }
    rewrite A, B, andb_false_r. reflexivity.
Qed.

(** When the cleaned frame is two orders with different totals, the
    outlier trim removes both, no category is left, and the forecasting
    page shows nothing at all: no figure, no message, no error. *)
Theorem two_orders_blank_page
    (prophet : list (Z * Q) -> Z -> result (list forecast_row))
    (forecast_days today : Z) (df_orders : list Raw.order) (o1 o2 : order) :
  clean df_orders = Ok [o1; o2] ->
  ~ total_price o1 == total_price o2 ->
  remove_outliers [o1; o2] = [] /\
  sales_forecasting prophet forecast_days today df_orders = ([], Ok tt).
Proof.
  intros Hclean Hne. pose proof (remove_outliers_pair o1 o2 Hne) as Hrm.
  split; [exact Hrm|].
  unfold sales_forecasting. destruct df_orders as [|r rest];
    [discriminate Hclean|].
  unfold forecasting_body, prepare. rewrite Hclean, Hrm. reflexivity.
Qed.

Lemma two_orders_blank_page_witness :
  sales_forecasting flat_prophet 7 run_time two_sales = ([], Ok tt).
Proof.
  refine (proj2 (two_orders_blank_page flat_prophet 7 run_time two_sales
                   (sold 1 "Shawarma" 20 jan1 "Wraps")
                   (sold 2 "Fries" 10 jan2 "Sides") _ _)).
  - reflexivity.
  - intros H. discriminate H.
Defined.

(** ** The category column and the list the loop runs over *)

Lemma normal_idem (c : string) : normal (normal c) = normal c.
Proof.
  unfold normal.
  rewrite TextFacts.strip_title, TextFacts.strip_idem.
  unfold title. apply TextFacts.title_from_idem.
Qed.

(** [clean_category] merges the spellings of a category that differ in
    letter case or in the blanks around them: two rows whose categories
    are equal once stripped and lower-cased get the same category.  The
    cleaned column is in normal form, so cleaning it again changes
    nothing. *)
Theorem clean_category_merges (df : list order) :
  (forall r1 r2, In r1 df -> In r2 df ->
     str_lower (strip (category r1)) = str_lower (strip (category r2)) ->
     exists c, In (set_category r1 c) (clean_category df) /\
               In (set_category r2 c) (clean_category df)) /\
  (forall r, In r (clean_category df) -> normal (category r) = category r) /\
  clean_category (clean_category df) = clean_category df.
Proof.
  split; [|split].
  - intros r1 r2 H1 H2 Hsame. exists (normal (category r1)). split.
    + unfold clean_category. apply in_map_iff. now exists r1.
    + unfold clean_category. apply in_map_iff. exists r2. split; [|exact H2].
      unfold normal. now rewrite (TextFacts.title_case_blind _ _ Hsame).
  - intros r Hr. unfold clean_category in Hr. apply in_map_iff in Hr.
    destruct Hr as [r0 [<- _]]. simpl. apply normal_idem.
  - unfold clean_category. rewrite map_map. apply map_ext. intros r.
    unfold set_category. simpl. f_equal. apply normal_idem.
Qed.

Lemma filter_split {A} (f : A -> bool) (l : list A) :
  Permutation l (filter f l ++ filter (fun x => negb (f x)) l).
Proof.
  induction l as [|a l IH]; simpl; [apply perm_nil|].
  destruct (f a); simpl.
  - now apply perm_skip.
  - eapply perm_trans; [apply perm_skip, IH|]. apply Permutation_middle.
Qed.

Lemma flat_map_ext_in {A B} (f g : A -> list B) (l : list A) :
  (forall a, In a l -> f a = g a) -> flat_map f l = flat_map g l.
Proof.
  induction l as [|a l IH]; simpl; intros H; [reflexivity|].
  rewrite (H a (or_introl eq_refl)), IH; [reflexivity|].
  intros x Hx. apply H. now right.
Qed.

Lemma categories_cover (cs : list string) (df : list order) :
  NoDup cs -> (forall r, In r df -> In (category r) cs) ->
  Permutation df (flat_map (df_category df) cs).
Proof.
  intros Hnd. revert df. induction Hnd as [|c cs Hnin Hnd IH]; intros df Hin.
  - destruct df as [|r df]; [apply perm_nil|].
    destruct (Hin r (or_introl eq_refl)).
  - simpl.
    set (others := filter (fun r => negb (String.eqb (category r) c)) df).
    eapply perm_trans; [apply (filter_split (fun r => String.eqb (category r) c))|].
    apply Permutation_app_head. fold others.
    assert (Hsame : flat_map (df_category df) cs
                    = flat_map (df_category others) cs).
    { apply flat_map_ext_in. intros c' Hc'. unfold df_category, others.
      rewrite SeriesSpec.filter_filter. apply filter_ext. intros r.
      destruct (String.eqb (category r) c') eqn:E; [|now rewrite andb_false_r].
      apply String.eqb_eq in E. rewrite E.
      destruct (String.eqb c' c) eqn:Ec; [|reflexivity].
      apply String.eqb_eq in Ec. exfalso. apply Hnin.
      rewrite <- Ec. exact Hc'. }
    rewrite Hsame. apply IH. intros r Hr. unfold others in Hr.
    apply filter_In in Hr. destruct Hr as [Hr Hc].
    destruct (Hin r Hr) as [E | H]; [|exact H].
    rewrite E, String.eqb_refl in Hc. discriminate Hc.
Qed.

(** The loop runs over each category of the frame exactly once, and the
    per-category frames it builds split the frame: every row is in the
    frame of its own category and in no other, and no listed category has
    an empty frame. *)
Theorem categories_partition (df : list order) :
  let categories := unique (map category df) in
  NoDup categories /\
  (forall c, In c categories <-> exists r, In r df /\ category r = c) /\
  Permutation df (flat_map (df_category df) categories) /\
  (forall c, In c categories -> df_category df c <> []).
Proof.
  intros categories. subst categories.
  assert (Hmem : forall c, In c (unique (map category df)) <->
                           exists r, In r df /\ category r = c).
  { intros c. rewrite TextFacts.unique_In, in_map_iff. split.
    - intros [r [E Hr]]. now exists r.
    - intros [r [Hr E]]. now exists r. }
  split; [apply TextFacts.unique_NoDup | split; [exact Hmem | split]].
  - apply categories_cover; [apply TextFacts.unique_NoDup|].
    intros r Hr. apply Hmem. now exists r.
  - intros c Hc. apply Hmem in Hc. destruct Hc as [r [Hr E]].
    intros Hnil.
    assert (Hin : In r (df_category df c)).
    { unfold df_category. apply filter_In.
      split; [exact Hr | now apply String.eqb_eq]. }
    rewrite Hnil in Hin. exact Hin.
Qed.

(** ** The loop when no Prophet call raises *)



End PipelineFacts.

(* ================================================================== *)
(** * Further properties of the daily series and of the figure *)
(* ================================================================== *)

Module SeriesFacts.
Import App Props Props2 Sample Sample2.
Local Open Scope string_scope.
Local Open Scope list_scope.

(** The "not enough data" branch is taken exactly when the rows of the
    category all fall on one day (or the category has no row): the
    number of orders does not matter, only the number of days. *)
Theorem insufficient_iff_single_day (df : list order) (c : string) :
  (List.length (df_grouped df c) < 2)%nat <->
  (forall r1 r2, In r1 (df_category df c) -> In r2 (df_category df c) ->
                 date (time_at r1) = date (time_at r2)).
Proof.
  unfold df_grouped, groupby_date_sum.
  destruct (SeriesSpec.fold_group_add (df_category df c) []) as [Hs [Hd _]].
  simpl in Hs, Hd.
  pose proof (SeriesSpec.sorted_lt_NoDup _ (Hs (SSorted_nil Z.lt))) as Hnd.
  set (series := fold_left
         (fun a r => group_add (date (time_at r)) (total_price r) a)
         (df_category df c) []) in *.
  assert (Hlen : List.length series = List.length (dates series))
    by (unfold dates; now rewrite length_map).
  rewrite Hlen. split.
  - intros Hshort r1 r2 H1 H2.
    assert (I1 : In (date (time_at r1)) (dates series))
      by (apply Hd; right; now exists r1).
    assert (I2 : In (date (time_at r2)) (dates series))
      by (apply Hd; right; now exists r2).
    destruct (dates series) as [|x [|y l]]; simpl in *; [contradiction | | lia].
    destruct I1 as [<- | []]. destruct I2 as [<- | []]. reflexivity.
  - intros Hsame. destruct (dates series) as [|x [|y l]];
      simpl; [lia | lia |]. exfalso.
    assert (Ix : In x (x :: y :: l)) by now left.
    assert (Iy : In y (x :: y :: l)) by (right; now left).
    apply Hd in Ix. apply Hd in Iy.
    destruct Ix as [[] | [r1 [H1 E1]]]. destruct Iy as [[] | [r2 [H2 E2]]].
    pose proof (Hsame r1 r2 H1 H2) as Heq.
    inversion Hnd as [|a l' Hnin _]; subst.
    apply Hnin. left. congruence.
Qed.

Lemma combine_map {A B C} (f : A -> B) (g : A -> C) (l : list A) :
  combine (map f l) (map g l) = map (fun x => (f x, g x)) l.
Proof. induction l as [|a l IH]; simpl; [reflexivity | now rewrite IH]. Qed.

Lemma combine_app_same {A B} (l1 l2 : list A) (m1 m2 : list B) :
  List.length l1 = List.length m1 ->
  combine (l1 ++ l2) (m1 ++ m2) = combine l1 m1 ++ combine l2 m2.
Proof.
  revert m1. induction l1 as [|a l1 IH]; intros [|b m1] H; simpl in *;
    try discriminate; [reflexivity|].
  now rewrite IH by lia.
Qed.

(** The figure of a category draws every row of the forecast, none cut
    off: the forecast line has one point per row, and the shaded band is
    the upper bounds from the first date to the last followed by the
    lower bounds from the last date back to the first; the "actual" line
    is the daily series itself. *)
Theorem make_figure_traces (c : string) (series : list (Z * Q))
    (forecast : list forecast_row) :
  actual_sales (make_figure c series forecast) = series /\
  forecasted_sales (make_figure c series forecast) =
    map (fun r => (ds r, yhat r)) forecast /\
  confidence_interval (make_figure c series forecast) =
    map (fun r => (ds r, yhat_upper r)) forecast
    ++ rev (map (fun r => (ds r, yhat_lower r)) forecast).
Proof.
  unfold make_figure. simpl. split; [reflexivity | split].
  - apply combine_map.
  - rewrite combine_app_same by now rewrite !length_map.
    rewrite combine_map, <- !map_rev, combine_map. reflexivity.
Qed.

End SeriesFacts.

(* ================================================================== *)
(** * Further properties of the dashboard filters *)
(* ================================================================== *)

Module DashboardFacts.
Import App Props Props2 Sample Sample2.
Local Open Scope string_scope.
Local Open Scope list_scope.

Lemma to_datetime_all (df : list Raw.order) :
  (to_datetime df = Ok df /\ forall r, In r df -> ~ time_at_rejected r) \/
  ((exists e, to_datetime df = Err e) /\
   exists r, In r df /\ time_at_rejected r).
Proof. apply CleanSpec.to_datetime_cases. Qed.

Lemma filter_items_incl (sel opts : list string) (df : list Raw.order) :
  incl (filter_items sel opts df) df.
Proof.
  unfold filter_items.
  destruct (truthy sel && (List.length sel <? List.length opts)%nat);
    [|apply incl_refl].
  intros r Hr. apply filter_In in Hr. tauto.
Qed.

Lemma filter_categories_incl (sel opts : list string) (df : list Raw.order) :
  incl (filter_categories sel opts df) df.
Proof.
  unfold filter_categories.
  destruct (truthy sel && (List.length sel <? List.length opts)%nat);
    [|apply incl_refl].
  intros r Hr. apply filter_In in Hr. tauto.
Qed.

Lemma filter_search_incl (re_compile : string -> result (string -> bool))
    (term : string) (df out : list Raw.order) :
  filter_search re_compile term df = Ok out -> incl out df.
Proof.
  unfold filter_search. destruct (py_not term).
  - intros E. inversion E. apply incl_refl.
  - destruct (re_compile term) as [found|e]; [|discriminate].
    intros E. inversion E. intros r Hr. apply filter_In in Hr. tauto.
Qed.

(** The filter block of the Dashboard raises in two cases only: some
    fetched row - inside the date range or not - carries a [time_at] the
    parser rejects, or every [time_at] parses and the search box holds a
    text that the regular-expression engine rejects as a pattern.  When
    it returns, every row is a fetched row with a [time_at] whose day
    lies between the two dates, both included (a row without [time_at]
    is never returned); and with the widgets in their initial state -
    every option selected, no search text - it returns exactly the rows
    of the date range, in their order. *)
Theorem dashboard_filter_spec
    (re_compile : string -> result (string -> bool))
    (from_date to_date : Z)
    (item_filter item_options category_filter category_options : list string)
    (search_term : string) (df_orders : list Raw.order) :
  ((exists e, dashboard_filter re_compile from_date to_date item_filter
                item_options category_filter category_options search_term
                df_orders = Err e) <->
   (exists r, In r df_orders /\ time_at_rejected r) \/
   ((forall r, In r df_orders -> ~ time_at_rejected r) /\
    search_term <> EmptyString /\
    exists e, re_compile search_term = Err e)) /\
  (forall out,
     dashboard_filter re_compile from_date to_date item_filter item_options
       category_filter category_options search_term df_orders = Ok out ->
     forall r, In r out ->
       In r df_orders /\
       exists t, Raw.time_at r = Parsed t /\
                 (from_date <= date t <= to_date)%Z) /\
  ((forall r, In r df_orders -> ~ time_at_rejected r) ->
   dashboard_filter re_compile from_date to_date item_options item_options
     category_options category_options EmptyString df_orders =
   Ok (filter (in_date_range from_date to_date) df_orders)).
Proof.
  unfold dashboard_filter.
  destruct (to_datetime_all df_orders)
    as [[Hok Hnone] | [[e Herr] Hsome]].
  - rewrite Hok. split; [|split].
    + unfold filter_search. split.
      * intros [e E]. right. split; [exact Hnone|].
        destruct (py_not search_term) eqn:Ep; [discriminate E|].
        split; [intros H; subst; discriminate Ep|].
        destruct (re_compile search_term) as [found|e']; [discriminate E|].
        now exists e'.
      * intros [[r [Hr Hrej]] | [_ [Hterm [e E]]]].
        -- exfalso. exact (Hnone r Hr Hrej).
        -- destruct (py_not search_term) eqn:Ep.
           ++ apply NeonDbSpec.py_not_true in Ep. contradiction.
           ++ rewrite E. now exists e.
    + intros out E r Hr.
      apply (filter_search_incl _ _ _ _ E) in Hr.
      apply filter_categories_incl, filter_items_incl in Hr.
      apply filter_In in Hr. destruct Hr as [Hr Hd]. split; [exact Hr|].
      unfold in_date_range in Hd.
      destruct (Raw.time_at r) as [|t|s]; try discriminate Hd.
      exists t. split; [reflexivity|].
      apply andb_true_iff in Hd. destruct Hd as [H1 H2].
      apply Z.leb_le in H1, H2. lia.
    + intros _. unfold filter_items, filter_categories, filter_search.
      rewrite !Nat.ltb_irrefl, !andb_false_r. reflexivity.
  - rewrite Herr. split; [|split].
    + split; [intros _; now left | intros _; now exists e].
    + intros out E. discriminate E.
    + intros Hnone. destruct Hsome as [r [Hr Hrej]].
      exfalso. exact (Hnone r Hr Hrej).
Qed.

Lemma dashboard_filter_spec_witness :
  dashboard_filter words_only (date jan1) (date jan1) ["Shawarma"; "Fries"]
    ["Shawarma"; "Fries"] ["Wraps"; "Sides"] ["Wraps"; "Sides"] EmptyString
    two_sales =
  Ok (filter (in_date_range (date jan1) (date jan1)) two_sales).
Proof.
  apply (proj2 (proj2 (dashboard_filter_spec words_only (date jan1)
                         (date jan1) [] ["Shawarma"; "Fries"] []
                         ["Wraps"; "Sides"] EmptyString two_sales))).
  intros r [<- | [<- | []]] [s H]; discriminate H.
Defined.

(** An unbalanced parenthesis in the search box makes the filter block
    raise although every [time_at] parses; "FRIES" finds the fries. *)
Example search_box :
  dashboard_filter words_only (date jan1) (date jan2) [] [] [] [] "("
    two_sales = Err (OtherError "missing ), unterminated subpattern") /\
  dashboard_filter words_only (date jan1) (date jan2) [] [] [] [] "FRIES"
    two_sales = Ok [sale 2 "Fries" 10 jan2 "Sides"].
Proof. split; reflexivity. Qed.

End DashboardFacts.

(* ================================================================== *)
(** * Properties of the Manage Menu page *)
(* ================================================================== *)

Module ManageMenuFacts.
Import -(notations) NeonDb.
Import Props Props2 Sample Sample2 OrderData ManageMenu.
Local Open Scope string_scope.
Local Open Scope list_scope.

Lemma fetch_menu_run (w : world) :
  get_connection w = (w, Ok tt) ->
  fetch_menu w = (w, Ok (order_by_id (menu w))).
Proof. intros H. unfold fetch_menu, NeonDb.bind. rewrite H. reflexivity. Qed.

Lemma fetch_categories_run (leb : string -> string -> bool) (w : world) :
  get_connection w = (w, Ok tt) ->
  fetch_categories leb w = (w, Ok (distinct_categories leb (menu w))).
Proof.
  intros H. unfold fetch_categories, NeonDb.bind. rewrite H. reflexivity.
Qed.

Lemma after_delete_connected (ui : widgets) (w : world) :
  get_connection w = (w, Ok tt) ->
  get_connection (after_delete ui w) = (after_delete ui w, Ok tt).
Proof.
  intros H. unfold after_delete. destruct (delete_clicked ui); [|exact H].
  rewrite (StoreFacts.delete_menu_item_run _ _ H). simpl.
  now apply StoreFacts.get_connection_set_menu.
Qed.

Lemma after_update_connected (ui : widgets) (w : world) :
  get_connection w = (w, Ok tt) ->
  get_connection (after_update ui w) = (after_update ui w, Ok tt).
Proof.
  intros H. unfold after_update. destruct (update_submitted ui); [|exact H].
  rewrite (NeonDbSpec.update_menu_item_run _ _ _ _ _ H). simpl.
  now apply StoreFacts.get_connection_set_menu.
Qed.

Lemma delete_block_run (ui : widgets) (w : world) :
  get_connection w = (w, Ok tt) ->
  delete_block ui w = ((after_delete ui w, delete_report ui), Ok tt).
Proof.
  intros H. unfold delete_block, after_delete, delete_report.
  destruct (delete_clicked ui); [|reflexivity].
  unfold try_except, bind, call, emit.
  rewrite (StoreFacts.delete_menu_item_run _ _ H). reflexivity.
Qed.

Lemma edit_form_run (ui : widgets) (w : world) :
  get_connection w = (w, Ok tt) ->
  edit_form ui w = ((after_update ui w, update_report ui), Ok tt).
Proof.
  intros H. unfold edit_form, after_update, update_report.
  destruct (update_submitted ui); [|reflexivity].
  unfold try_except, bind, call, emit.
  rewrite (NeonDbSpec.update_menu_item_run _ _ _ _ _ H). reflexivity.
Qed.

Lemma tab_view_edit_run (ui : widgets) (w : world) :
  get_connection w = (w, Ok tt) ->
  tab_view_edit ui w =
    ((after_update ui (after_delete ui w),
      st_dataframe (order_by_id (menu w))
        :: st_subheader "✏️ Edit/Delete Item"
        :: delete_report ui ++ update_report ui),
     Ok tt).
Proof.
  intros H. unfold tab_view_edit, try_except, bind at 1.
  unfold call at 1. rewrite (fetch_menu_run w H).
  unfold bind at 1. unfold emit at 1.
  unfold bind at 1. unfold emit at 1.
  unfold bind at 1. rewrite (delete_block_run ui w H).
  rewrite (edit_form_run ui _ (after_delete_connected ui w H)).
  reflexivity.
Qed.

(** The edit tab with the store reachable.  The listing it shows is the
    one fetched before the buttons act, so on the run that deletes or
    updates a row the table on screen still shows the old row.  A delete
    and an update each report success whether or not a row has the id
    entered; when none has, the store is left as it was.  The update
    writes the three fields of the form as they are. *)
Theorem tab_view_edit_spec (ui : widgets) (w : world) :
  get_connection w = (w, Ok tt) ->
  tab_view_edit ui w =
    ((after_update ui (after_delete ui w),
      st_dataframe (order_by_id (menu w))
        :: st_subheader "✏️ Edit/Delete Item"
        :: delete_report ui ++ update_report ui),
     Ok tt) /\
  ((forall r, In r (menu w) -> id r <> selected_id ui) ->
   after_update ui (after_delete ui w) = w) /\
  (delete_clicked ui = false -> update_submitted ui = true ->
   menu (after_update ui (after_delete ui w)) =
     update_rows (selected_id ui) (new_name ui) (new_category ui)
       (new_price ui) (menu w)).
Proof.
  intros H. split; [|split].
  - now apply tab_view_edit_run.
  - intros Habs.
    assert (Hd : after_delete ui w = w).
    { unfold after_delete. destruct (delete_clicked ui); [|reflexivity].
      rewrite (StoreFacts.delete_menu_item_run _ _ H). simpl.
      rewrite StoreFacts.filter_all; [apply NeonDbSpec.set_menu_same|].
      intros r Hr. apply negb_true_iff, Z.eqb_neq. now apply Habs. }
    rewrite Hd. unfold after_update.
    destruct (update_submitted ui); [|reflexivity].
    rewrite (NeonDbSpec.update_menu_item_run _ _ _ _ _ H). simpl.
    rewrite NeonDbSpec.update_rows_absent by exact Habs.
    apply NeonDbSpec.set_menu_same.
  - intros Hd Hu. unfold after_update, after_delete. rewrite Hd, Hu.
    rewrite (NeonDbSpec.update_menu_item_run _ _ _ _ _ H). reflexivity.
Qed.

Lemma tab_view_edit_spec_witness :
  tab_view_edit delete_999 shop =
    ((shop, [st_dataframe (order_by_id (menu shop));
             st_subheader "✏️ Edit/Delete Item";
             st_success "Item deleted successfully.";
             logger_info "Deleted menu item with ID: 999"]), Ok tt) /\
  menu (after_update update_untouched (after_delete update_untouched shop)) =
    [MenuRow 1 EmptyString EmptyString 0; MenuRow 2 "Fries" "Sides" 10].
Proof.
  destruct (tab_view_edit_spec delete_999 shop eq_refl) as [H1 [H2 _]].
  destruct (tab_view_edit_spec update_untouched shop eq_refl) as [_ [_ H3]].
  split.
  - rewrite H1, H2; [reflexivity|].
    intros r [<- | [<- | []]]; simpl; discriminate.
  - rewrite H3; reflexivity.
Defined.

(** The first two steps of the add tab, with the store reachable. *)
Ltac open_tab_add leb w H :=
  unfold tab_add; unfold bind at 1; unfold emit at 1;
  unfold bind at 1; unfold call at 1;
  rewrite (fetch_categories_run leb w H); cbv zeta.

(** The add form tests the name and the price itself, before any call to
    [add_menu_item]: a name that is blank once stripped, and then a price
    of 0 or less - which [add_menu_item] would accept - are answered by a
    message, and the store is not touched. *)
Theorem tab_add_rejects (leb : string -> string -> bool) (ui : widgets)
    (w : world) :
  get_connection w = (w, Ok tt) -> add_submitted ui = true ->
  (strip (item_name ui) = EmptyString ->
   tab_add leb ui w =
     ((w, [st_subheader "Add New Menu Item";
           st_error "Item name is required."]), Ok tt)) /\
  (strip (item_name ui) <> EmptyString -> price ui <= 0 ->
   tab_add leb ui w =
     ((w, [st_subheader "Add New Menu Item";
           st_error "Price must be greater than 0."]), Ok tt)).
Proof.
  intros H Hs. split.
  - intros Hblank.
    open_tab_add leb w H. rewrite Hs, Hblank. reflexivity.
  - intros Hname Hprice. open_tab_add leb w H. rewrite Hs.
    destruct (py_not (strip (item_name ui))) eqn:E.
    + apply NeonDbSpec.py_not_true in E. contradiction.
    + apply Qle_bool_iff in Hprice. rewrite Hprice. reflexivity.
Qed.

Lemma tab_add_rejects_witness :
  tab_add by_length add_free shop =
    ((shop, [st_subheader "Add New Menu Item";
             st_error "Price must be greater than 0."]), Ok tt) /\
  valid_input "Falafel" "Wraps" 0.
Proof.
  split.
  - apply (proj2 (tab_add_rejects by_length add_free shop eq_refl eq_refl)).
    + discriminate.
    + discriminate.
  - unfold valid_input. repeat split; discriminate.
Defined.

(** A submitted add form with a name, a price above 0 and a non-blank
    category picked in the select box inserts one row: the next id, the
    stripped name, the stripped category, the price.  The category is one
    that a row of the menu already has. *)
Theorem tab_add_inserts (leb : string -> string -> bool) (ui : widgets)
    (w : world) (c : string) :
  get_connection w = (w, Ok tt) -> add_submitted ui = true ->
  strip (item_name ui) <> EmptyString -> 0 < price ui ->
  selectbox (distinct_categories leb (menu w)) (category_choice ui) = Some c ->
  strip c <> EmptyString ->
  tab_add leb ui w =
    ((set_menu w
        (menu w ++ [MenuRow (menu_id_seq w) (strip (item_name ui)) (strip c)
                      (price ui)])
        (menu_id_seq w + 1),
      [st_subheader "Add New Menu Item";
       st_success "New item added successfully.";
       logger_info ("Added new menu item: " ++ item_name ui)]), Ok tt) /\
  exists r, In r (menu w) /\ category r = c.
Proof.
  intros H Hs Hname Hprice Hsel Hcat. split.
  - open_tab_add leb w H. rewrite Hs, Hsel.
    destruct (py_not (strip (item_name ui))) eqn:E.
    { apply NeonDbSpec.py_not_true in E. contradiction. }
    destruct (Qle_bool (price ui) 0) eqn:Ep.
    { apply Qle_bool_iff in Ep. exfalso. exact (Qlt_not_le _ _ Hprice Ep). }
    unfold try_except, bind, call, emit, add_selected.
    rewrite StoreFacts.add_menu_item_run; [reflexivity | | exact H].
    unfold valid_input. repeat split; auto. now apply Qlt_le_weak.
  - unfold selectbox in Hsel. apply nth_error_In in Hsel.
    exact (proj1 (StoreFacts.distinct_categories_In leb (menu w) c) Hsel).
Qed.

Lemma tab_add_inserts_witness :
  menu (fst (fst (tab_add by_length add_falafel shop))) =
    menu shop ++ [MenuRow 3 "Falafel" "Wraps" 12].
Proof.
  destruct (tab_add_inserts by_length add_falafel shop "Wraps") as [H _].
  - reflexivity.
  - reflexivity.
  - discriminate.
  - reflexivity.
  - reflexivity.
  - discriminate.
  - rewrite H. reflexivity.
Defined.

(** On an empty menu the add form cannot add the first item: the select
    box has no option, [add_menu_item] receives no category and raises,
    and the page answers "Failed to add new item." whatever the name and
    the price. *)
Theorem tab_add_empty_menu (leb : string -> string -> bool) (ui : widgets)
    (w : world) :
  get_connection w = (w, Ok tt) -> menu w = [] ->
  add_submitted ui = true ->
  strip (item_name ui) <> EmptyString -> 0 < price ui ->
  tab_add leb ui w =
    ((w, [st_subheader "Add New Menu Item";
          st_error "Failed to add new item.";
          logger_error ("Error adding new item " ++ item_name ui ++ ": "
                        ++ msg_category_empty)]), Ok tt).
Proof.
  intros H Hempty Hs Hname Hprice. open_tab_add leb w H.
  rewrite Hs, Hempty.
  destruct (py_not (strip (item_name ui))) eqn:E.
  { apply NeonDbSpec.py_not_true in E. contradiction. }
  destruct (Qle_bool (price ui) 0) eqn:Ep.
  { apply Qle_bool_iff in Ep. exfalso. exact (Qlt_not_le _ _ Hprice Ep). }
  assert (Hsel : selectbox (distinct_categories leb []) (category_choice ui)
                 = None) by (destruct (category_choice ui); reflexivity).
  rewrite Hsel. unfold try_except, bind, call, emit, add_selected.
  assert (Hadd : add_menu_item (item_name ui) EmptyString (price ui) w =
                 (w, Err (ValueError msg_category_empty))).
  { unfold add_menu_item.
    assert (Hn : py_not (item_name ui) || py_not (strip (item_name ui)) = false).
    { rewrite TextFacts.blank_test_strip. exact E. }
    rewrite Hn. reflexivity. }
  rewrite Hadd. reflexivity.
Qed.

Lemma tab_add_empty_menu_witness :
  tab_add by_length add_falafel empty_shop =
    ((empty_shop,
      [st_subheader "Add New Menu Item";
       st_error "Failed to add new item.";
       logger_error "Error adding new item  Falafel: Category cannot be empty"]),
     Ok tt).
Proof.
  apply (tab_add_empty_menu by_length add_falafel empty_shop).
  - reflexivity.
  - reflexivity.
  - reflexivity.
  - discriminate.
  - reflexivity.
Defined.

Lemma tab_add_returns (leb : string -> string -> bool) (ui : widgets)
    (w : world) :
  get_connection w = (w, Ok tt) -> snd (tab_add leb ui w) = Ok tt.
Proof.
  intros H. open_tab_add leb w H.
  destruct (add_submitted ui); [|reflexivity].
  destruct (py_not (strip (item_name ui))); [reflexivity|].
  destruct (Qle_bool (price ui) 0); [reflexivity|].
  unfold try_except, bind, call, emit.
  destruct (add_selected (item_name ui)
              (selectbox (distinct_categories leb (menu w)) (category_choice ui))
              (price ui) w) as [w' [[]|e]]; reflexivity.
Qed.

(** The page as a whole.  With the store reachable it ends normally
    whatever the widgets hold: every failure of a helper is turned into a
    message.  With the store unreachable the edit tab reports "Failed to
    load menu data.", and then the call of [fetch_categories] in the add
    tab, which no handler wraps, raises out of the page; the store is
    left as it was. *)
Theorem manage_menu_outcome (leb : string -> string -> bool) (ui : widgets)
    (w : world) :
  (get_connection w = (w, Ok tt) -> snd (manage_menu leb ui w) = Ok tt) /\
  (forall e, snd (get_connection w) = Err e ->
     manage_menu leb ui w =
       ((w, [st_title "🧾 Menu Management";
             st_error "Failed to load menu data.";
             logger_error ("Error loading menu data: " ++ exn_str e);
             st_subheader "Add New Menu Item"]), Err e)).
Proof.
  split.
  - intros H. unfold manage_menu. unfold bind at 1. unfold emit at 1.
    unfold bind at 1.
    rewrite (tab_view_edit_run ui w H).
    pose proof (tab_add_returns leb ui _
                  (after_update_connected ui _ (after_delete_connected ui w H)))
      as Hadd.
    destruct (tab_add leb ui (after_update ui (after_delete ui w)))
      as [[w' out] r]. simpl in Hadd. subst r. reflexivity.
  - intros e He. pose proof (StoreFacts.get_connection_fails w e He) as Hg.
    assert (Hm : fetch_menu w = (w, Err e)).
    { unfold fetch_menu, NeonDb.bind. now rewrite Hg. }
    assert (Hc : fetch_categories leb w = (w, Err e)).
    { unfold fetch_categories, NeonDb.bind. now rewrite Hg. }
    unfold manage_menu, tab_view_edit, tab_add, try_except, bind, call, emit.
    rewrite Hm. simpl. rewrite Hc. reflexivity.
Qed.

Lemma manage_menu_outcome_witness :
  snd (manage_menu by_length add_falafel shop) = Ok tt /\
  snd (manage_menu by_length idle shop_offline) = Err offline_error.
Proof.
  split.
  - apply (proj1 (manage_menu_outcome by_length add_falafel shop)).
    reflexivity.
  - rewrite (proj2 (manage_menu_outcome by_length idle shop_offline)
               offline_error eq_refl).
    reflexivity.
Defined.

End ManageMenuFacts.

(* ================================================================== *)
(** * The percentiles of the outlier trim *)
(* ================================================================== *)

Module PercentileSpec.
Import App Props Props2 Sample Sample2.
Local Open Scope string_scope.
Local Open Scope list_scope.

Lemma sorted_nth_step (a : list Q) (k : nat) (d : Q) :
  StronglySorted Qle a -> (S k < List.length a)%nat ->
  nth k a d <= nth (S k) a d.
Proof.
  intros Hs. revert k. induction Hs as [|x l Hl IH Hall]; intros k Hk.
  - simpl in Hk. lia.
  - destruct k as [|k].
    + simpl. rewrite Forall_forall in Hall. apply Hall.
      destruct l as [|y l']; [simpl in Hk; lia | now left].
    + simpl. apply IH. simpl in Hk. lia.
Qed.

(** The position of a quantile between 0 and 1 falls on the column. *)
Lemma position_in_range (q : Q) (n : nat) :
  0 <= q -> q <= 1 -> (1 <= n)%nat ->
  let h := q * inject_Z (Z.of_nat n - 1) in
  (Z.to_nat (Qfloor h) < n)%nat /\ 0 <= h - inject_Z (Qfloor h) /\
  h - inject_Z (Qfloor h) < 1.
Proof.
  intros Hq0 Hq1 Hn h.
  assert (Hm : 0 <= inject_Z (Z.of_nat n - 1)).
  { change 0 with (inject_Z 0). rewrite <- Zle_Qle. lia. }
  assert (Hh0 : 0 <= h) by (unfold h; now apply Qmult_le_0_compat).
  assert (Hh1 : h <= inject_Z (Z.of_nat n - 1)).
  { unfold h. rewrite <- (Qmult_1_l (inject_Z (Z.of_nat n - 1))) at 2.
    apply Qmult_le_compat_r; assumption. }
  pose proof (Qfloor_le h) as Hle. pose proof (Qlt_floor h) as Hup.
  assert (Hf1 : (Qfloor h <= Z.of_nat n - 1)%Z).
  { rewrite <- (Qfloor_Z (Z.of_nat n - 1)). now apply Qfloor_resp_le. }
  assert (Hf0 : (0 <= Qfloor h)%Z).
  { change 0%Z with (Qfloor 0). now apply Qfloor_resp_le. }
  split; [lia|]. split.
  - lra.
  - rewrite inject_Z_plus in Hup. change (inject_Z 1) with 1 in Hup. lra.
Qed.

(** What [quantile] computes is the interpolated quantile of the column. *)
Lemma quantile_is_percentile (xs : list Q) (q : Q) :
  xs <> [] -> 0 <= q -> q <= 1 ->
  exists p, quantile xs q = Some p /\ percentile_of xs q p.
Proof.
  intros Hne Hq0 Hq1.
  pose proof (PipelineFacts.sort_values_perm xs) as Hperm.
  pose proof (PipelineFacts.sort_values_sorted xs) as Hsorted.
  pose proof (OutlierSpec.sort_values_length xs) as Hlen.
  assert (Hn : (1 <= List.length xs)%nat).
  { destruct xs; [contradiction | simpl; lia]. }
  unfold quantile, percentile_of.
  destruct (sort_values xs) as [|a0 a'] eqn:E; [simpl in Hlen; lia|].
  rewrite Hlen.
  destruct (position_in_range q (List.length xs) Hq0 Hq1 Hn)
    as [Hk [Hf0 Hf1]].
  set (h := q * inject_Z (Z.of_nat (List.length xs) - 1)) in *.
  set (k := Z.to_nat (Qfloor h)) in *.
  set (lo := nth k (a0 :: a') a0).
  set (hi := nth (k + 1) (a0 :: a') lo).
  assert (Hlo : nth_error (a0 :: a') k = Some lo).
  { unfold lo. apply nth_error_nth'. rewrite Hlen. exact Hk. }
  assert (Hlohi : lo <= hi).
  { unfold hi. destruct (Nat.lt_ge_cases (k + 1) (List.length (a0 :: a')))
      as [Hin | Hout].
    - rewrite (nth_indep (a0 :: a') lo a0 Hin). unfold lo.
      replace (k + 1)%nat with (S k) by lia.
      apply sorted_nth_step; [exact Hsorted | lia].
    - rewrite nth_overflow by exact Hout. apply Qle_refl. }
  eexists. split; [reflexivity|].
  exists (a0 :: a'), lo. split; [exact Hperm | split; [exact Hsorted|]].
  cbv zeta. fold h k. split; [exact Hlo|]. fold lo hi.
  split; [reflexivity|].
  set (f := h - inject_Z (Qfloor h)) in *.
  assert (Hgap : 0 <= hi - lo) by lra.
  assert (Hprod0 : 0 <= (hi - lo) * f) by now apply Qmult_le_0_compat.
  assert (Hprod1 : (hi - lo) * f <= hi - lo).
  { rewrite <- (Qmult_1_r (hi - lo)) at 2.
    rewrite !(Qmult_comm (hi - lo)).
    apply Qmult_le_compat_r; [lra | exact Hgap]. }
  split; lra.
Qed.

(** C6. On a non-empty cleaned frame the two bounds of the trim exist and
    are the 1st and the 99th percentile of [total_price], by linear
    interpolation between the neighbouring values of the sorted column,
    taken on the frame before the trim.  A row is kept exactly when it is
    a row of the frame whose [total_price] lies in the closed interval
    between them; so no row that is kept has a [total_price] strictly
    below the 1st percentile or strictly above the 99th. *)
Theorem remove_outliers_spec (df : list order) :
  df <> [] ->
  exists p1 p99,
    q_low df = Some p1 /\ q_high df = Some p99 /\
    percentile_of (map total_price df) (1 # 100) p1 /\
    percentile_of (map total_price df) (99 # 100) p99 /\
    (forall r, In r (remove_outliers df) <->
       In r df /\ p1 <= total_price r /\ total_price r <= p99) /\
    (forall r, In r (remove_outliers df) ->
       ~ total_price r < p1 /\ ~ p99 < total_price r).
Proof.
  intros Hne.
  assert (Hm : map total_price df <> []).
  { destruct df; [contradiction | discriminate]. }
  destruct (quantile_is_percentile (map total_price df) (1 # 100) Hm)
    as [p1 [E1 H1]]; [discriminate | discriminate |].
  destruct (quantile_is_percentile (map total_price df) (99 # 100) Hm)
    as [p99 [E99 H99]]; [discriminate | discriminate |].
  exists p1, p99.
  assert (Hkept : forall r, In r (remove_outliers df) <->
            In r df /\ p1 <= total_price r /\ total_price r <= p99).
  { intros r. unfold remove_outliers, q_low, q_high.
    rewrite filter_In, E1, E99, andb_true_iff. simpl.
    rewrite !Qle_bool_iff. tauto. }
  split; [exact E1|]. split; [exact E99|]. split; [exact H1|].
  split; [exact H99|]. split; [exact Hkept|].
  intros r Hr. apply Hkept in Hr. destruct Hr as [_ [Ha Hb]].
  split; apply Qle_not_lt; assumption.
Qed.

Lemma remove_outliers_spec_witness :
  exists p1 p99,
    q_low (prepared week) = Some p1 /\ q_high (prepared week) = Some p99 /\
    percentile_of (map total_price (prepared week)) (1 # 100) p1 /\
    percentile_of (map total_price (prepared week)) (99 # 100) p99.
Proof.
  destruct (remove_outliers_spec (prepared week))
    as [p1 [p99 [H1 [H2 [H3 [H4 _]]]]]].
  - vm_compute. discriminate.
  - exists p1, p99. auto.
Defined.

End PercentileSpec.

(* ================================================================== *)
(** * The daily series, whatever the arithmetic of the column *)
(* ================================================================== *)

Module GroupedSpec.
Import App Props Props2 Sample Sample2 Grouped.
Local Open Scope string_scope.
Local Open Scope list_scope.

(** The [date] of a timestamp is the calendar day it falls on. *)
Lemma date_falls_on (d t : Z) : date t = d <-> falls_on d t.
Proof.
  unfold date, falls_on. split.
  - intros <-. pose proof (Z.mul_div_le t 86400).
    pose proof (Z.mul_succ_div_gt t 86400). lia.
  - intros [H1 H2]. symmetry. apply (Z.div_unique t 86400 d (t - 86400 * d));
      lia.
Qed.

Lemma on_day_date (d t : Z) : on_day d t = (date t =? d)%Z.
Proof.
  destruct (date t =? d)%Z eqn:E.
  - apply Z.eqb_eq, date_falls_on in E. destruct E as [H1 H2].
    unfold on_day. apply andb_true_iff.
    split; [now apply Z.leb_le | now apply Z.ltb_lt].
  - apply Z.eqb_neq in E. destruct (on_day d t) eqn:Eo; [|reflexivity].
    exfalso. apply E, date_falls_on. unfold on_day in Eo.
    apply andb_true_iff in Eo. destruct Eo as [H1 H2].
    apply Z.leb_le in H1. apply Z.ltb_lt in H2. split; assumption.
Qed.

Section Arithmetic.
Variables num acc : Type.
Variable start : num -> acc.
Variable step : acc -> num -> acc.

Local Notation "'keys'" := (map (@fst Z acc)).
Local Notation "'add_to'" := (bucket_add start step).

Lemma bucket_add_keys (d : Z) (v : num) (b : list (Z * acc)) (x : Z) :
  In x (keys (add_to d v b)) <-> x = d \/ In x (keys b).
Proof.
  induction b as [|[d' s] rest IH]; simpl.
  - intuition.
  - destruct (d <? d')%Z eqn:Elt; simpl; [intuition|].
    destruct (d =? d')%Z eqn:Eeq; simpl.
    + apply Z.eqb_eq in Eeq. subst. intuition.
    + rewrite IH. intuition.
Qed.

Lemma bucket_add_sorted (d : Z) (v : num) (b : list (Z * acc)) :
  StronglySorted Z.lt (keys b) -> StronglySorted Z.lt (keys (add_to d v b)).
Proof.
  induction b as [|[d' s] rest IH]; simpl; intros Hs.
  - repeat constructor.
  - apply StronglySorted_inv in Hs. destruct Hs as [Hrest Hall].
    destruct (d <? d')%Z eqn:Elt; simpl.
    + apply Z.ltb_lt in Elt. constructor; [constructor; assumption|].
      constructor; [exact Elt|].
      eapply Forall_impl; [|exact Hall]. intros a Ha. simpl in Ha. lia.
    + destruct (d =? d')%Z eqn:Eeq; simpl.
      * constructor; assumption.
      * apply Z.ltb_ge in Elt. apply Z.eqb_neq in Eeq.
        constructor; [now apply IH|].
        apply Forall_forall. intros x Hx.
        apply bucket_add_keys in Hx. destruct Hx as [-> | Hx]; [lia|].
        rewrite Forall_forall in Hall. now apply Hall.
Qed.

Lemma lookup_absent (d : Z) (b : list (Z * acc)) :
  ~ In d (keys b) -> lookup d b = None.
Proof.
  induction b as [|[d' s] rest IH]; simpl; intros H; [reflexivity|].
  destruct (d =? d')%Z eqn:E.
  - apply Z.eqb_eq in E. exfalso. apply H. now left.
  - apply IH. intros Hin. apply H. now right.
Qed.

Lemma lookup_entry (d : Z) (s : acc) (b : list (Z * acc)) :
  StronglySorted Z.lt (keys b) -> In (d, s) b -> lookup d b = Some s.
Proof.
  induction b as [|[d' s'] rest IH]; simpl; intros Hs Hin; [contradiction|].
  apply StronglySorted_inv in Hs. destruct Hs as [Hrest Hall].
  destruct Hin as [E | Hin].
  - inversion E; subst. now rewrite Z.eqb_refl.
  - assert (Hlt : (d' < d)%Z).
    { rewrite Forall_forall in Hall. apply Hall.
      apply (in_map fst) in Hin. exact Hin. }
    assert (E : (d =? d')%Z = false) by (apply Z.eqb_neq; lia).
    rewrite E. now apply IH.
Qed.

(** What adding a value does to the state of each day. *)
Lemma bucket_add_lookup (d : Z) (v : num) (b : list (Z * acc)) (x : Z) :
  StronglySorted Z.lt (keys b) ->
  lookup x (add_to d v b) =
  if (x =? d)%Z then Some (feed1 start step (lookup d b) v) else lookup x b.
Proof.
  induction b as [|[d' s] rest IH]; simpl; intros Hs.
  - destruct (x =? d)%Z; reflexivity.
  - apply StronglySorted_inv in Hs. destruct Hs as [Hrest Hall].
    destruct (d <? d')%Z eqn:Elt; simpl.
    + apply Z.ltb_lt in Elt.
      assert (Ed : (d =? d')%Z = false) by (apply Z.eqb_neq; lia).
      rewrite Ed. rewrite (lookup_absent d rest).
      * destruct (x =? d)%Z; reflexivity.
      * intros Hin. rewrite Forall_forall in Hall.
        specialize (Hall d Hin). lia.
    + destruct (d =? d')%Z eqn:Eeq; simpl.
      * apply Z.eqb_eq in Eeq. subst d'.
        destruct (x =? d)%Z; reflexivity.
      * rewrite (IH Hrest).
        destruct (x =? d')%Z eqn:Ex; [|reflexivity].
        apply Z.eqb_eq in Ex. subst x. now rewrite Z.eqb_sym, Eeq.
Qed.

(** The invariant of the fold over the rows. *)
Lemma grouped_fold (rows : list (Z * num)) (b : list (Z * acc)) :
  StronglySorted Z.lt (keys b) ->
  let out := fold_left (fun b p => add_to (date (fst p)) (snd p) b) rows b in
  StronglySorted Z.lt (keys out) /\
  (forall x, In x (keys out) <->
     In x (keys b) \/ exists t v, In (t, v) rows /\ date t = x) /\
  (forall x, lookup x out =
     feed start step (lookup x b)
       (map snd (filter (fun p => (date (fst p) =? x)%Z) rows))).
Proof.
  revert b. induction rows as [|[t v] rest IH]; intros b Hs; simpl.
  - split; [exact Hs | split].
    + intros x. split; [auto | intros [H | [t [v [[] _]]]]; exact H].
    + reflexivity.
  - destruct (IH (add_to (date t) v b) (bucket_add_sorted (date t) v b Hs))
      as [Hsorted [Hkeys Hlook]].
    split; [exact Hsorted | split].
    + intros x. rewrite Hkeys, bucket_add_keys. split.
      * intros [[-> | H] | [t' [v' [Hin E]]]]; eauto 6.
      * intros [H | [t' [v' [[E' | Hin] E]]]]; eauto 6.
        inversion E'; subst. auto.
    + intros x. rewrite Hlook, (bucket_add_lookup (date t) v b x Hs).
      rewrite (Z.eqb_sym (date t) x).
      destruct (x =? date t)%Z eqn:E; simpl; [|reflexivity].
      apply Z.eqb_eq in E. now subst x.
Qed.

Lemma feed_open (s : acc) (vs : list num) :
  feed start step (Some s) vs = Some (fold_left step vs s).
Proof.
  revert s. induction vs as [|v vs IH]; intros s; simpl; [reflexivity|].
  apply IH.
Qed.

Lemma feed_closed (vs : list num) :
  feed start step None vs = accumulate start step vs.
Proof. destruct vs as [|v vs]; simpl; [reflexivity | apply feed_open]. Qed.

(** The grouped sum over any arithmetic. *)
Lemma grouped_with_spec (rows : list (Z * num)) :
  let series := grouped_with start step rows in
  StronglySorted Z.lt (keys series) /\
  NoDup (keys series) /\
  (forall d, In d (keys series) <->
     exists t v, In (t, v) rows /\ falls_on d t) /\
  (forall d s, In (d, s) series ->
     accumulate start step (values_on d rows) = Some s).
Proof.
  intros series. subst series. unfold grouped_with.
  destruct (grouped_fold rows [] (SSorted_nil Z.lt)) as [Hs [Hk Hl]].
  simpl in Hs, Hk, Hl.
  split; [exact Hs | split; [now apply SeriesSpec.sorted_lt_NoDup | split]].
  - intros d. rewrite Hk. split.
    + intros [[] | [t [v [Hin E]]]]. exists t, v.
      split; [exact Hin | now apply date_falls_on].
    + intros [t [v [Hin E]]]. right. exists t, v.
      split; [exact Hin | now apply date_falls_on].
  - intros d s Hin. rewrite <- (lookup_entry d s _ Hs Hin), Hl, feed_closed.
    unfold values_on. f_equal. f_equal. apply filter_ext.
    intros p. apply on_day_date.
Qed.

End Arithmetic.

Lemma group_add_bucket_add (d : Z) (v : Q) (b : list (Z * Q)) :
  group_add d v b = bucket_add (fun x => x) Qplus d v b.
Proof.
  induction b as [|[d' s] rest IH]; simpl; [reflexivity|].
  now rewrite IH.
Qed.

(** The series of the page is the grouped sum over the rationals. *)
Lemma df_grouped_instance (df_orders : list order) (c : string) :
  df_grouped df_orders c =
  grouped_with (fun x => x) Qplus (column (df_category df_orders c)).
Proof.
  unfold df_grouped, groupby_date_sum, grouped_with, column.
  generalize (@nil (Z * Q)).
  induction (df_category df_orders c) as [|r rest IH]; intros b; simpl;
    [reflexivity|].
  rewrite group_add_bucket_add. apply IH.
Qed.

Lemma fold_left_Qplus (vs : list Q) (s : Q) :
  fold_left Qplus vs s == s + fold_right Qplus 0 vs.
Proof.
  revert s. induction vs as [|v vs IH]; intros s; simpl; [ring|].
  rewrite IH. ring.
Qed.

Lemma values_on_column (df_orders : list order) (c : string) (d : Z) :
  values_on d (column (df_category df_orders c)) =
  map total_price (rows_of_day df_orders c d).
Proof.
  unfold values_on, column, rows_of_day, df_category.
  induction df_orders as [|r rest IH]; simpl; [reflexivity|].
  destruct (String.eqb (category r) c); simpl; [|exact IH].
  destruct (on_day d (time_at r)); simpl; [now rewrite IH | exact IH].
Qed.

Lemma sum_total_price_map (rows : list order) :
  sum_total_price rows == fold_right Qplus 0 (map total_price rows).
Proof.
  induction rows as [|r rows IH]; simpl; [reflexivity|]. now rewrite IH.
Qed.

(** C2, as the code has it.  Whatever the arithmetic of the column, the
    series of a grouped sum has strictly increasing dates, hence no date
    twice; its dates are exactly the calendar days on which a row falls;
    and the value at a date is the sum, taken in row order in that
    arithmetic, of the values of exactly the rows that fall on that day.
    The series of a category on the page is this grouped sum over the
    [time_at] and [total_price] of the rows of the category; read over
    the rationals, where no addition rounds, its value at a date is the
    exact sum of [total_price] over those rows. *)
Theorem df_grouped_spec :
  (forall (num acc : Type) (start : num -> acc) (step : acc -> num -> acc)
          (rows : list (Z * num)),
     let series := grouped_with start step rows in
     StronglySorted Z.lt (map fst series) /\
     NoDup (map fst series) /\
     (forall d, In d (map fst series) <->
        exists t v, In (t, v) rows /\ falls_on d t) /\
     (forall d s, In (d, s) series ->
        accumulate start step (values_on d rows) = Some s)) /\
  (forall (df_orders : list order) (c : string),
     df_grouped df_orders c =
       grouped_with (fun x => x) Qplus (column (df_category df_orders c)) /\
     StronglySorted Z.lt (dates (df_grouped df_orders c)) /\
     NoDup (dates (df_grouped df_orders c)) /\
     (forall d, In d (dates (df_grouped df_orders c)) <->
        exists r, In r df_orders /\ category r = c /\
                  falls_on d (time_at r)) /\
     (forall d y, In (d, y) (df_grouped df_orders c) ->
        y == sum_total_price (rows_of_day df_orders c d))).
Proof.
  split; [intros num acc start step rows; apply grouped_with_spec|].
  intros df_orders c. split; [apply df_grouped_instance|].
  rewrite df_grouped_instance. unfold dates.
  destruct (grouped_with_spec Q Q (fun x : Q => x) Qplus
              (column (df_category df_orders c))) as [Hs [Hnd [Hk Hv]]].
  split; [exact Hs | split; [exact Hnd | split]].
  - intros d. rewrite Hk. unfold column, df_category. split.
    + intros [t [v [Hin Hd]]]. apply in_map_iff in Hin.
      destruct Hin as [r [E Hr]]. inversion E; subst.
      apply filter_In in Hr. destruct Hr as [Hr Hc].
      apply String.eqb_eq in Hc. now exists r.
    + intros [r [Hr [Hc Hd]]]. exists (time_at r), (total_price r).
      split; [|exact Hd]. apply in_map_iff. exists r.
      split; [reflexivity|]. apply filter_In.
      split; [exact Hr | now apply String.eqb_eq].
  - intros d y Hin. specialize (Hv d y Hin).
    rewrite values_on_column in Hv. rewrite sum_total_price_map.
    destruct (map total_price (rows_of_day df_orders c d)) as [|v vs];
      simpl in Hv; [discriminate Hv|].
    inversion Hv; subst. rewrite fold_left_Qplus. simpl. ring.
Qed.

(** C2, as the specification words it, fails in binary64, the arithmetic
    the column has: two rows of the same day hold 0.1 and 0.2; the value
    of the series at that day, with the plain sum as with the compensated
    sum, is the binary64 number next above 0.3, which is not the exact
    sum of the two values. *)
Lemma binary64_sum_rounds :
  let rows := [(jan1, Binary64.tenth); ((jan1 + 3600)%Z, Binary64.fifth)] in
  exists y c qy qa qb,
    grouped_with (fun x => x) PrimFloat.add rows = [(date jan1, y)] /\
    grouped_with kahan_start kahan_step rows = [(date jan1, (y, c))] /\
    exact y = Some qy /\ exact Binary64.tenth = Some qa /\
    exact Binary64.fifth = Some qb /\ ~ qy == qa + qb.
Proof.
  intros rows. subst rows.
  eexists. eexists. eexists. eexists. eexists.
  split; [vm_compute; reflexivity|].
  split; [vm_compute; reflexivity|].
  split; [vm_compute; reflexivity|].
  split; [vm_compute; reflexivity|].
  split; [vm_compute; reflexivity|].
  intros H. vm_compute in H. discriminate H.
Qed.

End GroupedSpec.
